(** * Attention control for prompt-to-prompt editing (main.py)

    A shallow embedding of the attention-control classes of [main.py]
    (LocalBlend, AttentionControl, EmptyControl, AttentionStore,
    AttentionControlEdit, AttentionReplace, AttentionRefine,
    AttentionReweight, get_equalizer, aggregate_attention) and the
    properties the specification states about them, followed by further
    properties of the same code.

    Conventions of the embedding.
    - A torch tensor is a shape together with a function from multi-indices
      to elements; only the values at in-bounds indices are meaningful.
    - The methods are written over an arbitrary element type [num] with its
      arithmetic ([Scalar.arithmetic]); whatever involves no property of the
      arithmetic is proved for every [num].  Two arithmetics are given:
      [binary32], IEEE single precision as torch computes with by default,
      and [exact], the rationals.
    - A Python [float] is an IEEE double ([Py.Float]).
    - Python exceptions are values of [exn]; a method of a controller is a
      function from the controller (the fields of [self]) to a result and
      the updated controller, so the fields keep whatever was written
      before an exception was raised.
    - The classes are embedded with tensors passed by value.  The storing
      class keeps the tensor objects it is given and adds to them in place;
      the module [Objects] embeds it once more over the memory of the
      tensors of the caller, for the properties that depend on which
      objects are sent. *)

From Stdlib Require Import String Ascii.
From Stdlib Require Import List ZArith QArith Bool Lia Arith PeanoNat.
From Stdlib Require Import SpecFloat.
From Stdlib Require Import Setoid Morphisms.
Import ListNotations.

Arguments Nat.div : simpl never.
Arguments Nat.modulo : simpl never.
Arguments Nat.pow : simpl never.
Arguments Z.add : simpl never.
Arguments Z.mul : simpl never.

(** ** Exceptions and results *)

Inductive exn : Type :=
| NotImplementedError
| KeyError
| IndexError
| RuntimeError
| ZeroDivisionError
| OverflowError
| ValueError.

Inductive result (A : Type) : Type :=
| Ok (a : A)
| Raise (e : exn).

Arguments Ok {A} a.
Arguments Raise {A} e.

Definition rbind {A B} (r : result A) (k : A -> result B) : result B :=
  match r with
  | Ok a => k a
  | Raise e => Raise e
  end.

Declare Scope result_scope.
Delimit Scope result_scope with res.
Notation "x <- e ;; k" := (rbind e (fun x => k))
  (at level 61, e at next level, right associativity) : result_scope.

(** ** Tensors *)

Module Tensor.

Record tensor (A : Type) : Type := mk {
  shape : list nat;
  data : list nat -> A
}.

Arguments mk {A} shape data.
Arguments shape {A} t.
Arguments data {A} t idx.

Definition numel (s : list nat) : nat := fold_right Nat.mul 1%nat s.

(** [in_bounds s idx]: [idx] is a valid multi-index of a tensor of shape [s]. *)
Fixpoint in_bounds (s idx : list nat) : bool :=
  match s, idx with
  | [], [] => true
  | d :: s', i :: idx' => (i <? d)%nat && in_bounds s' idx'
  | _, _ => false
  end.

(** Row-major (C-contiguous) linearisation of a multi-index, and its inverse. *)
Fixpoint flat_index (s idx : list nat) : nat :=
  match s, idx with
  | _ :: s', i :: idx' => (i * numel s' + flat_index s' idx')%nat
  | _, _ => 0%nat
  end.

Fixpoint unflat_index (s : list nat) (n : nat) : list nat :=
  match s with
  | [] => []
  | _ :: s' => (n / numel s')%nat :: unflat_index s' (n mod numel s')
  end.

(** [t.shape[i]] for a non-negative literal [i]. *)
Definition shape_at {A} (t : tensor A) (i : nat) : result nat :=
  match nth_error (shape t) i with
  | Some d => Ok d
  | None => Raise IndexError
  end.

(** [t.reshape(s')] for an explicit target shape. *)
Definition reshape {A} (t : tensor A) (s' : list nat) : result (tensor A) :=
  if (numel (shape t) =? numel s')%nat
  then Ok (mk s' (fun idx =>
                    data t (unflat_index (shape t) (flat_index s' idx))))
  else Raise RuntimeError.

(** [t[i]] for a non-negative integer [i]. *)
Definition getitem {A} (t : tensor A) (i : nat) : result (tensor A) :=
  match shape t with
  | [] => Raise IndexError
  | d :: s => if (i <? d)%nat then Ok (mk s (fun idx => data t (i :: idx)))
              else Raise IndexError
  end.

(** [t[i]] for a Python integer [i]: a negative index counts from the end. *)
Definition getitem_int {A} (t : tensor A) (i : Z) : result (tensor A) :=
  match shape t with
  | [] => Raise IndexError
  | d :: _ =>
      if (0 <=? i)%Z then getitem t (Z.to_nat i)
      else if (- Z.of_nat d <=? i)%Z then getitem t (Z.to_nat (i + Z.of_nat d))
      else Raise IndexError
  end.

(** [t[k:]], a slice along the first axis; the bound is clamped as Python
    does. *)
Definition slice_from {A} (k : nat) (t : tensor A) : result (tensor A) :=
  match shape t with
  | [] => Raise IndexError
  | d :: s =>
      Ok (mk ((d - k)%nat :: s)
            (fun idx => match idx with
                        | i :: idx' => data t ((k + i)%nat :: idx')
                        | [] => data t []
                        end))
  end.

(** [t[:k]]. *)
Definition slice_to {A} (k : nat) (t : tensor A) : result (tensor A) :=
  match shape t with
  | [] => Raise IndexError
  | d :: s => Ok (mk (Nat.min k d :: s) (data t))
  end.

(** Broadcasting.  Shapes are aligned at their last axis; an axis of length
    1 is stretched. *)
Definition broadcast_dim (d1 d2 : nat) : option nat :=
  if (d1 =? d2)%nat then Some d1
  else if (d1 =? 1)%nat then Some d2
  else if (d2 =? 1)%nat then Some d1
  else None.

Fixpoint broadcast_rev (r1 r2 : list nat) : option (list nat) :=
  match r1, r2 with
  | [], r => Some r
  | r, [] => Some r
  | d1 :: r1', d2 :: r2' =>
      match broadcast_rev r1' r2', broadcast_dim d1 d2 with
      | Some r, Some d => Some (d :: r)
      | _, _ => None
      end
  end.

Definition broadcast_shapes (s1 s2 : list nat) : option (list nat) :=
  option_map (@rev nat) (broadcast_rev (rev s1) (rev s2)).

(** The index of the operand of shape [s] that is read for the element
    [idx] of the broadcast result. *)
Definition broadcast_index (s idx : list nat) : list nat :=
  map (fun di => if (fst di =? 1)%nat then 0%nat else snd di)
      (combine s (skipn (length idx - length s) idx)).

Definition shape_eqb (s1 s2 : list nat) : bool :=
  if list_eq_dec Nat.eq_dec s1 s2 then true else false.

(** [s] can be expanded to [target] (the operand of an in-place operation or
    of an assignment). *)
Definition expandable_to (s target : list nat) : bool :=
  match broadcast_shapes s target with
  | Some r => shape_eqb r target
  | None => false
  end.

(** An elementwise binary operation [a op b] with broadcasting. *)
Definition binop {A B C} (f : A -> B -> C) (a : tensor A) (b : tensor B)
  : result (tensor C) :=
  match broadcast_shapes (shape a) (shape b) with
  | Some s =>
      Ok (mk s (fun idx => f (data a (broadcast_index (shape a) idx))
                             (data b (broadcast_index (shape b) idx))))
  | None => Raise RuntimeError
  end.

(** An elementwise operation with a Python scalar. *)
Definition pointwise {A B} (f : A -> B) (a : tensor A) : tensor B :=
  mk (shape a) (fun idx => f (data a idx)).

(** The in-place operation [a op= b]: [b] is expanded to the shape of [a]. *)
Definition inplace {A B} (f : A -> B -> A) (a : tensor A) (b : tensor B)
  : result (tensor A) :=
  if expandable_to (shape b) (shape a)
  then Ok (mk (shape a)
              (fun idx =>
                 f (data a idx) (data b (broadcast_index (shape b) idx))))
  else Raise RuntimeError.

Fixpoint strip_leading_ones (s : list nat) : list nat :=
  match s with
  | 1%nat :: s' => strip_leading_ones s'
  | _ => s
  end.

(** [t[k:] = v]: the value is copied into the slice; leading axes of length 1
    of the value are dropped and the rest is expanded to the shape of the
    slice. *)
Definition setitem_from {A} (k : nat) (t v : tensor A) : result (tensor A) :=
  match shape t with
  | [] => Raise IndexError
  | d :: s =>
      let slot := (d - k)%nat :: s in
      let sv := strip_leading_ones (shape v) in
      if expandable_to sv slot
      then Ok (mk (shape t)
                  (fun idx =>
                     match idx with
                     | i :: idx' =>
                         if (i <? k)%nat then data t idx
                         else
                           data v
                             (repeat 0%nat (length (shape v) - length sv)
                              ++ broadcast_index sv ((i - k)%nat :: idx'))
                     | [] => data t idx
                     end))
      else Raise RuntimeError
  end.

(** [t.unsqueeze(0)], also written [t[None, ...]]. *)
Definition unsqueeze0 {A} (t : tensor A) : tensor A :=
  mk (1%nat :: shape t) (fun idx => data t (tl idx)).

(** [t.expand(s)]. *)
Definition expand {A} (t : tensor A) (s : list nat) : result (tensor A) :=
  if expandable_to (shape t) s
  then Ok (mk s (fun idx => data t (broadcast_index (shape t) idx)))
  else Raise RuntimeError.

(** All multi-indices of a shape, in row-major order. *)
Fixpoint all_indices (s : list nat) : list (list nat) :=
  match s with
  | [] => [[]]
  | d :: s' => flat_map (fun i => map (cons i) (all_indices s')) (seq 0 d)
  end.

End Tensor.

Import Tensor.

(** ** Python containers *)

(** [l[i]] for a non-negative index. *)
Definition list_get {A} (l : list A) (i : nat) : result A :=
  match nth_error l i with
  | Some x => Ok x
  | None => Raise IndexError
  end.

(** [l[i] = v] for an index that is in range. *)
Fixpoint list_set {A} (i : nat) (v : A) (l : list A) : list A :=
  match l, i with
  | [], _ => []
  | _ :: l', O => v :: l'
  | x :: l', S j => x :: list_set j v l'
  end.

(** A [dict] with string keys, in insertion order. *)
Definition dict (V : Type) : Type := list (string * V).

Fixpoint dict_get {V} (key : string) (d : dict V) : result V :=
  match d with
  | [] => Raise KeyError
  | (k, v) :: d' => if String.eqb key k then Ok v else dict_get key d'
  end.

(** [d[key] = v] for a key that is present. *)
Fixpoint dict_set {V} (key : string) (v : V) (d : dict V) : dict V :=
  match d with
  | [] => []
  | (k, x) :: d' =>
      if String.eqb key k then (k, v) :: d' else (k, x) :: dict_set key v d'
  end.

Definition dict_keys {V} (d : dict V) : list string := map fst d.

(** ** Numbers *)

(** The arithmetic of the elements of a tensor: the constants 0 and 1, the
    operations [+], [-], [*], the division by a Python integer and the
    comparison [>]. *)
Module Scalar.

Record arithmetic (num : Type) : Type := Build {
  zero : num;
  one : num;
  add : num -> num -> num;
  sub : num -> num -> num;
  mul : num -> num -> num;
  div_int : num -> Z -> num;
  gt : num -> num -> bool
}.

Arguments Build {num} zero one add sub mul div_int gt.
Arguments zero {num} a.
Arguments one {num} a.
Arguments add {num} a x y.
Arguments sub {num} a x y.
Arguments mul {num} a x y.
Arguments div_int {num} a x n.
Arguments gt {num} a x y.

(** [f 0 + ... + f (n-1)]. *)
Fixpoint sum {num} (a : arithmetic num) (n : nat) (f : nat -> num) : num :=
  match n with
  | O => zero a
  | S k => add a (sum a k f) (f k)
  end.

End Scalar.

(** Exact arithmetic on the rationals. *)
Definition exact : Scalar.arithmetic Q :=
  Scalar.Build 0 1 Qplus Qminus Qmult
    (fun x n => x / inject_Z n)
    (fun x y => negb (Qle_bool x y)).

(** IEEE 754 single precision ([torch.float32]), round to nearest even; a
    Python integer is converted to the element type before the division,
    which is the IEEE division. *)
Definition binary32 : Scalar.arithmetic spec_float :=
  Scalar.Build (S754_zero false) (SFone 24 128)
    (SFadd 24 128) (SFsub 24 128) (SFmul 24 128)
    (fun x n => SFdiv 24 128 x (binary_normalize 24 128 n 0 false))
    (fun x y => SFltb y x).

(** Python numbers: an [int], or a [float] (IEEE double precision). *)
Module Py.

Inductive num : Type :=
| Int (n : Z)
| Float (x : spec_float).

(** [float(n)]. *)
Definition float_of_int (n : Z) : result spec_float :=
  match binary_normalize 53 1024 n 0 false with
  | S754_infinity _ => Raise OverflowError
  | x => Ok x
  end.

(** [n * x] for an [int] [n]. *)
Definition int_mul (n : Z) (x : num) : result num :=
  match x with
  | Int k => Ok (Int (n * k))
  | Float f =>
      (nf <- float_of_int n ;;
       Ok (Float (SFmul 53 1024 nf f)))%res
  end.

(** [int(x)]: truncation towards zero. *)
Definition int (x : num) : result Z :=
  match x with
  | Int k => Ok k
  | Float (S754_zero _) => Ok 0%Z
  | Float (S754_finite s m e) =>
      Ok (if (0 <=? e)%Z
          then cond_Zopp s (Z.pos m * 2 ^ e)
          else Z.quot (cond_Zopp s (Z.pos m)) (2 ^ (- e)))%Z
  | Float (S754_infinity _) => Raise OverflowError
  | Float S754_nan => Raise ValueError
  end.

(** [math.floor(x)]. *)
Definition floor (x : num) : result Z :=
  match x with
  | Int k => Ok k
  | Float (S754_zero _) => Ok 0%Z
  | Float (S754_finite s m e) =>
      Ok (if (0 <=? e)%Z
          then cond_Zopp s (Z.pos m * 2 ^ e)
          else Z.div (cond_Zopp s (Z.pos m)) (2 ^ (- e)))%Z
  | Float (S754_infinity _) => Raise OverflowError
  | Float S754_nan => Raise ValueError
  end.

End Py.

(** ** Module-level constants *)

Definition NUM_DIFFUSION_STEPS : Z := 100.
Definition MAX_NUM_WORDS : nat := 77.

(** ** The controller object *)

(** The attention maps of one location, in call order, by location key. *)
Definition store (num : Type) : Type := dict (list (tensor num)).

(** The fields of a LocalBlend object. *)
Record LocalBlend_t (num : Type) : Type := mkLocalBlend {
  alpha_layers : tensor num;
  threshold : num
}.

Arguments mkLocalBlend {num} alpha_layers threshold.
Arguments alpha_layers {num} l.
Arguments threshold {num} l.

(** The part of an editing controller that [replace_cross_attention] reads:
    the concrete class with the fields its constructor stores.  [Abstract]
    is AttentionControlEdit itself, whose method is abstract. *)
#[warnings="-register-all"]
Inductive strategy (num : Type) : Type :=
| Abstract
| Replace (mapper : tensor num)
| Refine (mapper : tensor Z) (alphas : tensor num)
| Reweight (equalizer : tensor num) (prev_controller : option (strategy num)).

Arguments Abstract {num}.
Arguments Replace {num} mapper.
Arguments Refine {num} mapper alphas.
Arguments Reweight {num} equalizer prev_controller.

(** The class of a controller object. *)
Inductive class (num : Type) : Type :=
| ClsAttentionControl
| ClsEmptyControl
| ClsAttentionStore
| ClsAttentionControlEdit (s : strategy num).

Arguments ClsAttentionControl {num}.
Arguments ClsEmptyControl {num}.
Arguments ClsAttentionStore {num}.
Arguments ClsAttentionControlEdit {num} s.

(** The fields of a controller.  The fields of AttentionStore and of
    AttentionControlEdit are unused by the classes above them.
    [between_steps_calls] is a ghost field: it counts the step-boundary
    notifications and is read by no method. *)
Record controller (num : Type) : Type := mkController {
  cls : class num;
  cur_step : Z;
  num_att_layers : Z;
  cur_att_layer : Z;
  step_store : store num;
  attention_store : store num;
  batch_size : nat;
  cross_replace_alpha : tensor num;
  num_self_replace : Z * Z;
  local_blend : option (LocalBlend_t num);
  between_steps_calls : nat
}.

Arguments mkController {num} cls cur_step num_att_layers cur_att_layer
  step_store attention_store batch_size cross_replace_alpha num_self_replace
  local_blend between_steps_calls.
Arguments cls {num} c.
Arguments cur_step {num} c.
Arguments num_att_layers {num} c.
Arguments cur_att_layer {num} c.
Arguments step_store {num} c.
Arguments attention_store {num} c.
Arguments batch_size {num} c.
Arguments cross_replace_alpha {num} c.
Arguments num_self_replace {num} c.
Arguments local_blend {num} c.
Arguments between_steps_calls {num} c.

Section Fields.

Context {num : Type}.

Definition set_cls (v : class num) (c : controller num) : controller num :=
  mkController v (cur_step c) (num_att_layers c) (cur_att_layer c)
    (step_store c) (attention_store c) (batch_size c) (cross_replace_alpha c)
    (num_self_replace c) (local_blend c) (between_steps_calls c).

Definition set_cur_step (v : Z) (c : controller num) : controller num :=
  mkController (cls c) v (num_att_layers c) (cur_att_layer c) (step_store c)
    (attention_store c) (batch_size c) (cross_replace_alpha c)
    (num_self_replace c) (local_blend c) (between_steps_calls c).

Definition set_num_att_layers (v : Z) (c : controller num) : controller num :=
  mkController (cls c) (cur_step c) v (cur_att_layer c) (step_store c)
    (attention_store c) (batch_size c) (cross_replace_alpha c)
    (num_self_replace c) (local_blend c) (between_steps_calls c).

Definition set_cur_att_layer (v : Z) (c : controller num) : controller num :=
  mkController (cls c) (cur_step c) (num_att_layers c) v (step_store c)
    (attention_store c) (batch_size c) (cross_replace_alpha c)
    (num_self_replace c) (local_blend c) (between_steps_calls c).

Definition set_step_store (v : store num) (c : controller num)
  : controller num :=
  mkController (cls c) (cur_step c) (num_att_layers c) (cur_att_layer c) v
    (attention_store c) (batch_size c) (cross_replace_alpha c)
    (num_self_replace c) (local_blend c) (between_steps_calls c).

Definition set_attention_store (v : store num) (c : controller num)
  : controller num :=
  mkController (cls c) (cur_step c) (num_att_layers c) (cur_att_layer c)
    (step_store c) v (batch_size c) (cross_replace_alpha c)
    (num_self_replace c) (local_blend c) (between_steps_calls c).

Definition set_batch_size (v : nat) (c : controller num) : controller num :=
  mkController (cls c) (cur_step c) (num_att_layers c) (cur_att_layer c)
    (step_store c) (attention_store c) v (cross_replace_alpha c)
    (num_self_replace c) (local_blend c) (between_steps_calls c).

Definition set_cross_replace_alpha (v : tensor num) (c : controller num)
  : controller num :=
  mkController (cls c) (cur_step c) (num_att_layers c) (cur_att_layer c)
    (step_store c) (attention_store c) (batch_size c) v
    (num_self_replace c) (local_blend c) (between_steps_calls c).

Definition set_num_self_replace (v : Z * Z) (c : controller num)
  : controller num :=
  mkController (cls c) (cur_step c) (num_att_layers c) (cur_att_layer c)
    (step_store c) (attention_store c) (batch_size c) (cross_replace_alpha c)
    v (local_blend c) (between_steps_calls c).

Definition set_local_blend (v : option (LocalBlend_t num)) (c : controller num)
  : controller num :=
  mkController (cls c) (cur_step c) (num_att_layers c) (cur_att_layer c)
    (step_store c) (attention_store c) (batch_size c) (cross_replace_alpha c)
    (num_self_replace c) v (between_steps_calls c).

Definition set_between_steps_calls (v : nat) (c : controller num)
  : controller num :=
  mkController (cls c) (cur_step c) (num_att_layers c) (cur_att_layer c)
    (step_store c) (attention_store c) (batch_size c) (cross_replace_alpha c)
    (num_self_replace c) (local_blend c) v.

End Fields.

(** A method: it reads and writes the fields of [self] and returns a value
    or raises. *)
Definition M (num A : Type) : Type :=
  controller num -> result A * controller num.

Section Methods.

Context {num : Type}.

Definition ret {A} (a : A) : M num A := fun self => (Ok a, self).

Definition raise {A} (e : exn) : M num A := fun self => (Raise e, self).

Definition bind {A B} (m : M num A) (k : A -> M num B) : M num B :=
  fun self =>
    match m self with
    | (Ok a, self') => k a self'
    | (Raise e, self') => (Raise e, self')
    end.

Definition lift {A} (r : result A) : M num A := fun self => (r, self).

Definition gets {A} (f : controller num -> A) : M num A :=
  fun self => (Ok (f self), self).

Definition modify (f : controller num -> controller num) : M num unit :=
  fun self => (Ok tt, f self).

(** [for x in l: body(x)]. *)
Fixpoint for_each {A} (l : list A) (body : A -> M num unit) : M num unit :=
  match l with
  | [] => ret tt
  | x :: l' => bind (body x) (fun _ => for_each l' body)
  end.

End Methods.

Declare Scope method_scope.
Delimit Scope method_scope with M.
Notation "x <- e ;; k" := (bind e (fun x => k))
  (at level 61, e at next level, right associativity) : method_scope.
Notation "e ;;; k" := (bind e (fun _ => k))
  (at level 61, right associativity) : method_scope.

(** ** Words *)

(** A selected word: its position in the text or the word itself. *)
Inductive word : Type :=
| WordIndex (i : Z)
| WordText (s : string).

(** An element of the argument [words] of LocalBlend: one word given as a
    string, or a list of words. *)
Inductive blend_words : Type :=
| BlendWord (s : string)
| BlendWords (ws : list word).

(** ** class LocalBlend *)

Module LocalBlend.

Section Class.

Context {num : Type} (ar : Scalar.arithmetic num).

(** [__call__(self, x_t, attention_store)].

    [normalized_maps] stands for the torch pipeline of the first lines of the
    method (gathering the cross-attention maps of the store, weighting them
    by [alpha_layers], [max_pool2d], [interpolate] to the spatial size
    [x_t.shape[2:]] and the division by the per-sample maximum): it yields
    the real-valued map that is then thresholded.  The thresholding, the
    union over the batch and the compositing of the latent are modelled as
    written. *)
Definition __call__
  (normalized_maps : tensor num -> store num -> list nat -> result (tensor num))
  (self : LocalBlend_t num) (x_t : tensor num) (attention_store : store num)
  : result (tensor num) :=
  (mask <- normalized_maps (alpha_layers self) attention_store
                           (skipn 2 (shape x_t)) ;;
   (* mask = mask.gt(self.threshold) *)
   let mask := pointwise (fun v => Scalar.gt ar v (threshold self)) mask in
   (* mask = (mask[:1] + mask[1:]).float() *)
   m0 <- slice_to 1 mask ;;
   m1 <- slice_from 1 mask ;;
   mask <- binop orb m0 m1 ;;
   let mask := pointwise (fun b : bool =>
                            if b then Scalar.one ar else Scalar.zero ar) mask in
   (* x_t = x_t[:1] + mask * (x_t - x_t[:1]) *)
   x0 <- slice_to 1 x_t ;;
   x0' <- slice_to 1 x_t ;;
   d <- binop (Scalar.sub ar) x_t x0' ;;
   md <- binop (Scalar.mul ar) mask d ;;
   binop (Scalar.add ar) x0 md)%res.

(** The first statement of [__call__]:
    [attention_store["down_cross"][2:4] + attention_store["up_cross"][:3]]. *)
Definition selected_maps (attention_store : store num)
  : result (list (tensor num)) :=
  (down <- dict_get "down_cross" attention_store ;;
   up <- dict_get "up_cross" attention_store ;;
   Ok (firstn 2 (skipn 2 down) ++ firstn 3 up))%res.

(** The pipeline of [__call__] with its first statement written out;
    [weighted] stands for the statements after it, which take the selected
    maps to the real-valued map of the spatial size [x_t.shape[2:]]. *)
Definition normalized_maps
  (weighted : tensor num -> list (tensor num) -> list nat
              -> result (tensor num))
  : tensor num -> store num -> list nat -> result (tensor num) :=
  fun alpha_layers attention_store size =>
    (maps <- selected_maps attention_store ;;
     weighted alpha_layers maps size)%res.

(** [alpha_layers[i, :, :, :, :, ind] = 1] for a list of token positions. *)
Definition set_tokens (alpha_layers : tensor num) (i : nat) (ind : list nat)
  : result (tensor num) :=
  match shape alpha_layers with
  | [b; _; _; _; _; w] =>
      if (i <? b)%nat && forallb (fun j => (j <? w)%nat) ind
      then
        Ok (mk (shape alpha_layers)
              (fun idx =>
                 match idx with
                 | [i'; _; _; _; _; j] =>
                     if (i' =? i)%nat && existsb (Nat.eqb j) ind
                     then Scalar.one ar
                     else data alpha_layers idx
                 | _ => data alpha_layers idx
                 end))
      else Raise IndexError
  | _ => Raise IndexError
  end.

(** [if type(words_) is str: words_ = [words_]]. *)
Definition words_of (words_ : blend_words) : list word :=
  match words_ with
  | BlendWord s => [WordText s]
  | BlendWords ws => ws
  end.

(** The inner loop of [__init__], over the words of one prompt. *)
Fixpoint mark_words (get_word_inds : string -> word -> result (list nat))
  (prompt : string) (i : nat) (words_ : list word) (alpha_layers : tensor num)
  : result (tensor num) :=
  match words_ with
  | [] => Ok alpha_layers
  | w :: rest =>
      (ind <- get_word_inds prompt w ;;
       alpha_layers <- set_tokens alpha_layers i ind ;;
       mark_words get_word_inds prompt i rest alpha_layers)%res
  end.

(** The outer loop, over [enumerate(zip(prompts, words))] from [i] on. *)
Fixpoint mark_prompts (get_word_inds : string -> word -> result (list nat))
  (i : nat) (pairs : list (string * blend_words)) (alpha_layers : tensor num)
  : result (tensor num) :=
  match pairs with
  | [] => Ok alpha_layers
  | (prompt, words_) :: rest =>
      (alpha_layers <- mark_words get_word_inds prompt i (words_of words_)
                         alpha_layers ;;
       mark_prompts get_word_inds (S i) rest alpha_layers)%res
  end.

(** [LocalBlend(prompts, words, threshold)]: the object, unless a lookup or
    an assignment raises.  [get_word_inds] is [ptp_utils.get_word_inds] with
    the tokenizer it is given. *)
Definition __init__ (get_word_inds : string -> word -> result (list nat))
  (prompts : list string) (words : list blend_words) (threshold : num)
  : result (LocalBlend_t num) :=
  let alpha_layers :=
    mk [List.length prompts; 1; 1; 1; 1; MAX_NUM_WORDS]%nat
       (fun _ => Scalar.zero ar) in
  (alpha_layers <- mark_prompts get_word_inds 0 (combine prompts words)
                     alpha_layers ;;
   Ok (mkLocalBlend alpha_layers threshold))%res.

End Class.

End LocalBlend.

(** ** class AttentionControl *)

Module AttentionControl.

Section Class.

Context {num : Type}.

Definition step_callback (x_t : tensor num) : M num (tensor num) := ret x_t.

Definition between_steps : M num unit := ret tt.

Definition num_uncond_att_layers (LOW_RESOURCE : bool) (self : controller num)
  : Z :=
  if LOW_RESOURCE then num_att_layers self else 0%Z.

(** The abstract method. *)
Definition forward (attn : tensor num) (is_cross : bool)
  (place_in_unet : string)
  : M num (tensor num) :=
  raise NotImplementedError.

(** [__call__(self, attn, is_cross, place_in_unet)].  The arguments
    [self_forward] and [self_between_steps] are the methods [self.forward]
    and [self.between_steps] as the class of [self] resolves them (see
    [forward] and [between_steps] at the end of the embedding). *)
Definition __call__ (LOW_RESOURCE : bool)
  (self_forward : tensor num -> bool -> string -> M num (tensor num))
  (self_between_steps : M num unit)
  (attn : tensor num) (is_cross : bool) (place_in_unet : string)
  : M num (tensor num) :=
  (cur <- gets cur_att_layer ;;
   uncond <- gets (num_uncond_att_layers LOW_RESOURCE) ;;
   attn <- (if (uncond <=? cur)%Z
            then
              if LOW_RESOURCE
              then self_forward attn is_cross place_in_unet
              else
                h <- lift (shape_at attn 0) ;;
                half <- lift (slice_from (h / 2) attn) ;;
                v <- self_forward half is_cross place_in_unet ;;
                lift (setitem_from (h / 2) attn v)
            else ret attn) ;;
   modify (fun self => set_cur_att_layer (cur_att_layer self + 1) self) ;;;
   cur <- gets cur_att_layer ;;
   n <- gets num_att_layers ;;
   uncond <- gets (num_uncond_att_layers LOW_RESOURCE) ;;
   (if (cur =? n + uncond)%Z
    then
      modify (set_cur_att_layer 0) ;;;
      modify (fun self => set_cur_step (cur_step self + 1) self) ;;;
      self_between_steps
    else ret tt) ;;;
   ret attn)%M.

Definition reset : M num unit :=
  (modify (set_cur_step 0) ;;;
   modify (set_cur_att_layer 0))%M.

Definition __init__ : M num unit :=
  (modify (set_cur_step 0) ;;;
   modify (set_num_att_layers (-1)) ;;;
   modify (set_cur_att_layer 0))%M.

End Class.

End AttentionControl.

(** ** class EmptyControl *)

Module EmptyControl.

Definition forward {num} (attn : tensor num) (is_cross : bool)
  (place_in_unet : string) : M num (tensor num) :=
  ret attn.

End EmptyControl.

(** ** class AttentionStore *)

Module AttentionStore.

Section Class.

Context {num : Type} (ar : Scalar.arithmetic num).

Definition get_empty_store : store num :=
  [ ("down_cross", []); ("mid_cross", []); ("up_cross", []);
    ("down_self", []); ("mid_self", []); ("up_self", []) ]%string.

Definition location_key (is_cross : bool) (place_in_unet : string) : string :=
  (place_in_unet ++ "_" ++ (if is_cross then "cross" else "self"))%string.

Definition forward (attn : tensor num) (is_cross : bool)
  (place_in_unet : string)
  : M num (tensor num) :=
  (let key := location_key is_cross place_in_unet in
   d1 <- lift (shape_at attn 1) ;;
   (if (d1 <=? 32 ^ 2)%nat
    then (* self.step_store[key].append(attn) *)
      self <- gets id ;;
      l <- lift (dict_get key (step_store self)) ;;
      modify (set_step_store (dict_set key (l ++ [attn]) (step_store self)))
    else ret tt) ;;;
   ret attn)%M.

(** The body of the inner loop:
    [self.attention_store[key][i] += self.step_store[key][i]]. *)
Definition accumulate (key : string) (i : nat) : M num unit :=
  (self <- gets id ;;
   acc <- lift (dict_get key (attention_store self)) ;;
   a <- lift (list_get acc i) ;;
   stp <- lift (dict_get key (step_store self)) ;;
   s <- lift (list_get stp i) ;;
   a' <- lift (inplace (Scalar.add ar) a s) ;;
   modify (set_attention_store
             (dict_set key (list_set i a' acc) (attention_store self))))%M.

Definition between_steps : M num unit :=
  (self <- gets id ;;
   (if (List.length (attention_store self) =? 0)%nat
    then modify (set_attention_store (step_store self))
    else
      for_each (dict_keys (attention_store self)) (fun key =>
        acc <- gets (fun self => dict_get key (attention_store self)) ;;
        acc <- lift acc ;;
        for_each (seq 0 (List.length acc)) (fun i => accumulate key i))) ;;;
   modify (set_step_store get_empty_store))%M.

Definition get_average_attention (self : controller num) : store num :=
  map (fun kv =>
         (fst kv,
          map (fun item =>
                 pointwise (fun x => Scalar.div_int ar x (cur_step self)) item)
              (snd kv)))
      (attention_store self).

Definition reset : M num unit :=
  (AttentionControl.reset ;;;
   modify (set_step_store get_empty_store) ;;;
   modify (set_attention_store []))%M.

Definition __init__ : M num unit :=
  (AttentionControl.__init__ ;;;
   modify (set_step_store get_empty_store) ;;;
   modify (set_attention_store []))%M.

End Class.

End AttentionStore.

(** ** class AttentionControlEdit *)

(** The argument [self_replace_steps]: a float, or a pair of numbers. *)
Inductive self_replace_arg : Type :=
| SingleFloat (f : spec_float)
| Pair (start stop : Py.num).

Module AttentionControlEdit.

Section Class.

Context {num : Type} (ar : Scalar.arithmetic num).

(** [self_local_blend] is the call [self.local_blend(x_t, store)], that is
    [LocalBlend.__call__] with the pooling pipeline it is given. *)
Definition step_callback
  (self_local_blend : LocalBlend_t num -> tensor num -> store num
                      -> result (tensor num))
  (x_t : tensor num) : M num (tensor num) :=
  (self <- gets id ;;
   match local_blend self with
   | Some lb => lift (self_local_blend lb x_t (attention_store self))
   | None => ret x_t
   end)%M.

Definition replace_self_attention (attn_base att_replace : tensor num)
  : result (tensor num) :=
  (d2 <- shape_at att_replace 2 ;;
   if (d2 <=? 16 ^ 2)%nat
   then
     n <- shape_at att_replace 0 ;;
     expand (unsqueeze0 attn_base) (n :: shape attn_base)
   else Ok att_replace)%res.

(** The abstract method. *)
Definition replace_cross_attention (attn_base att_replace : tensor num)
  : result (tensor num) :=
  Raise NotImplementedError.

(** The tensor that [attn] is a view of was appended to
    [self.step_store[key]] by the call of the parent's [forward] when its
    second axis is at most [32 ** 2]; an in-place write through [attn] is a
    write to that entry (the last of its list).  [written] is the content of
    the storage after the write. *)
Definition write_through (attn written : tensor num) (key : string)
  : M num unit :=
  (self <- gets id ;;
   match shape_at attn 1, dict_get key (step_store self) with
   | Ok d1, Ok l =>
       if (d1 <=? 32 ^ 2)%nat
       then modify (set_step_store
                      (dict_set key
                         (removelast l ++ [mk (shape attn) (data written)])
                         (step_store self)))
       else ret tt
   | _, _ => ret tt
   end)%M.

(** [forward(self, attn, is_cross, place_in_unet)].
    [self_replace_cross_attention] is the method
    [self.replace_cross_attention] as the class of [self] resolves it.
    [attn.reshape] of the contiguous input is a view, so the slice
    assignments write to the tensor recorded in the step store. *)
Definition forward
  (self_replace_cross_attention : tensor num -> tensor num
                                  -> result (tensor num))
  (attn : tensor num) (is_cross : bool) (place_in_unet : string)
  : M num (tensor num) :=
  (_ <- AttentionStore.forward attn is_cross place_in_unet ;;
   self <- gets id ;;
   if is_cross || ((fst (num_self_replace self) <=? cur_step self)%Z
                   && (cur_step self <? snd (num_self_replace self))%Z)
   then
     n <- lift (shape_at attn 0) ;;
     (if (batch_size self =? 0)%nat
      then raise ZeroDivisionError else ret tt) ;;;
     let h := (n / batch_size self)%nat in
     attn_r <- lift (reshape attn (batch_size self :: h :: tl (shape attn))) ;;
     attn_base <- lift (getitem attn_r 0) ;;
     attn_repalce <- lift (slice_from 1 attn_r) ;;
     attn_w <-
       lift (if is_cross
             then
               (alpha_words <- getitem_int (cross_replace_alpha self)
                                 (cur_step self) ;;
                rca <- self_replace_cross_attention attn_base attn_repalce ;;
                t1 <- binop (Scalar.mul ar) rca alpha_words ;;
                t2 <- binop (Scalar.mul ar)
                        (pointwise (fun a => Scalar.sub ar (Scalar.one ar) a)
                           alpha_words)
                        attn_repalce ;;
                attn_repalce_new <- binop (Scalar.add ar) t1 t2 ;;
                setitem_from 1 attn_r attn_repalce_new)%res
             else
               (r <- replace_self_attention attn_base attn_repalce ;;
                setitem_from 1 attn_r r)%res) ;;
     out <- lift (reshape attn_w
                    ((batch_size self * h)%nat :: skipn 2 (shape attn_w))) ;;
     write_through attn out
       (AttentionStore.location_key is_cross place_in_unet) ;;;
     ret out
   else ret attn)%M.

(** [int(num_steps * x)]. *)
Definition steps_of (num_steps : Z) (x : Py.num) : result Z :=
  (p <- Py.int_mul num_steps x ;; Py.int p)%res.

(** [__init__(self, prompts, num_steps, cross_replace_steps,
    self_replace_steps, local_blend)].  [time_words_attention_alpha] is the
    tensor returned by [ptp_utils.get_time_words_attention_alpha(prompts,
    num_steps, cross_replace_steps, tokenizer)]. *)
Definition __init__ (prompts : list string) (num_steps : Z)
  (time_words_attention_alpha : tensor num)
  (self_replace_steps : self_replace_arg)
  (local_blend : option (LocalBlend_t num)) : M num unit :=
  (AttentionStore.__init__ ;;;
   modify (set_batch_size (List.length prompts)) ;;;
   modify (set_cross_replace_alpha time_words_attention_alpha) ;;;
   let self_replace_steps :=
     match self_replace_steps with
     | SingleFloat f => (Py.Int 0, Py.Float f)
     | Pair start stop => (start, stop)
     end in
   first <- lift (steps_of num_steps (fst self_replace_steps)) ;;
   last <- lift (steps_of num_steps (snd self_replace_steps)) ;;
   modify (set_num_self_replace (first, last)) ;;;
   modify (set_local_blend local_blend))%M.

End Class.

End AttentionControlEdit.

(** ** class AttentionReplace *)

Module AttentionReplace.

(** [torch.einsum('hpw,bwn->bhpn', attn_base, self.mapper)]; a contracted
    axis of length 1 is broadcast.  The products are added from the first
    token to the last. *)
Definition replace_cross_attention {num} (ar : Scalar.arithmetic num)
  (mapper : tensor num) (attn_base att_replace : tensor num)
  : result (tensor num) :=
  match shape attn_base, shape mapper with
  | [h; p; w], [b; w'; n] =>
      if (w =? w')%nat || (w =? 1)%nat || (w' =? 1)%nat
      then
        let W := if (w =? 1)%nat then w' else w in
        Ok (mk [b; h; p; n]
              (fun idx =>
                 match idx with
                 | [ib; ih; ip; jn] =>
                     Scalar.sum ar W (fun iw =>
                       Scalar.mul ar
                         (data attn_base
                            [ih; ip; if (w =? 1)%nat then 0%nat else iw])
                         (data mapper
                            [ib; if (w' =? 1)%nat then 0%nat else iw; jn]))
                 | _ => Scalar.zero ar
                 end))
      else Raise RuntimeError
  | _, _ => Raise RuntimeError
  end.

End AttentionReplace.

(** ** class AttentionRefine *)

Module AttentionRefine.

(** A Python index into an axis of length [w]. *)
Definition index_ok (w : nat) (i : Z) : bool :=
  ((- Z.of_nat w <=? i) && (i <? Z.of_nat w))%Z.

Definition wrap_index (w : nat) (i : Z) : nat :=
  if (0 <=? i)%Z then Z.to_nat i else Z.to_nat (i + Z.of_nat w).

Section Class.

Context {num : Type} (ar : Scalar.arithmetic num).

(** [t[:, :, mapper]]: the third axis is replaced by the axes of the integer
    tensor [mapper]. *)
Definition index_axis2 (t : tensor num) (mapper : tensor Z)
  : result (tensor num) :=
  match shape t with
  | d0 :: d1 :: w :: rest =>
      if forallb (fun idx => index_ok w (data mapper idx))
                 (all_indices (shape mapper))
      then
        let r := List.length (shape mapper) in
        Ok (mk (d0 :: d1 :: shape mapper ++ rest)
              (fun idx =>
                 match idx with
                 | i0 :: i1 :: idx' =>
                     data t (i0 :: i1
                             :: wrap_index w (data mapper (firstn r idx'))
                             :: skipn r idx')
                 | _ => data t idx
                 end))
      else Raise IndexError
  | _ => Raise IndexError
  end.

(** [t.permute(2, 0, 1, 3)]. *)
Definition permute_2013 (t : tensor num) : result (tensor num) :=
  match shape t with
  | [d0; d1; d2; d3] =>
      Ok (mk [d2; d0; d1; d3]
            (fun idx =>
               match idx with
               | [i2; i0; i1; i3] => data t [i0; i1; i2; i3]
               | _ => data t idx
               end))
  | _ => Raise RuntimeError
  end.

Definition replace_cross_attention (mapper : tensor Z) (alphas : tensor num)
  (attn_base att_replace : tensor num) : result (tensor num) :=
  (x <- index_axis2 attn_base mapper ;;
   attn_base_replace <- permute_2013 x ;;
   t1 <- binop (Scalar.mul ar) attn_base_replace alphas ;;
   t2 <- binop (Scalar.mul ar) att_replace
           (pointwise (fun a => Scalar.sub ar (Scalar.one ar) a) alphas) ;;
   binop (Scalar.add ar) t1 t2)%res.

(** [alphas.reshape(alphas.shape[0], 1, 1, alphas.shape[1])], the value
    stored in [self.alphas]. *)
Definition reshape_alphas (alphas : tensor num) : result (tensor num) :=
  (a0 <- shape_at alphas 0 ;;
   a1 <- shape_at alphas 1 ;;
   reshape alphas [a0; 1; 1; a1]%nat)%res.

End Class.

End AttentionRefine.

(** ** class AttentionReweight *)

Module AttentionReweight.

Section Class.

Context {num : Type} (ar : Scalar.arithmetic num).

(** [equalizer[:, None, None, :]]. *)
Definition equalizer_view (equalizer : tensor num) : result (tensor num) :=
  match shape equalizer with
  | e0 :: e1 :: rest =>
      Ok (mk (e0 :: 1 :: 1 :: e1 :: rest)%nat
            (fun idx =>
               match idx with
               | i0 :: _ :: _ :: idx' => data equalizer (i0 :: idx')
               | _ => data equalizer idx
               end))
  | _ => Raise IndexError
  end.

(** [attn_base[None, :, :, :]]. *)
Definition base_view (attn_base : tensor num) : result (tensor num) :=
  if (3 <=? List.length (shape attn_base))%nat
  then Ok (unsqueeze0 attn_base)
  else Raise IndexError.

(** [replace_cross_attention] once [self.prev_controller] has been
    consulted: [prior] is the call
    [self.prev_controller.replace_cross_attention(attn_base, att_replace)]
    when a previous controller is attached. *)
Definition replace_cross_attention (equalizer : tensor num)
  (prior : option (result (tensor num)))
  (attn_base att_replace : tensor num) : result (tensor num) :=
  (attn_base <- match prior with
                | Some r => r
                | None => Ok attn_base
                end ;;
   b <- base_view attn_base ;;
   e <- equalizer_view equalizer ;;
   binop (Scalar.mul ar) b e)%res.

End Class.

End AttentionReweight.

(** ** Method resolution *)

Section Resolution.

Context {num : Type} (ar : Scalar.arithmetic num).

(** [self.replace_cross_attention(attn_base, att_replace)] for an editing
    controller of the given class. *)
Fixpoint replace_cross_attention (self : strategy num)
  (attn_base att_replace : tensor num) : result (tensor num) :=
  match self with
  | Abstract =>
      AttentionControlEdit.replace_cross_attention attn_base att_replace
  | Replace mapper =>
      AttentionReplace.replace_cross_attention ar mapper attn_base att_replace
  | Refine mapper alphas =>
      AttentionRefine.replace_cross_attention ar mapper alphas
        attn_base att_replace
  | Reweight equalizer prev_controller =>
      AttentionReweight.replace_cross_attention ar equalizer
        (match prev_controller with
         | Some prev =>
             Some (replace_cross_attention prev attn_base att_replace)
         | None => None
         end)
        attn_base att_replace
  end.

(** [self.forward(attn, is_cross, place_in_unet)]. *)
Definition forward (attn : tensor num) (is_cross : bool)
  (place_in_unet : string)
  : M num (tensor num) :=
  fun self =>
    match cls self with
    | ClsAttentionControl =>
        AttentionControl.forward attn is_cross place_in_unet self
    | ClsEmptyControl =>
        EmptyControl.forward attn is_cross place_in_unet self
    | ClsAttentionStore =>
        AttentionStore.forward attn is_cross place_in_unet self
    | ClsAttentionControlEdit s =>
        AttentionControlEdit.forward ar (replace_cross_attention s)
          attn is_cross place_in_unet self
    end.

(** [self.between_steps()]; every invocation is counted in the ghost field. *)
Definition between_steps : M num unit :=
  fun self =>
    let self := set_between_steps_calls (S (between_steps_calls self)) self in
    match cls self with
    | ClsAttentionControl | ClsEmptyControl =>
        AttentionControl.between_steps self
    | ClsAttentionStore | ClsAttentionControlEdit _ =>
        AttentionStore.between_steps ar self
    end.

(** [self.step_callback(x_t)]. *)
Definition step_callback
  (normalized_maps : tensor num -> store num -> list nat -> result (tensor num))
  (x_t : tensor num) : M num (tensor num) :=
  fun self =>
    match cls self with
    | ClsAttentionControlEdit _ =>
        AttentionControlEdit.step_callback
          (LocalBlend.__call__ ar normalized_maps) x_t self
    | _ => AttentionControl.step_callback x_t self
    end.

(** [self.reset()]. *)
Definition reset : M num unit :=
  fun self =>
    match cls self with
    | ClsAttentionControl | ClsEmptyControl => AttentionControl.reset self
    | ClsAttentionStore | ClsAttentionControlEdit _ => AttentionStore.reset self
    end.

(** [self(attn, is_cross, place_in_unet)]. *)
Definition call (LOW_RESOURCE : bool)
  (attn : tensor num) (is_cross : bool) (place_in_unet : string)
  : M num (tensor num) :=
  AttentionControl.__call__ LOW_RESOURCE forward between_steps
    attn is_cross place_in_unet.

(** ** Construction *)

(** An object before its [__init__] has run. *)
Definition blank (c : class num) : controller num :=
  mkController c 0 0 0 [] [] 0 (mk [] (fun _ => Scalar.zero ar)) (0%Z, 0%Z)
    None 0.

(** [Class(...)]: the object, unless [__init__] raises. *)
Definition construct (c : class num) (init : M num unit)
  : result (controller num) :=
  match init (blank c) with
  | (Ok _, self) => Ok self
  | (Raise e, _) => Raise e
  end.

Definition new_EmptyControl : result (controller num) :=
  construct ClsEmptyControl AttentionControl.__init__.

Definition new_AttentionStore : result (controller num) :=
  construct ClsAttentionStore AttentionStore.__init__.

(** [AttentionReplace(prompts, num_steps, cross_replace_steps,
    self_replace_steps, local_blend)]; [replacement_mapper] is the tensor
    returned by [seq_aligner.get_replacement_mapper(prompts, tokenizer)]. *)
Definition new_AttentionReplace (prompts : list string) (num_steps : Z)
  (time_words_attention_alpha : tensor num)
  (self_replace_steps : self_replace_arg)
  (local_blend : option (LocalBlend_t num))
  (replacement_mapper : tensor num) : result (controller num) :=
  construct (ClsAttentionControlEdit (Replace replacement_mapper))
    (AttentionControlEdit.__init__ prompts num_steps time_words_attention_alpha
       self_replace_steps local_blend).

(** [AttentionRefine(...)]; [refinement_mapper] and [alphas] are the pair
    returned by [seq_aligner.get_refinement_mapper(prompts, tokenizer)]. *)
Definition new_AttentionRefine (prompts : list string) (num_steps : Z)
  (time_words_attention_alpha : tensor num)
  (self_replace_steps : self_replace_arg)
  (local_blend : option (LocalBlend_t num))
  (refinement_mapper : tensor Z) (alphas : tensor num)
  : result (controller num) :=
  (self <- construct (ClsAttentionControlEdit Abstract)
             (AttentionControlEdit.__init__ prompts num_steps
                time_words_attention_alpha self_replace_steps local_blend) ;;
   alphas <- AttentionRefine.reshape_alphas alphas ;;
   Ok (set_cls (ClsAttentionControlEdit (Refine refinement_mapper alphas))
         self))%res.

(** [AttentionReweight(..., equalizer, local_blend, controller)]; of the
    argument [controller] its class and the fields of that class are kept. *)
Definition new_AttentionReweight (prompts : list string) (num_steps : Z)
  (time_words_attention_alpha : tensor num)
  (self_replace_steps : self_replace_arg)
  (equalizer : tensor num)
  (local_blend : option (LocalBlend_t num))
  (prev_controller : option (strategy num)) : result (controller num) :=
  construct (ClsAttentionControlEdit (Reweight equalizer prev_controller))
    (AttentionControlEdit.__init__ prompts num_steps time_words_attention_alpha
       self_replace_steps local_blend).

End Resolution.

(** ** get_equalizer *)

(** The argument [word_select]: one word or a tuple of words. *)
Inductive word_select_arg : Type :=
| OneWord (w : word)
| Words (ws : list word).

Section Equalizer.

Context {num : Type} (ar : Scalar.arithmetic num).

(** The position in [inds] of the last occurrence of the column [j]. *)
Fixpoint last_position (j : nat) (inds : list nat) (k : nat) : option nat :=
  match inds with
  | [] => None
  | i :: inds' =>
      match last_position j inds' (S k) with
      | Some p => Some p
      | None => if (i =? j)%nat then Some k else None
      end
  end.

(** [t[:, inds] = v] for a matrix [t] and a list of column indices. *)
Definition setitem_columns (t : tensor num) (inds : list nat) (v : tensor num)
  : result (tensor num) :=
  match shape t with
  | [r; c] =>
      if forallb (fun i => (i <? c)%nat) inds
      then
        let sv := strip_leading_ones (shape v) in
        if expandable_to sv [r; List.length inds]
        then
          Ok (mk [r; c]
                (fun idx =>
                   match idx with
                   | [i; j] =>
                       match last_position j inds 0 with
                       | Some k =>
                           data v (repeat 0%nat
                                     (List.length (shape v) - List.length sv)
                                   ++ broadcast_index sv [i; k])
                       | None => data t idx
                       end
                   | _ => data t idx
                   end))
        else Raise RuntimeError
      else Raise IndexError
  | _ => Raise IndexError
  end.

(** [torch.tensor(values)] for a flat list of numbers. *)
Definition tensor_of_list (values : list num) : tensor num :=
  mk [List.length values]
     (fun idx => nth (hd 0%nat idx) values (Scalar.zero ar)).

(** [torch.ones(r, c)]. *)
Definition ones (r c : nat) : tensor num := mk [r; c] (fun _ => Scalar.one ar).

(** The loop of [get_equalizer]. *)
Fixpoint equalize_words (get_word_inds : string -> word -> result (list nat))
  (text : string) (word_select : list word) (values equalizer : tensor num)
  : result (tensor num) :=
  match word_select with
  | [] => Ok equalizer
  | w :: rest =>
      (inds <- get_word_inds text w ;;
       equalizer <- setitem_columns equalizer inds values ;;
       equalize_words get_word_inds text rest values equalizer)%res
  end.

(** [get_equalizer(text, word_select, values)]; [get_word_inds] is
    [ptp_utils.get_word_inds] with the tokenizer it is given. *)
Definition get_equalizer (get_word_inds : string -> word -> result (list nat))
  (text : string) (word_select : word_select_arg) (values : list num)
  : result (tensor num) :=
  let word_select :=
    match word_select with
    | OneWord w => [w]
    | Words ws => ws
    end in
  let equalizer := ones (List.length values) 77 in
  let values := tensor_of_list values in
  equalize_words get_word_inds text word_select values equalizer.

End Equalizer.

(** ** aggregate_attention *)

Section Aggregate.

Context {num : Type} (ar : Scalar.arithmetic num).

(** [item.shape[-1]]. *)
Definition last_dim (t : tensor num) : result nat :=
  match rev (shape t) with
  | d :: _ => Ok d
  | [] => Raise IndexError
  end.

(** [item.reshape(b, -1, res, res, w)]: the second axis is inferred. *)
Definition reshape_infer (t : tensor num) (b res w : nat)
  : result (tensor num) :=
  let known := (b * res * res * w)%nat in
  if (known =? 0)%nat then Raise RuntimeError
  else if (numel (shape t) mod known =? 0)%nat
       then reshape t [b; numel (shape t) / known; res; res; w]%nat
       else Raise RuntimeError.

(** The element [i :: idx] of the concatenation along the first axis. *)
Fixpoint cat_data (first : tensor num) (l : list (tensor num)) (i : nat)
  (idx : list nat) : num :=
  match l with
  | [] => data first (i :: idx)
  | t :: l' =>
      let d := hd 0%nat (shape t) in
      if (i <? d)%nat then data t (i :: idx)
      else cat_data first l' (i - d) idx
  end.

(** [torch.cat(l, dim=0)]: the list must not be empty, a tensor without
    axes cannot be concatenated and the shapes must agree after the first
    axis.  (The tensors concatenated here have four axes; the empty
    one-axis tensors that [torch.cat] skips do not occur.) *)
Definition cat0 (l : list (tensor num)) : result (tensor num) :=
  match l with
  | [] => Raise RuntimeError
  | first :: _ =>
      match shape first with
      | [] => Raise RuntimeError
      | _ :: s =>
          if forallb (fun t => match shape t with
                               | _ :: s' => shape_eqb s s'
                               | [] => false
                               end) l
          then Ok (mk (list_sum (map (fun t => hd 0%nat (shape t)) l) :: s)
                      (fun idx => match idx with
                                  | i :: idx' => cat_data first l i idx'
                                  | [] => data first []
                                  end))
          else Raise RuntimeError
      end
  end.

(** [t.sum(0)]; the terms are added from the first to the last. *)
Definition sum0 (t : tensor num) : tensor num :=
  match shape t with
  | [] => t
  | d :: s => mk s (fun idx => Scalar.sum ar d (fun i => data t (i :: idx)))
  end.

(** The body of the inner loop, over the maps of one location. *)
Fixpoint collect_items (prompts : list string) (res select : Z)
  (items : list (tensor num)) (out : list (tensor num))
  : result (list (tensor num)) :=
  match items with
  | [] => Ok out
  | item :: rest =>
      (d1 <- shape_at item 1 ;;
       out <- (if (Z.of_nat d1 =? res ^ 2)%Z
               then
                 w <- last_dim item ;;
                 r <- (if (res <? 0)%Z then Raise RuntimeError
                       else reshape_infer item (List.length prompts)
                              (Z.to_nat res) w) ;;
                 cross_maps <- getitem_int r select ;;
                 Ok (out ++ [cross_maps])
               else Ok out) ;;
       collect_items prompts res select rest out)%res
  end.

(** The outer loop, over the locations. *)
Fixpoint collect (prompts : list string) (attention_maps : store num)
  (res : Z) (from_where : list string) (is_cross : bool) (select : Z)
  (out : list (tensor num)) : result (list (tensor num)) :=
  match from_where with
  | [] => Ok out
  | location :: rest =>
      (items <- dict_get (AttentionStore.location_key is_cross location)
                  attention_maps ;;
       out <- collect_items prompts res select items out ;;
       collect prompts attention_maps res rest is_cross select out)%res
  end.

(** [aggregate_attention(attention_store, res, from_where, is_cross,
    select)]; [prompts] is the global list of prompts that the function
    reads. *)
Definition aggregate_attention (prompts : list string)
  (attention_store : controller num) (res : Z) (from_where : list string)
  (is_cross : bool) (select : Z) : result (tensor num) :=
  let attention_maps :=
    AttentionStore.get_average_attention ar attention_store in
  (out <- collect prompts attention_maps res from_where is_cross select [] ;;
   out <- cat0 out ;;
   n <- shape_at out 0 ;;
   Ok (pointwise (fun x => Scalar.div_int ar x (Z.of_nat n)) (sum0 out)))%res.

End Aggregate.

(** * Vocabulary of the properties *)

(** What a client does with a controller: an interception, the step
    callback, a reset, and the assignment of [num_att_layers] made when the
    controller is registered with the network. *)
Inductive operation (num : Type) : Type :=
| Intercept (attn : tensor num) (is_cross : bool) (place_in_unet : string)
| StepCallback (x_t : tensor num)
| Reset
| SetNumAttLayers (n : Z).

Arguments Intercept {num} attn is_cross place_in_unet.
Arguments StepCallback {num} x_t.
Arguments Reset {num}.
Arguments SetNumAttLayers {num} n.

(** One interception of a step: the tensor, the flag and the stage. *)
Definition layer (num : Type) : Type := (tensor num * bool * string)%type.

(** The window [(start, stop)] that [__init__] reads from its argument. *)
Definition window_of (self_replace_steps : self_replace_arg)
  : Py.num * Py.num :=
  match self_replace_steps with
  | SingleFloat f => (Py.Int 0, Py.Float f)
  | Pair start stop => (start, stop)
  end.

(** [math.floor(num_steps * x)]. *)
Definition floor_of_steps (num_steps : Z) (x : Py.num) : result Z :=
  (p <- Py.int_mul num_steps x ;; Py.floor p)%res.

Section Vocabulary.

Context {num : Type} (ar : Scalar.arithmetic num).

(** Everything of a controller but its two stores. *)
Definition frame (c : controller num) :=
  (cls c, cur_step c, num_att_layers c, cur_att_layer c, batch_size c,
   cross_replace_alpha c, num_self_replace c, local_blend c,
   between_steps_calls c).

Definition only_stores {A} (m : M num A) : Prop :=
  forall self, frame (snd (m self)) = frame self.

Definition preserves {A} (P : controller num -> Prop) (m : M num A) : Prop :=
  forall self, P self -> P (snd (m self)).

(** The first part of [__call__]: the per-layer transform on the whole
    tensor, on its second half, or not at all. *)
Definition transform_phase (LOW_RESOURCE : bool)
  (fwd : tensor num -> bool -> string -> M num (tensor num))
  (attn : tensor num) (is_cross : bool) (place : string) : M num (tensor num) :=
  fun self =>
    (if (AttentionControl.num_uncond_att_layers LOW_RESOURCE self
         <=? cur_att_layer self)%Z
     then
       if LOW_RESOURCE
       then fwd attn is_cross place
       else
         (h <- lift (shape_at attn 0) ;;
          half <- lift (slice_from (h / 2) attn) ;;
          v <- fwd half is_cross place ;;
          lift (setitem_from (h / 2) attn v))%M
     else ret attn) self.

(** The tensor surgery of [AttentionControlEdit.forward], between the
    recording of the input and the write to the recorded tensor. *)
Definition edited_attention
  (rca : tensor num -> tensor num -> result (tensor num))
  (self : controller num) (attn : tensor num) (is_cross : bool)
  : result (tensor num) :=
  (n <- shape_at attn 0 ;;
   _ <- (if (batch_size self =? 0)%nat
         then Raise ZeroDivisionError else Ok tt) ;;
   let h := (n / batch_size self)%nat in
   attn_r <- reshape attn (batch_size self :: h :: tl (shape attn)) ;;
   attn_base <- getitem attn_r 0 ;;
   attn_repalce <- slice_from 1 attn_r ;;
   attn_w <-
     (if is_cross
      then
        (alpha_words <- getitem_int (cross_replace_alpha self)
                          (cur_step self) ;;
         r <- rca attn_base attn_repalce ;;
         t1 <- binop (Scalar.mul ar) r alpha_words ;;
         t2 <- binop (Scalar.mul ar)
                 (pointwise (fun a => Scalar.sub ar (Scalar.one ar) a)
                    alpha_words)
                 attn_repalce ;;
         attn_repalce_new <- binop (Scalar.add ar) t1 t2 ;;
         setitem_from 1 attn_r attn_repalce_new)
      else
        (r <- AttentionControlEdit.replace_self_attention attn_base
                attn_repalce ;;
         setitem_from 1 attn_r r)) ;;
   reshape attn_w ((batch_size self * h)%nat :: skipn 2 (shape attn_w)))%res.

Definition in_self_window (self : controller num) : bool :=
  ((fst (num_self_replace self) <=? cur_step self)%Z
   && (cur_step self <? snd (num_self_replace self))%Z).

(** The thresholded mask of a sample at a spatial position. *)
Definition above_threshold (lb : LocalBlend_t num) (m : tensor num)
  (b y x : nat) : bool :=
  Scalar.gt ar (data m [b; 0; y; x]%nat) (threshold lb).

Definition perform (LOW_RESOURCE : bool)
  (normalized_maps : tensor num -> store num -> list nat -> result (tensor num))
  (o : operation num) (self : controller num) : controller num :=
  match o with
  | Intercept attn is_cross place =>
      snd (call ar LOW_RESOURCE attn is_cross place self)
  | StepCallback x_t => snd (step_callback ar normalized_maps x_t self)
  | Reset => snd (reset self)
  | SetNumAttLayers n => set_num_att_layers n self
  end.

Definition run (LOW_RESOURCE : bool)
  (normalized_maps : tensor num -> store num -> list nat -> result (tensor num))
  (ops : list (operation num)) (self : controller num) : controller num :=
  fold_left (fun c o => perform LOW_RESOURCE normalized_maps o c) ops self.

(** The stores and counters as [__init__] and [reset] of the storing
    classes leave them. *)
Definition initialized (self : controller num) : Prop :=
  step_store self = AttentionStore.get_empty_store
  /\ attention_store self = []
  /\ cur_step self = 0%Z.

(** The axis that [AttentionStore.forward] checks is at most [32 ** 2]. *)
Definition is_small (t : tensor num) : bool :=
  match nth_error (shape t) 1 with
  | Some d => (d <=? 32 ^ 2)%nat
  | None => false
  end.

Definition all_small (st : store num) : Prop :=
  Forall (fun kv => Forall (fun t => is_small t = true) (snd kv)) st.

Definition stores_small (self : controller num) : Prop :=
  all_small (step_store self) /\ all_small (attention_store self).

(** The cumulative store is filled only on step boundaries, by the classes
    that have one. *)
Definition filled_after_a_step (self : controller num) : Prop :=
  (0 <= cur_step self)%Z
  /\ (attention_store self <> [] ->
      (1 <= cur_step self)%Z
      /\ (cls self <> ClsAttentionControl /\ cls self <> ClsEmptyControl)).

Definition intercept (l : layer num) : operation num :=
  Intercept (fst (fst l)) (snd (fst l)) (snd l).

Definition layer_key (l : layer num) : string :=
  AttentionStore.location_key (snd (fst l)) (snd l).

(** The part of the tensor that standard mode hands to [forward]:
    [attn[h // 2:]]. *)
Definition second_half (attn : tensor num) : tensor num :=
  match slice_from (hd 0%nat (shape attn) / 2) attn with
  | Ok half => half
  | Raise _ => attn
  end.

(** The tensors recorded at a key during one step, in call order: the
    second halves of the maps sent to that location that fit the bound. *)
Definition recorded_at (key : string) (layers : list (layer num))
  : list (tensor num) :=
  map (fun l => second_half (fst (fst l)))
      (filter (fun l => String.eqb (layer_key l) key
                        && is_small (second_half (fst (fst l)))) layers).

(** A layer call the network can make: a map with a batch and a query
    axis, at one of the three stages. *)
Definition layer_ok (l : layer num) : Prop :=
  (2 <= List.length (shape (fst (fst l))))%nat
  /\ In (snd l) ["down"; "mid"; "up"]%string.

(** The per-step buffer after the calls of [layers]. *)
Definition record_layer (st : store num) (l : layer num) : store num :=
  if is_small (second_half (fst (fst l)))
  then match dict_get (layer_key l) st with
       | Ok recorded =>
           dict_set (layer_key l) (recorded ++ [second_half (fst (fst l))]) st
       | Raise _ => st
       end
  else st.

(** [sum over iw of r[iw] * m[iw]], the contraction of the einsum. *)
Definition contraction (w : nat) (r m : nat -> num) : num :=
  Scalar.sum ar w (fun iw => Scalar.mul ar (r iw) (m iw)).

(** [e' * a + (1 - a) * e], the blend of [AttentionControlEdit.forward]. *)
Definition blend (a e' e : num) : num :=
  Scalar.add ar (Scalar.mul ar e' a)
    (Scalar.mul ar (Scalar.sub ar (Scalar.one ar) a) e).

(** [x + x + ... + x] with [n] terms, as [n - 1] in-place additions to a
    first [x] build it. *)
Fixpoint running_sum (n : nat) (x : num) : num :=
  match n with
  | O => Scalar.zero ar
  | S k =>
      match k with
      | O => x
      | S _ => Scalar.add ar (running_sum k x) x
      end
  end.

(** [a] holds the running sum of [n] copies of [t]. *)
Definition holds_multiple (n : nat) (a t : tensor num) : Prop :=
  shape a = shape t
  /\ forall idx, in_bounds (shape t) idx = true ->
                 data a idx = running_sum n (data t idx).

(** Every entry of the store [A] holds the running sum of [n] copies of
    the entry of [R] at the same key and position. *)
Definition store_multiple (n : nat) (A R : store num) : Prop :=
  Forall2 (fun kv kv' =>
             fst kv = fst kv'
             /\ Forall2 (holds_multiple n) (snd kv) (snd kv')) A R.

(** The state of a storing controller between two steps, after [n]
    completed steps that each recorded the buffer [R]. *)
Definition between_two_steps (layers : list (layer num)) (n : nat)
  (self : controller num) : Prop :=
  let R := fold_left record_layer layers AttentionStore.get_empty_store in
  cls self = ClsAttentionStore
  /\ cur_att_layer self = 0%Z
  /\ num_att_layers self = Z.of_nat (List.length layers)
  /\ step_store self = AttentionStore.get_empty_store
  /\ cur_step self = Z.of_nat n
  /\ match n with
     | O => attention_store self = []
     | S _ => store_multiple n (attention_store self) R
     end.

(** The mean of the running sum of [n] copies of [t], as the average
    accessor computes it after [n] steps. *)
Definition mean_of_running_sum (n : nat) (a t : tensor num) : Prop :=
  shape a = shape t
  /\ forall idx, in_bounds (shape t) idx = true ->
                 data a idx
                 = Scalar.div_int ar (running_sum n (data t idx)) (Z.of_nat n).

End Vocabulary.

(** ** Sessions *)

Section Sessions.

Context {num : Type}.

(** The fields that the constructors set. *)
Definition configuration (c : controller num) :=
  (cls c, batch_size c, cross_replace_alpha c, num_self_replace c,
   local_blend c).

(** The value of [num_att_layers] after the registrations of [ops]. *)
Definition last_registration (ops : list (operation num)) (n : Z) : Z :=
  fold_left (fun n o => match o with
                        | SetNumAttLayers n' => n'
                        | _ => n
                        end) ops n.

(** The operations of the network and of the sampling loop. *)
Definition from_network (o : operation num) : bool :=
  match o with
  | Intercept _ _ _ | StepCallback _ => true
  | _ => false
  end.

Definition is_registration (o : operation num) : bool :=
  match o with
  | SetNumAttLayers _ => true
  | _ => false
  end.

(** The number of calls of [__call__] that make one step. *)
Definition calls_per_step (LOW_RESOURCE : bool) (self : controller num) : Z :=
  (num_att_layers self
   + AttentionControl.num_uncond_att_layers LOW_RESOURCE self)%Z.

(** The classes with a step store: AttentionStore and the editing classes. *)
Definition is_storing (c : class num) : bool :=
  match c with
  | ClsAttentionStore | ClsAttentionControlEdit _ => true
  | _ => false
  end.

End Sessions.

(** ** The cumulative store *)

Section Accumulation.

Context {num : Type} (ar : Scalar.arithmetic num).

(** The six location keys are those of the step store. *)
Definition has_locations (self : controller num) : Prop :=
  dict_keys (step_store self)
  = dict_keys (AttentionStore.get_empty_store (num:=num)).

(** [a += s] for two tensors: the content of [a] afterwards. *)
Definition add_into (a s : tensor num) : tensor num :=
  mk (shape a)
     (fun idx =>
        Scalar.add ar (data a idx) (data s (broadcast_index (shape s) idx))).

(** The lists of one key, position by position; what the step recorded
    beyond the length of the cumulative list is not read. *)
Fixpoint add_lists (acc stp : list (tensor num)) : list (tensor num) :=
  match acc, stp with
  | a :: acc', s :: stp' => add_into a s :: add_lists acc' stp'
  | _, _ => acc
  end.

(** Every cumulative map has a map of the step at its position, of a shape
    that expands to its own. *)
Fixpoint addable (acc stp : list (tensor num)) : bool :=
  match acc, stp with
  | [], _ => true
  | a :: acc', s :: stp' =>
      expandable_to (shape s) (shape a) && addable acc' stp'
  | _ :: _, [] => false
  end.

(** The cumulative list of a key after the additions of a step. *)
Definition accumulated_at (S : store num) (key : string)
  (acc : list (tensor num)) : list (tensor num) :=
  match dict_get key S with
  | Ok stp => add_lists acc stp
  | Raise _ => acc
  end.

Definition accumulated (A S : store num) : store num :=
  map (fun kv => (fst kv, accumulated_at S (fst kv) (snd kv))) A.

(** The additions at a key go through; the step store is not read for a
    key whose cumulative list is empty. *)
Definition addable_at (S : store num) (key : string)
  (acc : list (tensor num)) : bool :=
  match acc with
  | [] => true
  | _ :: _ =>
      match dict_get key S with
      | Ok stp => addable acc stp
      | Raise _ => false
      end
  end.

Definition can_accumulate (A S : store num) : bool :=
  forallb (fun kv => addable_at S (fst kv) (snd kv)) A.

(** The keys of a store with the shapes of the maps at each key. *)
Definition layout (A : store num) : list (string * list (list nat)) :=
  map (fun kv => (fst kv, map (@shape num) (snd kv))) A.

Definition is_reset (o : operation num) : bool :=
  match o with
  | Reset => true
  | _ => false
  end.

End Accumulation.

(** ** The tokens of a local blend *)

Section BlendTokens.

Context {num : Type}.

(** The token position [j] belongs to one of the words [ws] of [prompt]. *)
Definition word_marks (get_word_inds : string -> word -> result (list nat))
  (prompt : string) (ws : list word) (j : nat) : bool :=
  existsb (fun w => match get_word_inds prompt w with
                    | Ok ind => existsb (Nat.eqb j) ind
                    | Raise _ => false
                    end) ws.

(** The token position [j] belongs to a word given for the prompt [i]. *)
Definition marked (get_word_inds : string -> word -> result (list nat))
  (prompts : list string) (words : list blend_words) (i j : nat) : bool :=
  match nth_error (combine prompts words) i with
  | Some (prompt, words_) =>
      word_marks get_word_inds prompt (LocalBlend.words_of words_) j
  | None => false
  end.

(** The lookup of a word returns positions, at least one, below the
    number of tokens. *)
Definition found (get_word_inds : string -> word -> result (list nat))
  (prompt : string) (w : word) : Prop :=
  exists ind, get_word_inds prompt w = Ok ind
              /\ ind <> []
              /\ Forall (fun j => (j < MAX_NUM_WORDS)%nat) ind.

(** The cumulative store is empty or has the six location keys. *)
Definition empty_or_filled (self : controller num) : Prop :=
  attention_store self = []
  \/ dict_keys (attention_store self)
     = dict_keys (AttentionStore.get_empty_store (num:=num)).

End BlendTokens.

(** ** The aggregated maps *)

Section Aggregated.

Context {num : Type} (ar : Scalar.arithmetic num).

(** The second axis of a map has [res * res] positions. *)
Definition at_resolution (res : nat) (item : tensor num) : bool :=
  match nth_error (shape item) 1 with
  | Some d => (d =? res * res)%nat
  | None => false
  end.

(** The averages at a position and a token over the heads of the prompt
    [select] in a cumulative map of [B] prompts. *)
Definition head_values (B select : nat) (cur_step : Z) (position token : nat)
  (item : tensor num) : list num :=
  let h := (hd 0%nat (shape item) / B)%nat in
  map (fun i =>
         Scalar.div_int ar
           (data item [(select * h + i)%nat; position; token]) cur_step)
      (seq 0 h).

(** An attention map of [B] prompts: heads times prompts, positions and
    tokens, with [w] tokens when it has [res * res] positions. *)
Definition head_map (B res w : nat) (item : tensor num) : Prop :=
  exists h q w',
    shape item = [(B * h)%nat; q; w'] /\ (q = (res * res)%nat -> w' = w).

(** The sum of a list, from its first element to its last. *)
Definition sum_list (l : list num) : num :=
  fold_left (Scalar.add ar) l (Scalar.zero ar).

(** What the loops collect comes from a map of the requested resolution. *)
Definition collectable (prompts : list string) (res select : Z)
  (item : tensor num) : Prop :=
  exists d, shape_at item 1 = Ok d
            /\ Z.of_nat d = (res ^ 2)%Z
            /\ (0 <= res)%Z
            /\ (- Z.of_nat (List.length prompts) <= select
                < Z.of_nat (List.length prompts))%Z.

(** [c] holds the averages of the heads of the prompt [select] in the
    cumulative map [item], the positions laid out on the [res] by [res]
    grid. *)
Definition selects (B res w select : nat) (cur_step : Z)
  (c item : tensor num) : Prop :=
  let h := (hd 0%nat (shape item) / B)%nat in
  shape c = [h; res; res; w]
  /\ forall i y x t,
       (i < h)%nat -> (y < res)%nat -> (x < res)%nat -> (t < w)%nat ->
       data c [i; y; x; t]
       = Scalar.div_int ar
           (data item [(select * h + i)%nat; (y * res + x)%nat; t]) cur_step.

End Aggregated.

(** * The stored tensors as objects

    [AttentionStore] keeps the tensors it is given and not copies of them:
    [forward] appends its argument, which in standard mode is the view
    [attn[h // 2:]] of the tensor of the caller, the first step boundary
    makes the store of the step the cumulative store, and [+=] adds in
    place, into the memory of the tensor of the caller.  The embedding
    above passes tensors by value: it describes the calls whose tensor
    shares no memory with a tensor that a store holds.  This part models
    the memory, for the properties that depend on which tensor objects the
    caller sends.

    A tensor of the caller is a block of the memory, and two tensors of the
    caller are one block or share no memory.  The object that [__call__]
    hands to [forward] is the tensor itself in low-resource mode and the
    view of its second half in standard mode; for a given mode the object
    is known by its block, and the stores hold blocks. *)

Module Objects.

Record state (num : Type) : Type := mkState {
  memory : nat -> tensor num;          (* the tensor in each block *)
  blocks : nat;                        (* the number of blocks in use *)
  cur_step : Z;
  num_att_layers : Z;
  cur_att_layer : Z;
  step_store : dict (list nat);
  attention_store : dict (list nat)
}.

Arguments mkState {num}.
Arguments memory {num}.
Arguments blocks {num}.
Arguments cur_step {num}.
Arguments num_att_layers {num}.
Arguments cur_att_layer {num}.
Arguments step_store {num}.
Arguments attention_store {num}.

Section Fields.

Context {num : Type}.

Definition set_memory (v : nat -> tensor num) (self : state num) : state num :=
  mkState v (blocks self) (cur_step self) (num_att_layers self)
    (cur_att_layer self) (step_store self) (attention_store self).

Definition set_blocks (v : nat) (self : state num) : state num :=
  mkState (memory self) v (cur_step self) (num_att_layers self)
    (cur_att_layer self) (step_store self) (attention_store self).

Definition set_cur_step (v : Z) (self : state num) : state num :=
  mkState (memory self) (blocks self) v (num_att_layers self)
    (cur_att_layer self) (step_store self) (attention_store self).

Definition set_num_att_layers (v : Z) (self : state num) : state num :=
  mkState (memory self) (blocks self) (cur_step self) v
    (cur_att_layer self) (step_store self) (attention_store self).

Definition set_cur_att_layer (v : Z) (self : state num) : state num :=
  mkState (memory self) (blocks self) (cur_step self) (num_att_layers self)
    v (step_store self) (attention_store self).

Definition set_step_store (v : dict (list nat)) (self : state num)
  : state num :=
  mkState (memory self) (blocks self) (cur_step self) (num_att_layers self)
    (cur_att_layer self) v (attention_store self).

Definition set_attention_store (v : dict (list nat)) (self : state num)
  : state num :=
  mkState (memory self) (blocks self) (cur_step self) (num_att_layers self)
    (cur_att_layer self) (step_store self) v.

End Fields.

(** A method of the storing controller: it reads and writes the fields of
    [self] and the memory, and returns a value or raises. *)
Definition M (num A : Type) : Type := state num -> result A * state num.

Section Methods.

Context {num : Type}.

Definition ret {A} (a : A) : M num A := fun self => (Ok a, self).

Definition bind {A B} (m : M num A) (k : A -> M num B) : M num B :=
  fun self =>
    match m self with
    | (Ok a, self') => k a self'
    | (Raise e, self') => (Raise e, self')
    end.

Definition lift {A} (r : result A) : M num A := fun self => (r, self).

Definition gets {A} (f : state num -> A) : M num A :=
  fun self => (Ok (f self), self).

Definition modify (f : state num -> state num) : M num unit :=
  fun self => (Ok tt, f self).

Fixpoint for_each {A} (l : list A) (body : A -> M num unit) : M num unit :=
  match l with
  | [] => ret tt
  | x :: l' => bind (body x) (fun _ => for_each l' body)
  end.

End Methods.

Declare Scope object_scope.
Delimit Scope object_scope with O.
Notation "x <- e ;; k" := (bind e (fun x => k))
  (at level 61, e at next level, right associativity) : object_scope.
Notation "e ;;; k" := (bind e (fun _ => k))
  (at level 61, right associativity) : object_scope.

Section Class.

Context {num : Type} (ar : Scalar.arithmetic num).

(** The elements that the object of the block [t] views. *)
Definition viewed (LOW_RESOURCE : bool) (t : tensor num) : tensor num :=
  if LOW_RESOURCE then t else second_half t.

(** The block [t] after [v] was written over the elements that its object
    views. *)
Definition overwritten (LOW_RESOURCE : bool) (t v : tensor num)
  : tensor num :=
  if LOW_RESOURCE then v
  else match setitem_from (hd 0%nat (shape t) / 2) t v with
       | Ok t' => t'
       | Raise _ => t
       end.

Definition update (m : nat -> tensor num) (block : nat) (t : tensor num)
  : nat -> tensor num :=
  fun b => if (b =? block)%nat then t else m b.

Definition get_empty_store : dict (list nat) :=
  [ ("down_cross", []); ("mid_cross", []); ("up_cross", []);
    ("down_self", []); ("mid_self", []); ("up_self", []) ]%string.

Definition num_uncond_att_layers (LOW_RESOURCE : bool) (self : state num)
  : Z :=
  if LOW_RESOURCE then num_att_layers self else 0%Z.

(** [AttentionStore.forward]: the object itself is appended and
    returned. *)
Definition forward (LOW_RESOURCE : bool) (attn : nat) (is_cross : bool)
  (place_in_unet : string) : M num nat :=
  (let key := AttentionStore.location_key is_cross place_in_unet in
   self <- gets id ;;
   d1 <- lift (shape_at (viewed LOW_RESOURCE (memory self attn)) 1) ;;
   (if (d1 <=? 32 ^ 2)%nat
    then (* self.step_store[key].append(attn) *)
      self <- gets id ;;
      l <- lift (dict_get key (step_store self)) ;;
      modify (set_step_store (dict_set key (l ++ [attn]) (step_store self)))
    else ret tt) ;;;
   ret attn)%O.

(** The body of the inner loop:
    [self.attention_store[key][i] += self.step_store[key][i]].  The sum is
    written into the memory of the object on the left, which stays the
    entry of the store. *)
Definition accumulate (LOW_RESOURCE : bool) (key : string) (i : nat)
  : M num unit :=
  (self <- gets id ;;
   acc <- lift (dict_get key (attention_store self)) ;;
   a <- lift (list_get acc i) ;;
   stp <- lift (dict_get key (step_store self)) ;;
   s <- lift (list_get stp i) ;;
   sum <- lift (inplace (Scalar.add ar)
                  (viewed LOW_RESOURCE (memory self a))
                  (viewed LOW_RESOURCE (memory self s))) ;;
   modify (set_memory
             (update (memory self) a
                (overwritten LOW_RESOURCE (memory self a) sum))))%O.

(** [AttentionStore.between_steps]: the first boundary makes the objects
    of the step the objects of the cumulative store. *)
Definition between_steps (LOW_RESOURCE : bool) : M num unit :=
  (self <- gets id ;;
   (if (List.length (attention_store self) =? 0)%nat
    then modify (set_attention_store (step_store self))
    else
      for_each (dict_keys (attention_store self)) (fun key =>
        acc <- gets (fun self => dict_get key (attention_store self)) ;;
        acc <- lift acc ;;
        for_each (seq 0 (List.length acc))
          (fun i => accumulate LOW_RESOURCE key i))) ;;;
   modify (set_step_store get_empty_store))%O.

(** [AttentionStore.get_average_attention]: new tensors, computed from the
    elements that the stored objects view. *)
Definition get_average_attention (LOW_RESOURCE : bool) (self : state num)
  : store num :=
  map (fun kv =>
         (fst kv,
          map (fun item =>
                 pointwise (fun x => Scalar.div_int ar x (cur_step self))
                   (viewed LOW_RESOURCE (memory self item)))
              (snd kv)))
      (attention_store self).

(** [AttentionControl.__call__] on the tensor of the block [attn], with
    the methods of [AttentionStore].  [forward] returns its argument, so
    the assignment [attn[h // 2:] = ...] of standard mode copies the view
    onto itself and changes nothing. *)
Definition __call__ (LOW_RESOURCE : bool) (attn : nat) (is_cross : bool)
  (place_in_unet : string) : M num nat :=
  (cur <- gets cur_att_layer ;;
   uncond <- gets (num_uncond_att_layers LOW_RESOURCE) ;;
   (if (uncond <=? cur)%Z
    then
      if LOW_RESOURCE
      then
        _ <- forward LOW_RESOURCE attn is_cross place_in_unet ;;
        ret tt
      else
        self <- gets id ;;
        h <- lift (shape_at (memory self attn) 0) ;;
        _ <- forward LOW_RESOURCE attn is_cross place_in_unet ;;
        ret tt
    else ret tt) ;;;
   modify (fun self => set_cur_att_layer (cur_att_layer self + 1) self) ;;;
   cur <- gets cur_att_layer ;;
   n <- gets num_att_layers ;;
   uncond <- gets (num_uncond_att_layers LOW_RESOURCE) ;;
   (if (cur =? n + uncond)%Z
    then
      modify (set_cur_att_layer 0) ;;;
      modify (fun self => set_cur_step (cur_step self + 1) self) ;;;
      between_steps LOW_RESOURCE
    else ret tt) ;;;
   ret attn)%O.

(** [AttentionStore()], in a memory without tensors. *)
Definition created : state num :=
  mkState (fun _ => mk [] (fun _ => Scalar.zero ar)) 0 0 (-1) 0
    get_empty_store [].

(** The tensor of an interception: a tensor that the caller has created in
    a block of its own, or the tensor of a block once more. *)
Inductive argument : Type :=
| New (attn : tensor num)
| Again (block : nat).

(** The caller creates the tensor [attn]. *)
Definition allocate (attn : tensor num) : M num nat :=
  fun self =>
    (Ok (blocks self),
     set_blocks (S (blocks self))
       (set_memory (update (memory self) (blocks self) attn) self)).

(** One layer call of the network. *)
Definition intercept (LOW_RESOURCE : bool)
  (c : argument * bool * string) : M num nat :=
  match fst (fst c) with
  | New attn =>
      (block <- allocate attn ;;
       __call__ LOW_RESOURCE block (snd (fst c)) (snd c))%O
  | Again block => __call__ LOW_RESOURCE block (snd (fst c)) (snd c)
  end.

Definition run (LOW_RESOURCE : bool) (calls : list (argument * bool * string))
  (self : state num) : state num :=
  fold_left (fun self c => snd (intercept LOW_RESOURCE c self)) calls self.

(** The call of a layer with a tensor of its own. *)
Definition fresh (l : layer num) : argument * bool * string :=
  (New (fst (fst l)), snd (fst l), snd l).

(** A storing controller registered with a network of [n] layers. *)
Definition registered (n : Z) : state num := set_num_att_layers n created.

(** The block [b] views the running sum of [n] copies of [t]. *)
Definition holds (n : nat) (m : nat -> tensor num) (b : nat)
  (t : tensor num) : Prop :=
  shape t <> [] /\ holds_multiple ar n (viewed false (m b)) t.

(** The objects [ids] of a store are related to the tensors [R], key by
    key and position by position. *)
Definition related (P : nat -> tensor num -> Prop) (ids : dict (list nat))
  (R : store num) : Prop :=
  Forall2 (fun kv kv' =>
             fst kv = fst kv' /\ Forall2 P (snd kv) (snd kv')) ids R.

(** The blocks of the objects of a store. *)
Definition blocks_of (ids : dict (list nat)) : list nat :=
  concat (map snd ids).



(** The state of the storing controller between two steps, after [n]
    completed steps that each sent the maps of [layers] in tensors of
    their own. *)
Definition between_two_steps (layers : list (layer num)) (n : nat)
  (self : state num) : Prop :=
  let R := fold_left record_layer layers AttentionStore.get_empty_store in
  cur_att_layer self = 0%Z
  /\ num_att_layers self = Z.of_nat (List.length layers)
  /\ step_store self = get_empty_store
  /\ cur_step self = Z.of_nat n
  /\ match n with
     | O => attention_store self = []
     | S _ =>
         related (holds n (memory self)) (attention_store self) R
         /\ NoDup (blocks_of (attention_store self))
         /\ Forall (fun b => (b < blocks self)%nat)
              (blocks_of (attention_store self))
     end.

End Class.

End Objects.

(** ** Single precision *)

(** The floats that an attention probability can be: zero or a positive
    finite number of the format. *)
Definition regular (x : spec_float) : bool :=
  match x with
  | S754_zero s => negb s
  | S754_finite s m e => negb s && bounded 24 128 m e
  | _ => false
  end.

(** The floats that are numbers: neither an infinity nor a NaN. *)
Definition is_number (x : spec_float) : bool :=
  match x with
  | S754_zero _ | S754_finite _ _ _ => true
  | _ => false
  end.

Definition is_nonzero_number (x : spec_float) : bool :=
  match x with
  | S754_finite _ _ _ => true
  | _ => false
  end.

(** [2.0]. *)
Definition two : spec_float := S754_finite false 8388608 (-22).

(** Twice a float: the exponent is one higher (the infinity past the
    largest exponent) or, below the normal range, the mantissa is doubled. *)
Definition SFdouble (x : spec_float) : spec_float :=
  match x with
  | S754_finite s m e =>
      if (Z.pos (digits2_pos m) =? 24)%Z
      then if (e + 1 <=? 128 - 24)%Z then S754_finite s m (e + 1)
           else S754_infinity s
      else S754_finite s (m~0) e
  | _ => x
  end.

(** ** Exact arithmetic *)


(** ** Concrete inputs *)

Module Examples.

(** [torch.full(s, x)]. *)
Definition constant {num : Type} (s : list nat) (x : num) : tensor num :=
  mk s (fun _ => x).

(** The single-precision and double-precision floats nearest to [n / d]. *)
Definition f32 (n d : Z) : spec_float :=
  SFdiv 24 128 (binary_normalize 24 128 n 0 false)
    (binary_normalize 24 128 d 0 false).

Definition f64 (n d : Z) : spec_float :=
  SFdiv 53 1024 (binary_normalize 53 1024 n 0 false)
    (binary_normalize 53 1024 d 0 false).

(** The elements at [idx] of the tensors of a list. *)
Definition read {num : Type} (idx : list nat) (l : list (tensor num))
  : list num :=
  map (fun t => data t idx) l.

(** The object of a constructor call that returns. *)
Definition object {num : Type} (ar : Scalar.arithmetic num)
  (r : result (controller num)) : controller num :=
  match r with
  | Ok self => self
  | Raise _ => blank ar ClsAttentionControl
  end.

Definition prompts : list string :=
  ["a photo of a cat"; "a photo of a dog"]%string.

(** A pipeline of the local blend that finds every position relevant. *)
Definition full_mask {num : Type} (ar : Scalar.arithmetic num)
  : tensor num -> store num -> list nat -> result (tensor num) :=
  fun _ _ size => Ok (constant (2 :: 1 :: size)%nat (Scalar.one ar)).

(** One cross-attention layer of the first stage, sending the value [x]
    for both halves of the batch. *)
Definition one_layer {num : Type} (x : num) : list (layer num) :=
  [(constant [2; 1; 1]%nat x, true, "down"%string)].

(** A storing controller registered with a network of one layer, after
    [steps] steps that each send [x]. *)
Definition stored {num : Type} (ar : Scalar.arithmetic num) (x : num)
  (steps : nat) : controller num :=
  run ar false (full_mask ar)
    (concat (repeat (map intercept (one_layer x)) steps))
    (set_num_att_layers 1 (object ar (new_AttentionStore ar))).

(** The averages that the accessor returns at a key, read at [idx]. *)
Definition averages {num : Type} (ar : Scalar.arithmetic num) (key : string)
  (idx : list nat) (self : controller num) : result (list num) :=
  (average <- dict_get key (AttentionStore.get_average_attention ar self) ;;
   Ok (read idx average))%res.

(** A session with a storing controller: registration with a network of
    two layers, a map too large to be kept, a small one, the callback of
    the step and a second step that is left unfinished. *)
Definition session {num : Type} (x : num) : list (operation num) :=
  [SetNumAttLayers 2;
   Intercept (constant [2; 4096; 77]%nat x) true "up";
   Intercept (constant [2; 64; 77]%nat x) true "mid";
   StepCallback (constant [2; 4; 8; 8]%nat x);
   Intercept (constant [2; 64; 64]%nat x) false "down"].

(** The identity matrix of one edited prompt over [w] tokens. *)
Definition identity_mapper {num : Type} (ar : Scalar.arithmetic num) (w : nat)
  : tensor num :=
  mk [1; w; w]%nat
     (fun idx =>
        match idx with
        | [_; i; j] => if (i =? j)%nat then Scalar.one ar else Scalar.zero ar
        | _ => Scalar.zero ar
        end).

(** A Replace controller for two prompts and ten steps, with the window
    [(0, 0.4)] of self-attention replacement, every token active at every
    step, and optionally a local blend. *)
Definition replacing {num : Type} (ar : Scalar.arithmetic num) (w : nat)
  (blend : option (LocalBlend_t num)) : controller num :=
  object ar
    (new_AttentionReplace ar prompts 10
       (constant [11; 1; 1; 1; w]%nat (Scalar.one ar))
       (SingleFloat (f64 4 10)) blend (identity_mapper ar w)).

(** Local blends of threshold [0.3]. *)
Definition blend32 : LocalBlend_t spec_float :=
  mkLocalBlend (constant [2; 1; 1; 1; 77]%nat (SFone 24 128)) (f32 3 10).

Definition blendQ : LocalBlend_t Q :=
  mkLocalBlend (constant [2; 1; 1; 1; 77]%nat 1) (3 # 10).

(** A reference latent [x0] and an edited latent [x], one element each. *)
Definition latents {num : Type} (x0 x : num) : tensor num :=
  mk [2; 1; 1; 1]%nat
     (fun idx => match idx with
                 | O :: _ => x0
                 | _ => x
                 end).

(** The latent that the step callback returns, read at [idx]. *)
Definition composited {num : Type} (ar : Scalar.arithmetic num)
  (x_t : tensor num) (idx : list nat) (self : controller num)
  : result num :=
  (x_t <- fst (step_callback ar (full_mask ar) x_t self) ;;
   Ok (data x_t idx))%res.

(** A cross-attention map of two prompts, one head, one query position
    and two tokens. *)
Definition attention : tensor Q :=
  mk [2; 1; 2]%nat
     (fun idx =>
        match idx with
        | [i; _; k] => inject_Z (Z.of_nat (1 + i + 2 * k)) / 10
        | _ => 0
        end).

(** A tokenizer that places every word at the positions 2 and 3. *)
Definition word_at_2_3 : string -> word -> result (list nat) :=
  fun _ _ => Ok [2; 3]%nat.

(** The value of a call that returns. *)
Definition returned {A : Type} (default : A) (r : result A) : A :=
  match r with
  | Ok a => a
  | Raise _ => default
  end.

(** An interception in standard mode by a controller that edits nothing. *)
Definition intercepted {num : Type} (ar : Scalar.arithmetic num)
  (attn : tensor num) : result (tensor num) * controller num :=
  AttentionControl.__call__ false EmptyControl.forward
    AttentionControl.between_steps attn true "down"
    (object ar (new_EmptyControl ar)).

(** A storing controller as constructed, and registered with a network of
    [n] layers. *)
Definition unregistered {num : Type} (ar : Scalar.arithmetic num)
  : controller num :=
  object ar (new_AttentionStore ar).

Definition registered {num : Type} (ar : Scalar.arithmetic num) (n : Z)
  : controller num :=
  set_num_att_layers n (unregistered ar).

(** What the network and the sampling loop do in [session]. *)
Definition network {num : Type} (x : num) : list (operation num) :=
  tl (session x).

(** A cross-attention map of 64 positions and 77 tokens. *)
Definition map64 {num : Type} (x : num) : tensor num :=
  constant [2; 64; 77]%nat x.

(** A Replace controller past the eleven rows of its schedule. *)
Definition beyond_schedule {num : Type} (ar : Scalar.arithmetic num)
  : controller num :=
  set_cur_step 11 (replacing ar 2 None).


(** A mapper that sends every token of one edited prompt to the index
    [i], and alphas of one value. *)
Definition mapper_to (i : Z) : tensor Z := constant [1; 2]%nat i.

Definition alphas_of {num : Type} (a : num) : tensor num :=
  constant [1; 2]%nat a.

(** A pipeline of the local blend for three prompts. *)
Definition mask_of_three {num : Type} (ar : Scalar.arithmetic num)
  : tensor num -> store num -> list nat -> result (tensor num) :=
  fun _ _ size => Ok (constant (3 :: 1 :: size)%nat (Scalar.one ar)).

(** The statements of the local blend after the selection of the maps,
    here a constant map. *)
Definition weighted_fully {num : Type} (ar : Scalar.arithmetic num)
  : tensor num -> list (tensor num) -> list nat -> result (tensor num) :=
  fun _ _ size => Ok (constant (2 :: 1 :: size)%nat (Scalar.one ar)).

Definition one_prompt : list string := ["a photo of a cat"]%string.

(** The words of a local blend for the two prompts. *)
Definition blend_words_of_prompts : list blend_words :=
  [BlendWord "cat"; BlendWords [WordText "dog"]].




End Examples.

(** * Properties *)

(** ** Indices, reshaping and broadcasting *)

Lemma in_bounds_cons (d i : nat) (s idx : list nat) :
  in_bounds (d :: s) (i :: idx) = true
  <-> (i < d)%nat /\ in_bounds s idx = true.
Proof.
  simpl. rewrite andb_true_iff, Nat.ltb_lt. tauto.
Qed.

Lemma in_bounds_length (s idx : list nat) :
  in_bounds s idx = true -> List.length idx = List.length s.
Proof.
  revert idx. induction s as [|d s IH]; intros [|i idx] H; simpl in *;
    try discriminate; auto.
  apply andb_true_iff in H. destruct H as [_ H]. f_equal. auto.
Qed.

Lemma flat_index_lt (s idx : list nat) :
  in_bounds s idx = true -> (flat_index s idx < numel s)%nat.
Proof.
  revert idx. induction s as [|d s IH]; intros [|i idx] H; simpl in *;
    try discriminate; try lia.
  apply andb_true_iff in H. destruct H as [Hi H].
  apply Nat.ltb_lt in Hi. specialize (IH idx H).
  fold (numel s). nia.
Qed.

Lemma unflat_flat (s idx : list nat) :
  in_bounds s idx = true -> unflat_index s (flat_index s idx) = idx.
Proof.
  revert idx. induction s as [|d s IH]; intros [|i idx] H; simpl in *;
    try discriminate; auto.
  apply andb_true_iff in H. destruct H as [Hi H].
  pose proof (flat_index_lt s idx H) as Hlt.
  fold (numel s).
  rewrite Nat.div_add_l by lia.
  rewrite Nat.div_small by lia.
  rewrite (Nat.add_comm (i * numel s)), Nat.Div0.mod_add, Nat.mod_small by lia.
  rewrite IH by assumption. f_equal. lia.
Qed.

(** Reading a [(b * h, ...)] tensor through its [(b, h, ...)] view. *)
Lemma unflat_merge (b h : nat) (s : list nat) (ib ih : nat) (idx : list nat) :
  in_bounds (b :: h :: s) (ib :: ih :: idx) = true ->
  unflat_index ((b * h)%nat :: s) (flat_index (b :: h :: s) (ib :: ih :: idx))
  = (ib * h + ih)%nat :: idx.
Proof.
  intros H.
  apply in_bounds_cons in H. destruct H as [Hb H].
  apply in_bounds_cons in H. destruct H as [Hh H].
  pose proof (flat_index_lt s idx H) as Hlt.
  replace (flat_index (b :: h :: s) (ib :: ih :: idx))
    with (flat_index ((b * h)%nat :: s) ((ib * h + ih)%nat :: idx)).
  - apply unflat_flat. apply in_bounds_cons. split; [nia | assumption].
  - simpl. fold (numel s). nia.
Qed.

(** Reading a [(b, h, ...)] tensor through its [(b * h, ...)] view. *)
Lemma unflat_split (b h : nat) (s : list nat) (i : nat) (idx : list nat) :
  in_bounds ((b * h)%nat :: s) (i :: idx) = true ->
  unflat_index (b :: h :: s) (flat_index ((b * h)%nat :: s) (i :: idx))
  = (i / h)%nat :: (i mod h)%nat :: idx.
Proof.
  intros H.
  apply in_bounds_cons in H. destruct H as [Hi H].
  assert (Hh : (0 < h)%nat) by nia.
  replace (flat_index ((b * h)%nat :: s) (i :: idx))
    with (flat_index (b :: h :: s) ((i / h)%nat :: (i mod h)%nat :: idx)).
  - apply unflat_flat.
    apply in_bounds_cons. split.
    + apply Nat.Div0.div_lt_upper_bound. lia.
    + apply in_bounds_cons.
      split; [apply Nat.mod_upper_bound; lia | assumption].
  - simpl. fold (numel s).
    pose proof (Nat.div_mod_eq i h). nia.
Qed.

Lemma broadcast_index_id (s idx : list nat) :
  in_bounds s idx = true -> broadcast_index s idx = idx.
Proof.
  intros H. unfold broadcast_index.
  rewrite (in_bounds_length s idx H), Nat.sub_diag. simpl.
  revert idx H. induction s as [|d s IH]; intros [|i idx] H; simpl in *;
    try discriminate; auto.
  apply andb_true_iff in H. destruct H as [Hi H].
  apply Nat.ltb_lt in Hi. rewrite IH by assumption.
  destruct (Nat.eqb_spec d 1); [f_equal; lia | reflexivity].
Qed.

Lemma broadcast_dim_refl (d : nat) : broadcast_dim d d = Some d.
Proof. unfold broadcast_dim. rewrite Nat.eqb_refl. reflexivity. Qed.

Lemma broadcast_dim_1_l (d : nat) : broadcast_dim 1 d = Some d.
Proof.
  unfold broadcast_dim. destruct (Nat.eqb_spec 1 d); [subst|]; reflexivity.
Qed.

Lemma broadcast_dim_1_r (d : nat) : broadcast_dim d 1 = Some d.
Proof.
  unfold broadcast_dim. destruct (Nat.eqb_spec d 1) as [->|_]; reflexivity.
Qed.

Lemma broadcast_rev_refl (r : list nat) : broadcast_rev r r = Some r.
Proof.
  induction r as [|d r IH]; simpl; auto.
  rewrite IH, broadcast_dim_refl. reflexivity.
Qed.

Lemma broadcast_rev_snoc (r1 r2 : list nat) (a b : nat) :
  List.length r1 = List.length r2 ->
  broadcast_rev (r1 ++ [a]) (r2 ++ [b])
  = match broadcast_rev r1 r2, broadcast_dim a b with
    | Some r, Some d => Some (r ++ [d])
    | _, _ => None
    end.
Proof.
  revert r2. induction r1 as [|d1 r1 IH]; intros [|d2 r2] Hlen;
    try discriminate.
  - simpl. destruct (broadcast_dim a b); reflexivity.
  - injection Hlen as Hlen. specialize (IH r2 Hlen).
    change (broadcast_rev ((d1 :: r1) ++ [a]) ((d2 :: r2) ++ [b]))
      with (match broadcast_rev (r1 ++ [a]) (r2 ++ [b]),
                  broadcast_dim d1 d2 with
            | Some r, Some d => Some (d :: r)
            | _, _ => None
            end).
    rewrite IH. simpl.
    destruct (broadcast_rev r1 r2); [| reflexivity].
    destruct (broadcast_dim a b), (broadcast_dim d1 d2); reflexivity.
Qed.

(** Shapes of the same rank are broadcast axis by axis. *)
Lemma broadcast_shapes_cons (a b : nat) (s1 s2 : list nat) :
  List.length s1 = List.length s2 ->
  broadcast_shapes (a :: s1) (b :: s2)
  = match broadcast_dim a b, broadcast_shapes s1 s2 with
    | Some d, Some s => Some (d :: s)
    | _, _ => None
    end.
Proof.
  intros Hlen. unfold broadcast_shapes. simpl rev.
  rewrite broadcast_rev_snoc by (rewrite !length_rev; assumption).
  destruct (broadcast_rev (rev s1) (rev s2)); simpl;
    destruct (broadcast_dim a b); simpl; try reflexivity.
  rewrite rev_app_distr. reflexivity.
Qed.

Lemma broadcast_shapes_nil : broadcast_shapes [] [] = Some [].
Proof. reflexivity. Qed.

Lemma broadcast_index_cons (d i : nat) (s idx : list nat) :
  List.length s = List.length idx ->
  broadcast_index (d :: s) (i :: idx)
  = (if (d =? 1)%nat then 0%nat else i) :: broadcast_index s idx.
Proof.
  intros Hlen. unfold broadcast_index. simpl List.length.
  rewrite Hlen, !Nat.sub_diag. reflexivity.
Qed.

Lemma broadcast_index_nil : broadcast_index [] [] = [].
Proof. reflexivity. Qed.

Lemma broadcast_shapes_refl (s : list nat) : broadcast_shapes s s = Some s.
Proof.
  unfold broadcast_shapes. rewrite broadcast_rev_refl. simpl.
  rewrite rev_involutive. reflexivity.
Qed.

Lemma shape_eqb_refl (s : list nat) : shape_eqb s s = true.
Proof.
  unfold shape_eqb. destruct (list_eq_dec Nat.eq_dec s s); congruence.
Qed.

Lemma shape_eqb_eq (s1 s2 : list nat) : shape_eqb s1 s2 = true -> s1 = s2.
Proof.
  unfold shape_eqb. destruct (list_eq_dec Nat.eq_dec s1 s2); congruence.
Qed.

Lemma expandable_to_refl (s : list nat) : expandable_to s s = true.
Proof.
  unfold expandable_to. rewrite broadcast_shapes_refl. apply shape_eqb_refl.
Qed.

(** Stretching the first axis: [(1, ...)] expands to [(d, ...)]. *)
Lemma broadcast_rev_last (r : list nat) (d : nat) :
  broadcast_rev (r ++ [1%nat]) (r ++ [d]) = Some (r ++ [d]).
Proof.
  rewrite broadcast_rev_snoc by reflexivity.
  rewrite broadcast_rev_refl, broadcast_dim_1_l. reflexivity.
Qed.

Lemma expandable_to_first (s : list nat) (d : nat) :
  expandable_to (1%nat :: s) (d :: s) = true.
Proof.
  unfold expandable_to, broadcast_shapes. simpl.
  rewrite broadcast_rev_last. simpl.
  rewrite rev_app_distr, rev_involutive. simpl. apply shape_eqb_refl.
Qed.

(** Dropping the leading axes of length 1 of a value and expanding it back
    to its own shape reads the value in place. *)
Lemma strip_leading_ones_length (s : list nat) :
  (List.length (strip_leading_ones s) <= List.length s)%nat.
Proof.
  induction s as [|d s IH]; simpl; auto.
  destruct d as [|[|d]]; simpl; lia.
Qed.

Lemma broadcast_rev_prefix (r p : list nat) :
  Forall (fun d => d = 1%nat) p ->
  broadcast_rev r (r ++ p) = Some (r ++ p).
Proof.
  intros Hp. induction r as [|a r IH]; simpl.
  - reflexivity.
  - rewrite IH, broadcast_dim_refl. reflexivity.
Qed.

Lemma strip_leading_ones_split (s : list nat) :
  exists p, Forall (fun d => d = 1%nat) p /\ s = p ++ strip_leading_ones s.
Proof.
  induction s as [|d s [p [Hp Hs]]].
  - exists []. split; constructor.
  - destruct d as [|[|d]].
    + exists []. split; [constructor | reflexivity].
    + exists (1%nat :: p). split; [constructor; auto|].
      simpl. f_equal. exact Hs.
    + exists []. split; [constructor | reflexivity].
Qed.

Lemma expandable_to_strip (s : list nat) :
  expandable_to (strip_leading_ones s) s = true.
Proof.
  destruct (strip_leading_ones_split s) as [p [Hp Hs]].
  unfold expandable_to, broadcast_shapes.
  rewrite Hs at 2. rewrite rev_app_distr.
  rewrite broadcast_rev_prefix.
  - simpl. rewrite <- rev_app_distr, rev_involutive, <- Hs.
    apply shape_eqb_refl.
  - apply Forall_rev. assumption.
Qed.

Lemma strip_index_id (s idx : list nat) :
  in_bounds s idx = true ->
  repeat 0%nat (List.length s - List.length (strip_leading_ones s))
    ++ broadcast_index (strip_leading_ones s) idx = idx.
Proof.
  revert idx. induction s as [|d s IH]; intros idx H.
  - destruct idx; [reflexivity | discriminate].
  - destruct idx as [|i idx]; [discriminate|].
    pose proof H as H0.
    apply in_bounds_cons in H. destruct H as [Hi H].
    destruct (Nat.eq_dec d 1) as [->|Hd].
    + simpl strip_leading_ones.
      pose proof (strip_leading_ones_length s) as Hl.
      pose proof (in_bounds_length s idx H) as Hlen.
      change (List.length (1%nat :: s)) with (S (List.length s)).
      rewrite (Nat.sub_succ_l _ _ Hl).
      simpl repeat. rewrite <- app_comm_cons.
      replace i with 0%nat by lia. f_equal.
      etransitivity; [| exact (IH idx H)]. f_equal.
      unfold broadcast_index. f_equal. f_equal.
      change (List.length (0%nat :: idx)) with (S (List.length idx)).
      rewrite Hlen, (Nat.sub_succ_l _ _ Hl). reflexivity.
    + assert (Hs : strip_leading_ones (d :: s) = d :: s).
      { destruct d as [|[|d]]; try reflexivity. contradiction. }
      rewrite Hs, Nat.sub_diag. simpl repeat. simpl app.
      apply broadcast_index_id. assumption.
Qed.

(** ** Methods that touch only the two stores *)

Section Frames.

Context {num : Type} (ar : Scalar.arithmetic num).

Lemma only_stores_ret {A} (a : A) : only_stores (num:=num) (ret a).
Proof. intros self. reflexivity. Qed.

Lemma only_stores_raise {A} (e : exn) : only_stores (num:=num) (A:=A) (raise e).
Proof. intros self. reflexivity. Qed.

Lemma only_stores_lift {A} (r : result A) : only_stores (num:=num) (lift r).
Proof. intros self. reflexivity. Qed.

Lemma only_stores_gets {A} (f : controller num -> A) : only_stores (gets f).
Proof. intros self. reflexivity. Qed.

Lemma only_stores_set_step_store (v : store num) :
  only_stores (modify (set_step_store v)).
Proof. intros self. reflexivity. Qed.

Lemma only_stores_set_attention_store (v : store num) :
  only_stores (modify (set_attention_store v)).
Proof. intros self. reflexivity. Qed.

Lemma only_stores_bind {A B} (m : M num A) (k : A -> M num B) :
  only_stores m -> (forall a, only_stores (k a)) -> only_stores (bind m k).
Proof.
  intros Hm Hk self. unfold bind.
  specialize (Hm self). destruct (m self) as [[a|e] self1]; simpl in *.
  - rewrite Hk. exact Hm.
  - exact Hm.
Qed.

Lemma only_stores_for_each {A} (l : list A) (body : A -> M num unit) :
  (forall x, only_stores (body x)) -> only_stores (for_each l body).
Proof.
  intros Hb. induction l as [|x l IH]; simpl.
  - apply only_stores_ret.
  - apply only_stores_bind; auto.
Qed.


End Frames.

Ltac only_stores_step :=
  first
    [ apply only_stores_ret
    | apply only_stores_raise
    | apply only_stores_lift
    | apply only_stores_gets
    | apply only_stores_set_step_store
    | apply only_stores_set_attention_store
    | apply only_stores_for_each; intro
    | apply only_stores_bind; [| intro]
    | match goal with
      | |- only_stores (if ?b then _ else _) => destruct b
      | |- only_stores (match ?x with _ => _ end) => destruct x
      end ].

Ltac only_stores := repeat only_stores_step.

Section StoreMethods.

Context {num : Type} (ar : Scalar.arithmetic num).

Lemma AttentionStore_forward_only_stores attn is_cross place :
  only_stores (num:=num) (AttentionStore.forward attn is_cross place).
Proof. unfold AttentionStore.forward. only_stores. Qed.

Lemma write_through_only_stores attn written key :
  only_stores (num:=num) (AttentionControlEdit.write_through attn written key).
Proof. unfold AttentionControlEdit.write_through. only_stores. Qed.

Lemma AttentionControlEdit_forward_only_stores rca attn is_cross place :
  only_stores (num:=num)
    (AttentionControlEdit.forward ar rca attn is_cross place).
Proof.
  unfold AttentionControlEdit.forward.
  apply only_stores_bind; [apply AttentionStore_forward_only_stores | intro].
  apply only_stores_bind; [only_stores | intros self0].
  destruct (is_cross || _); only_stores.
Qed.

Lemma forward_only_stores attn is_cross place :
  only_stores (num:=num) (forward ar attn is_cross place).
Proof.
  intros self. unfold forward. destruct (cls self).
  - reflexivity.
  - reflexivity.
  - apply AttentionStore_forward_only_stores.
  - apply AttentionControlEdit_forward_only_stores.
Qed.

Lemma AttentionStore_between_steps_only_stores :
  only_stores (AttentionStore.between_steps ar).
Proof.
  unfold AttentionStore.between_steps, AttentionStore.accumulate. only_stores.
Qed.

Lemma between_steps_frame self :
  frame (snd (between_steps ar self))
  = frame (set_between_steps_calls (S (between_steps_calls self)) self).
Proof.
  unfold between_steps.
  destruct (cls self) eqn:E; simpl; rewrite E;
    first [ reflexivity | apply AttentionStore_between_steps_only_stores ].
Qed.

(** ** Abstract methods *)

(** C9.  The abstract per-layer transform [forward] of the base class
    AttentionControl and the abstract [replace_cross_attention] of the
    editing base class AttentionControlEdit raise NotImplementedError for
    every argument instead of returning a value, and leave the object as
    it was; this is also what method resolution gives for an object of the
    base class and for the abstract editing strategy. *)
Theorem abstract_methods_not_implemented :
  forall (attn attn_base att_replace : tensor num) (is_cross : bool)
         (place_in_unet : string) (self : controller num),
    AttentionControl.forward attn is_cross place_in_unet self
      = (Raise NotImplementedError, self)
    /\ AttentionControlEdit.replace_cross_attention attn_base att_replace
      = Raise NotImplementedError
    /\ replace_cross_attention ar Abstract attn_base att_replace
      = Raise NotImplementedError
    /\ forward ar attn is_cross place_in_unet
         (set_cls ClsAttentionControl self)
       = (Raise NotImplementedError, set_cls ClsAttentionControl self).
Proof.
  intros. repeat split.
Qed.

(** ** The interception protocol *)

(** The first part of [__call__]: the per-layer transform on the whole
    tensor, on its second half, or not at all. *)
Lemma call_unfold (LOW_RESOURCE : bool) fwd bs attn is_cross place
  (self : controller num) :
  AttentionControl.__call__ LOW_RESOURCE fwd bs attn is_cross place self
  = match transform_phase LOW_RESOURCE fwd attn is_cross place self with
    | (Raise e, self1) => (Raise e, self1)
    | (Ok a, self1) =>
        let self2 := set_cur_att_layer (cur_att_layer self1 + 1) self1 in
        if (cur_att_layer self2
            =? num_att_layers self2
               + AttentionControl.num_uncond_att_layers LOW_RESOURCE self2)%Z
        then
          match bs (set_cur_step (cur_step self2 + 1)
                      (set_cur_att_layer 0 self2)) with
          | (Ok _, self3) => (Ok a, self3)
          | (Raise e, self3) => (Raise e, self3)
          end
        else (Ok a, self2)
    end.
Proof.
  unfold AttentionControl.__call__, transform_phase.
  unfold bind at 1. unfold gets at 1.
  unfold bind at 1. unfold gets at 1.
  unfold bind at 1.
  match goal with
  | |- context [ (if ?c then ?m1 else ?m2) self ] =>
      destruct ((if c then m1 else m2) self) as [[a|e] self1]
  end; [| reflexivity].
  unfold bind, modify, gets, ret. cbv zeta.
  destruct (_ =? _)%Z; [| reflexivity].
  destruct (bs _) as [[u|e] self3]; reflexivity.
Qed.

Lemma transform_phase_only_stores (LOW_RESOURCE : bool) fwd attn is_cross
      place :
  (forall t, only_stores (num:=num) (fwd t is_cross place)) ->
  only_stores (num:=num) (transform_phase LOW_RESOURCE fwd attn is_cross place).
Proof.
  intros Hf self. unfold transform_phase.
  destruct (_ <=? _)%Z; [| reflexivity].
  destruct LOW_RESOURCE; [apply Hf|].
  revert self. only_stores. apply Hf.
Qed.


(** C5.  Standard mode ([LOW_RESOURCE = False]), for every per-layer
    transform [self_forward] and every step-boundary handler: when an
    interception returns, the returned tensor has the shape of the input
    and its first half along the batch axis (indices below [h // 2]) holds
    the input's values; once the layer counter is non-negative, the
    transform was applied to the slice [attn[h // 2:]] only and its result
    was assigned to that slice. *)
Theorem call_keeps_first_half :
  forall (self_forward : tensor num -> bool -> string -> M num (tensor num))
         (self_between_steps : M num unit)
         (attn : tensor num) (is_cross : bool) (place_in_unet : string)
         (self self' : controller num) (attn' : tensor num),
    AttentionControl.__call__ false self_forward self_between_steps
      attn is_cross place_in_unet self = (Ok attn', self') ->
    let h := hd 0%nat (shape attn) in
    shape attn' = shape attn
    /\ (forall i idx, (i < h / 2)%nat ->
          data attn' (i :: idx) = data attn (i :: idx))
    /\ ((0 <= cur_att_layer self)%Z ->
        exists half v self1,
          slice_from (h / 2) attn = Ok half
          /\ self_forward half is_cross place_in_unet self = (Ok v, self1)
          /\ setitem_from (h / 2) attn v = Ok attn').
Proof.
  intros fwd bs attn is_cross place self self' attn' Hcall h.
  rewrite call_unfold in Hcall.
  destruct (transform_phase false fwd attn is_cross place self)
    as [[w|e] self1] eqn:Ephase; [| discriminate].
  assert (Hw : attn' = w).
  { cbv zeta in Hcall.
    destruct (_ =? _)%Z; [destruct (bs _) as [[u|e] self3]|]; congruence. }
  subst w. clear Hcall.
  unfold transform_phase in Ephase.
  change (AttentionControl.num_uncond_att_layers false self) with 0%Z in Ephase.
  destruct (0 <=? cur_att_layer self)%Z eqn:Ecur.
  - unfold bind at 1, lift at 1, shape_at in Ephase.
    subst h.
    destruct (shape attn) as [|d s] eqn:Es; [discriminate|].
    cbn [nth_error hd] in *.
    unfold bind at 1, lift at 1, slice_from in Ephase. rewrite Es in Ephase.
    unfold bind at 1 in Ephase.
    destruct (fwd _ is_cross place self) as [[v|e] self2] eqn:Ef;
      [| discriminate].
    unfold lift in Ephase.
    destruct (setitem_from (d / 2) attn v) as [w|e] eqn:Eset;
      [| discriminate].
    injection Ephase as -> ->.
    pose proof Eset as Eset'.
    unfold setitem_from in Eset. rewrite Es in Eset.
    destruct (expandable_to _ _); [| discriminate].
    injection Eset as Eset. subst attn'. cbn [shape data].
    split; [reflexivity|]. split.
    + intros i idx Hi. apply Nat.ltb_lt in Hi. rewrite Hi. reflexivity.
    + intros _. eexists _, v, self1.
      split; [unfold slice_from; rewrite Es; reflexivity|].
      split; [exact Ef | exact Eset'].
  - injection Ephase as -> ->.
    split; [reflexivity|]. split; [reflexivity|].
    intros H. apply Z.leb_gt in Ecur. lia.
Qed.

End StoreMethods.

(** ** The step callback and the local blend *)

Ltac broadcast_shape :=
  repeat (rewrite broadcast_shapes_cons by reflexivity);
  rewrite ?broadcast_shapes_nil, ?broadcast_dim_refl, ?broadcast_dim_1_l,
    ?broadcast_dim_1_r.

Ltac broadcast_idx :=
  repeat (rewrite broadcast_index_cons by reflexivity);
  rewrite ?broadcast_index_nil.

Section Blend.

Context {num : Type} (ar : Scalar.arithmetic num).

(** The compositing of a batch of two, element by element, in the
    arithmetic of the latent. *)
Lemma LocalBlend_call_pair normalized_maps (lb : LocalBlend_t num) x_t st m
  (c h w : nat) :
  shape x_t = [2; c; h; w]%nat ->
  normalized_maps (alpha_layers lb) st [h; w] = Ok m ->
  shape m = [2; 1; h; w]%nat ->
  exists x_t',
    LocalBlend.__call__ ar normalized_maps lb x_t st = Ok x_t'
    /\ shape x_t' = [2; c; h; w]%nat
    /\ forall b ch y x,
         (b < 2)%nat -> (ch < c)%nat -> (y < h)%nat -> (x < w)%nat ->
         data x_t' [b; ch; y; x]
         = Scalar.add ar (data x_t [0%nat; ch; y; x])
             (Scalar.mul ar
                (if above_threshold ar lb m 0 y x
                    || above_threshold ar lb m 1 y x
                 then Scalar.one ar else Scalar.zero ar)
                (Scalar.sub ar (data x_t [b; ch; y; x])
                   (data x_t [0%nat; ch; y; x]))).
Proof.
  intros Hx Hnm Hm.
  unfold LocalBlend.__call__.
  rewrite Hx. cbn [skipn]. rewrite Hnm. cbn [rbind].
  unfold slice_to, slice_from, pointwise. cbn [shape data].
  rewrite Hm, Hx. cbn [rbind Nat.min Nat.sub].
  unfold binop. cbn [shape data].
  repeat (rewrite ?Hx; broadcast_shape; cbn [rbind shape data]).
  eexists. split; [reflexivity|]. split; [reflexivity|].
  intros b ch y x Hb Hch Hy Hxw. cbn [data].
  broadcast_idx. cbn [Nat.eqb Nat.add].
  unfold above_threshold.
  assert (Hch' : (if (c =? 1)%nat then 0%nat else ch) = ch).
  { destruct (Nat.eqb_spec c 1); lia. }
  assert (Hy' : (if (h =? 1)%nat then 0%nat else y) = y).
  { destruct (Nat.eqb_spec h 1); lia. }
  assert (Hx' : (if (w =? 1)%nat then 0%nat else x) = x).
  { destruct (Nat.eqb_spec w 1); lia. }
  rewrite !Hch', !Hy', !Hx'. reflexivity.
Qed.

Lemma step_callback_without_blend normalized_maps x_t (self : controller num) :
  local_blend self = None
  \/ (forall s, cls self <> ClsAttentionControlEdit s) ->
  step_callback ar normalized_maps x_t self = (Ok x_t, self).
Proof.
  intros H. unfold step_callback, AttentionControlEdit.step_callback.
  destruct (cls self) eqn:Ec; try reflexivity.
  destruct H as [H|H]; [| exfalso; exact (H s eq_refl)].
  unfold bind, gets, id. rewrite H. reflexivity.
Qed.

Lemma step_callback_with_blend normalized_maps x_t (self : controller num)
  s lb m (c h w : nat) :
  cls self = ClsAttentionControlEdit s ->
  local_blend self = Some lb ->
  shape x_t = [2; c; h; w]%nat ->
  normalized_maps (alpha_layers lb) (attention_store self) [h; w] = Ok m ->
  shape m = [2; 1; h; w]%nat ->
  exists x_t',
    step_callback ar normalized_maps x_t self = (Ok x_t', self)
    /\ shape x_t' = shape x_t
    /\ forall b ch y x,
         (b < 2)%nat -> (ch < c)%nat -> (y < h)%nat -> (x < w)%nat ->
         data x_t' [b; ch; y; x]
         = Scalar.add ar (data x_t [0%nat; ch; y; x])
             (Scalar.mul ar
                (if above_threshold ar lb m 0 y x
                    || above_threshold ar lb m 1 y x
                 then Scalar.one ar else Scalar.zero ar)
                (Scalar.sub ar (data x_t [b; ch; y; x])
                   (data x_t [0%nat; ch; y; x]))).
Proof.
  intros Hc Hlb Hx Hnm Hm.
  destruct (LocalBlend_call_pair normalized_maps lb x_t (attention_store self)
              m c h w Hx Hnm Hm) as [x' [Hcall [Hs Hd]]].
  exists x'. split; [| split; [congruence | exact Hd]].
  unfold step_callback, AttentionControlEdit.step_callback. rewrite Hc.
  unfold bind, gets, id, lift. rewrite Hlb, Hcall. reflexivity.
Qed.

End Blend.

(** C7.  [step_callback] returns the latent it is given, and leaves the
    controller as it is, whenever no local blend is attached (and for the
    classes that have no such attribute).  With a local blend attached to an
    editing controller and a batch of the reference and one edited latent,
    the composited latent is, element by element and in the arithmetic of
    the latent, [x0 + m * (x - x0)], where [x0] is the reference latent
    (batch index 0), [x] the latent of the sample and [m] is one where the
    thresholded mask of one of the two samples is set and zero elsewhere.
    In exact arithmetic this is the latent of the sample inside the mask
    and the reference latent outside; in single precision it is the
    reference latent outside the mask whenever that latent is a nonzero
    number and the difference [x - x0] does not overflow. *)
Theorem step_callback_identity_or_blend :
  (forall (num : Type) (ar : Scalar.arithmetic num)
          (normalized_maps : tensor num -> store num -> list nat
                             -> result (tensor num))
          (x_t : tensor num) (self : controller num),
      local_blend self = None
      \/ (forall s, cls self <> ClsAttentionControlEdit s) ->
      step_callback ar normalized_maps x_t self = (Ok x_t, self))
  /\ (forall (num : Type) (ar : Scalar.arithmetic num)
             (normalized_maps : tensor num -> store num -> list nat
                                -> result (tensor num))
             (x_t : tensor num) (self : controller num)
             (s : strategy num) (lb : LocalBlend_t num) (m : tensor num)
             (c h w : nat),
         cls self = ClsAttentionControlEdit s ->
         local_blend self = Some lb ->
         shape x_t = [2; c; h; w]%nat ->
         normalized_maps (alpha_layers lb) (attention_store self) [h; w]
           = Ok m ->
         shape m = [2; 1; h; w]%nat ->
         exists x_t',
           step_callback ar normalized_maps x_t self = (Ok x_t', self)
           /\ shape x_t' = shape x_t
           /\ forall b ch y x,
                (b < 2)%nat -> (ch < c)%nat -> (y < h)%nat -> (x < w)%nat ->
                data x_t' [b; ch; y; x]
                = Scalar.add ar (data x_t [0%nat; ch; y; x])
                    (Scalar.mul ar
                       (if above_threshold ar lb m 0 y x
                           || above_threshold ar lb m 1 y x
                        then Scalar.one ar else Scalar.zero ar)
                       (Scalar.sub ar (data x_t [b; ch; y; x])
                          (data x_t [0%nat; ch; y; x]))))
  /\ (forall (normalized_maps : tensor Q -> store Q -> list nat
                                -> result (tensor Q))
             (x_t : tensor Q) (self : controller Q)
             (s : strategy Q) (lb : LocalBlend_t Q) (m : tensor Q)
             (c h w : nat),
         cls self = ClsAttentionControlEdit s ->
         local_blend self = Some lb ->
         shape x_t = [2; c; h; w]%nat ->
         normalized_maps (alpha_layers lb) (attention_store self) [h; w]
           = Ok m ->
         shape m = [2; 1; h; w]%nat ->
         exists x_t',
           step_callback exact normalized_maps x_t self = (Ok x_t', self)
           /\ shape x_t' = shape x_t
           /\ forall b ch y x,
                (b < 2)%nat -> (ch < c)%nat -> (y < h)%nat -> (x < w)%nat ->
                data x_t' [b; ch; y; x]
                == if above_threshold exact lb m 0 y x
                      || above_threshold exact lb m 1 y x
                   then data x_t [b; ch; y; x]
                   else data x_t [0%nat; ch; y; x])
  /\ (forall (normalized_maps : tensor spec_float -> store spec_float
                                -> list nat -> result (tensor spec_float))
             (x_t : tensor spec_float) (self : controller spec_float)
             (s : strategy spec_float) (lb : LocalBlend_t spec_float)
             (m : tensor spec_float) (c h w : nat),
         cls self = ClsAttentionControlEdit s ->
         local_blend self = Some lb ->
         shape x_t = [2; c; h; w]%nat ->
         normalized_maps (alpha_layers lb) (attention_store self) [h; w]
           = Ok m ->
         shape m = [2; 1; h; w]%nat ->
         exists x_t',
           step_callback binary32 normalized_maps x_t self = (Ok x_t', self)
           /\ forall b ch y x,
                (b < 2)%nat -> (ch < c)%nat -> (y < h)%nat -> (x < w)%nat ->
                above_threshold binary32 lb m 0 y x
                || above_threshold binary32 lb m 1 y x = false ->
                is_nonzero_number (data x_t [0%nat; ch; y; x]) = true ->
                is_number (SFsub 24 128 (data x_t [b; ch; y; x])
                             (data x_t [0%nat; ch; y; x])) = true ->
                data x_t' [b; ch; y; x] = data x_t [0%nat; ch; y; x]).
Proof.
  split; [| split; [| split]].
  - intros. apply step_callback_without_blend. assumption.
  - intros num ar nm x_t self s lb m c h w.
    apply step_callback_with_blend.
  - intros nm x_t self s lb m c h w Hc Hlb Hx Hnm Hm.
    destruct (step_callback_with_blend exact nm x_t self s lb m c h w
                Hc Hlb Hx Hnm Hm) as [x' [Hcall [Hs Hd]]].
    exists x'. split; [exact Hcall|]. split; [exact Hs|].
    intros b ch y x Hb Hch Hy Hxw. rewrite (Hd b ch y x Hb Hch Hy Hxw).
    destruct (above_threshold exact lb m 0 y x
              || above_threshold exact lb m 1 y x);
      cbn [Scalar.add Scalar.mul Scalar.sub Scalar.one Scalar.zero exact];
      ring.
  - intros nm x_t self s lb m c h w Hc Hlb Hx Hnm Hm.
    destruct (step_callback_with_blend binary32 nm x_t self s lb m c h w
                Hc Hlb Hx Hnm Hm) as [x' [Hcall [Hs Hd]]].
    exists x'. split; [exact Hcall|].
    intros b ch y x Hb Hch Hy Hxw Hmask H0 Hdiff.
    rewrite (Hd b ch y x Hb Hch Hy Hxw), Hmask.
    cbn [Scalar.add Scalar.mul Scalar.sub Scalar.one Scalar.zero binary32].
    destruct (SFsub 24 128 (data x_t [b; ch; y; x])
                (data x_t [0%nat; ch; y; x])) as [sd|sd| |sd md ed];
      try discriminate;
      destruct (data x_t [0%nat; ch; y; x]) as [s0|s0| |s0 m0 e0];
      try discriminate; reflexivity.
Qed.

(** ** The per-layer transform of the editing controllers *)

Section Editing.

Context {num : Type} (ar : Scalar.arithmetic num).

(** [AttentionControlEdit.forward] records its input, computes the edited
    tensor inside the cross-attention schedule or the self-attention window,
    and writes it to the recorded tensor. *)
Lemma AttentionControlEdit_forward_unfold rca attn is_cross place self :
  AttentionControlEdit.forward ar rca attn is_cross place self
  = match AttentionStore.forward attn is_cross place self with
    | (Raise e, self1) => (Raise e, self1)
    | (Ok _, self1) =>
        if is_cross || in_self_window self1
        then
          match edited_attention ar rca self1 attn is_cross with
          | Raise e => (Raise e, self1)
          | Ok out =>
              (Ok out,
               snd (AttentionControlEdit.write_through attn out
                      (AttentionStore.location_key is_cross place) self1))
          end
        else (Ok attn, self1)
    end.
Proof.
  unfold AttentionControlEdit.forward.
  unfold bind at 1.
  destruct (AttentionStore.forward attn is_cross place self) as [[a|e] self1];
    [| reflexivity].
  unfold bind at 1, gets at 1, id. unfold in_self_window.
  destruct (is_cross || _); [| reflexivity].
  unfold edited_attention.
  unfold bind at 1, lift at 1.
  destruct (shape_at attn 0) as [n|e]; [| reflexivity]. cbn [rbind].
  unfold bind at 1.
  destruct (batch_size self1 =? 0)%nat; [reflexivity|].
  unfold ret at 1. cbn [rbind].
  unfold bind at 1, lift at 1.
  destruct (reshape attn _) as [attn_r|e]; [| reflexivity]. cbn [rbind].
  unfold bind at 1, lift at 1.
  destruct (getitem attn_r 0) as [attn_base|e]; [| reflexivity]. cbn [rbind].
  unfold bind at 1, lift at 1.
  destruct (slice_from 1 attn_r) as [attn_repalce|e]; [| reflexivity].
  cbn [rbind].
  unfold bind at 1, lift at 1.
  match goal with
  | |- context [ rbind ?x _ ] => destruct x as [attn_w|e]; [| reflexivity]
  end.
  cbn [rbind].
  unfold bind at 1, lift at 1.
  destruct (reshape attn_w _) as [out|e]; [| reflexivity].
  unfold bind at 1.
  destruct (AttentionControlEdit.write_through _ _ _ _) as [[u|e] self2] eqn:Ew.
  - reflexivity.
  - exfalso. revert Ew. unfold AttentionControlEdit.write_through.
    unfold bind, gets, id, modify, ret.
    destruct (shape_at attn 1); try discriminate.
    destruct (dict_get _ _); try discriminate.
    destruct (_ <=? _)%nat; discriminate.
Qed.

Lemma AttentionStore_forward_returns (attn : tensor num) is_cross place self
  (n q : nat) rest l :
  shape attn = n :: q :: rest ->
  dict_get (AttentionStore.location_key is_cross place) (step_store self)
    = Ok l ->
  AttentionStore.forward attn is_cross place self
  = (Ok attn,
     if (q <=? 32 ^ 2)%nat
     then set_step_store
            (dict_set (AttentionStore.location_key is_cross place)
               (l ++ [attn]) (step_store self)) self
     else self).
Proof.
  intros Hs Hk. unfold AttentionStore.forward.
  unfold shape_at. rewrite Hs. cbn [nth_error].
  unfold bind at 1, lift at 1.
  destruct (q <=? 32 ^ 2)%nat.
  - unfold bind, gets, id, lift, modify, ret. rewrite Hk. reflexivity.
  - reflexivity.
Qed.

Lemma numel_cons (d : nat) (s : list nat) : numel (d :: s) = (d * numel s)%nat.
Proof. reflexivity. Qed.

Lemma reshape_split_ok {A} (t : tensor A) (b h : nat) (s : list nat) :
  shape t = (b * h)%nat :: s ->
  reshape t (b :: h :: s)
  = Ok (mk (b :: h :: s)
          (fun idx => data t (unflat_index ((b * h)%nat :: s)
                                (flat_index (b :: h :: s) idx)))).
Proof.
  intros Hs. unfold reshape. rewrite Hs.
  replace (numel ((b * h)%nat :: s) =? numel (b :: h :: s))%nat with true.
  - reflexivity.
  - symmetry. apply Nat.eqb_eq. rewrite !numel_cons. lia.
Qed.

Lemma reshape_merge_ok {A} (t : tensor A) (b h : nat) (s : list nat) :
  shape t = b :: h :: s ->
  reshape t ((b * h)%nat :: s)
  = Ok (mk ((b * h)%nat :: s)
          (fun idx => data t (unflat_index (b :: h :: s)
                                (flat_index ((b * h)%nat :: s) idx)))).
Proof.
  intros Hs. unfold reshape. rewrite Hs.
  replace (numel (b :: h :: s) =? numel ((b * h)%nat :: s))%nat with true.
  - reflexivity.
  - symmetry. apply Nat.eqb_eq. rewrite !numel_cons. lia.
Qed.

(** Assigning a value of the shape of the slice. *)
Lemma setitem_from_same_shape {A} (k : nat) (t v : tensor A) (d : nat)
      (s : list nat) :
  shape t = d :: s ->
  shape v = (d - k)%nat :: s ->
  exists w,
    setitem_from k t v = Ok w
    /\ shape w = d :: s
    /\ forall i idx,
         in_bounds (d :: s) (i :: idx) = true ->
         data w (i :: idx)
         = if (i <? k)%nat then data t (i :: idx)
           else data v ((i - k)%nat :: idx).
Proof.
  intros Ht Hv. unfold setitem_from. rewrite Ht, Hv.
  rewrite expandable_to_strip.
  eexists. split; [reflexivity|]. split; [reflexivity|].
  intros i idx Hb. cbn [data].
  destruct (i <? k)%nat eqn:Ek; [reflexivity|].
  rewrite strip_index_id; [reflexivity|].
  apply Nat.ltb_ge in Ek.
  apply in_bounds_cons in Hb. destruct Hb as [Hi Hb].
  apply in_bounds_cons. split; [lia | assumption].
Qed.

Lemma edited_self_attention rca self attn (h q : nat) rest :
  batch_size self <> 0%nat ->
  shape attn = (batch_size self * h)%nat :: q :: rest ->
  exists out,
    edited_attention ar rca self attn false = Ok out
    /\ shape out = shape attn
    /\ forall i idx,
         in_bounds (shape attn) (i :: idx) = true ->
         data out (i :: idx)
         = data attn ((if (q <=? 16 ^ 2)%nat then (i mod h)%nat else i) :: idx).
Proof.
  intros HB Hs. set (B := batch_size self) in *.
  unfold edited_attention. fold B.
  unfold shape_at. rewrite Hs. cbn [nth_error rbind tl].
  destruct (Nat.eqb_spec B 0) as [|_]; [contradiction|]. cbn [rbind].
  replace (B * h / B)%nat with h
    by (rewrite Nat.mul_comm, Nat.div_mul; auto).
  rewrite (reshape_split_ok attn B h (q :: rest) Hs). cbn [rbind].
  unfold getitem, slice_from. cbn [shape data].
  destruct (Nat.ltb_spec 0 B) as [_|]; [| lia]. cbn [rbind].
  unfold AttentionControlEdit.replace_self_attention.
  unfold shape_at. cbn [shape nth_error rbind].
  destruct (q <=? 16 ^ 2)%nat eqn:Eq.
  - unfold expand, unsqueeze0. cbn [shape data].
    rewrite expandable_to_first. cbn [rbind].
    match goal with
    | |- context [ setitem_from 1 ?t ?v ] =>
        destruct (setitem_from_same_shape 1 t v B (h :: q :: rest)
                    eq_refl eq_refl) as [w [Hw [Hsw Hdw]]]
    end.
    rewrite Hw. cbn [rbind]. rewrite Hsw. cbn [skipn].
    rewrite (reshape_merge_ok w B h (q :: rest) Hsw).
    eexists. split; [reflexivity|]. split; [cbn [shape]; congruence|].
    intros i idx Hb. cbn [data]. rewrite ?Hs in Hb.
    rewrite (unflat_split B h (q :: rest) i idx Hb).
    pose proof Hb as Hb'.
    apply in_bounds_cons in Hb'. destruct Hb' as [Hi Hidx].
    assert (Hh : (0 < h)%nat) by nia.
    assert (Hdiv : (i / h < B)%nat)
      by (apply Nat.Div0.div_lt_upper_bound; lia).
    assert (Hmod : (i mod h < h)%nat) by (apply Nat.mod_upper_bound; lia).
    rewrite Hdw
      by (apply in_bounds_cons; split;
          [assumption | apply in_bounds_cons; split; assumption]).
    cbn [data].
    destruct (i / h <? 1)%nat eqn:E1.
    + apply Nat.ltb_lt in E1.
      rewrite unflat_merge
        by (apply in_bounds_cons; split;
            [assumption | apply in_bounds_cons; split; assumption]).
      f_equal. f_equal.
      assert (i / h = 0)%nat by lia.
      pose proof (Nat.div_mod_eq i h). nia.
    + rewrite broadcast_index_cons
        by (cbn [List.length]; f_equal;
            symmetry; apply (in_bounds_length (q :: rest) idx Hidx)).
      cbn [Nat.eqb tl].
      rewrite broadcast_index_id
        by (apply in_bounds_cons; split; assumption).
      rewrite unflat_merge
        by (apply in_bounds_cons; split;
            [lia | apply in_bounds_cons; split; assumption]).
      reflexivity.
  - cbn [rbind].
    match goal with
    | |- context [ setitem_from 1 ?t ?v ] =>
        destruct (setitem_from_same_shape 1 t v B (h :: q :: rest)
                    eq_refl eq_refl) as [w [Hw [Hsw Hdw]]]
    end.
    rewrite Hw. cbn [rbind]. rewrite Hsw. cbn [skipn].
    rewrite (reshape_merge_ok w B h (q :: rest) Hsw).
    eexists. split; [reflexivity|]. split; [cbn [shape]; congruence|].
    intros i idx Hb. cbn [data]. rewrite ?Hs in Hb.
    rewrite (unflat_split B h (q :: rest) i idx Hb).
    pose proof Hb as Hb'.
    apply in_bounds_cons in Hb'. destruct Hb' as [Hi Hidx].
    assert (Hh : (0 < h)%nat) by nia.
    assert (Hdiv : (i / h < B)%nat)
      by (apply Nat.Div0.div_lt_upper_bound; lia).
    assert (Hmod : (i mod h < h)%nat) by (apply Nat.mod_upper_bound; lia).
    rewrite Hdw
      by (apply in_bounds_cons; split;
          [assumption | apply in_bounds_cons; split; assumption]).
    cbn [data].
    destruct (i / h <? 1)%nat eqn:E1.
    + rewrite unflat_merge
        by (apply in_bounds_cons; split;
            [assumption | apply in_bounds_cons; split; assumption]).
      f_equal. f_equal. pose proof (Nat.div_mod_eq i h). nia.
    + apply Nat.ltb_ge in E1.
      replace (1 + (i / h - 1))%nat with (i / h)%nat by lia.
      rewrite unflat_merge
        by (apply in_bounds_cons; split;
            [assumption | apply in_bounds_cons; split; assumption]).
      f_equal. f_equal. pose proof (Nat.div_mod_eq i h). nia.
Qed.

(** ** The self-attention window *)

(** On step indices, which are never negative, truncation and floor give
    the same window bounds. *)
Lemma int_floor_bounds (p : Py.num) (a t : Z) :
  Py.int p = Ok a ->
  (0 <= t)%Z ->
  exists f, Py.floor p = Ok f
            /\ (a <=? t)%Z = (f <=? t)%Z
            /\ (t <? a)%Z = (t <? f)%Z.
Proof.
  intros Hint Ht.
  destruct p as [k|[sg|sg| |sg m e]]; cbn [Py.int Py.floor] in *;
    try discriminate; try (eexists; split; [reflexivity|];
                           injection Hint as <-; split; reflexivity).
  injection Hint as <-. eexists. split; [reflexivity|].
  destruct (0 <=? e)%Z eqn:Ee; [split; reflexivity|].
  apply Z.leb_gt in Ee.
  assert (Hp : (0 < 2 ^ (- e))%Z) by (apply Z.pow_pos_nonneg; lia).
  destruct sg; cbn [cond_Zopp].
  - assert (Hq : (Z.quot (- Z.pos m) (2 ^ (- e)) <= 0)%Z).
    { apply Z.quot_le_upper_bound; lia. }
    assert (Hd : (- Z.pos m / 2 ^ (- e) < 0)%Z)
      by (apply Z.div_lt_upper_bound; lia).
    split.
    + transitivity true; [| symmetry]; apply Z.leb_le; lia.
    + transitivity false; [| symmetry]; apply Z.ltb_ge; lia.
  - rewrite Z.quot_div_nonneg by lia. split; reflexivity.
Qed.

Lemma steps_of_floor (num_steps : Z) (x : Py.num) (a t : Z) :
  AttentionControlEdit.steps_of num_steps x = Ok a ->
  (0 <= t)%Z ->
  exists f, floor_of_steps num_steps x = Ok f
            /\ (a <=? t)%Z = (f <=? t)%Z
            /\ (t <? a)%Z = (t <? f)%Z.
Proof.
  unfold AttentionControlEdit.steps_of, floor_of_steps.
  destruct (Py.int_mul num_steps x) as [p|e]; cbn [rbind]; [| discriminate].
  apply int_floor_bounds.
Qed.

(** What [__init__] leaves in the fields of an editing controller. *)
Lemma configured_fields (c : class num) prompts num_steps
  (time_words_attention_alpha : tensor num) self_replace_steps blend
  configured :
  construct ar c
    (AttentionControlEdit.__init__ prompts num_steps
       time_words_attention_alpha self_replace_steps blend) = Ok configured ->
  batch_size configured = List.length prompts
  /\ exists first last,
       AttentionControlEdit.steps_of num_steps
         (fst (window_of self_replace_steps)) = Ok first
       /\ AttentionControlEdit.steps_of num_steps
            (snd (window_of self_replace_steps)) = Ok last
       /\ num_self_replace configured = (first, last).
Proof.
  unfold construct, AttentionControlEdit.__init__.
  fold (window_of self_replace_steps).
  unfold bind, lift, modify, AttentionStore.__init__, AttentionControl.__init__.
  cbn [fst snd].
  destruct (AttentionControlEdit.steps_of num_steps
              (fst (window_of self_replace_steps))) as [a|e];
    [| discriminate].
  destruct (AttentionControlEdit.steps_of num_steps
              (snd (window_of self_replace_steps))) as [b|e];
    [| discriminate].
  intros [= <-]. split; [reflexivity|].
  exists a, b. repeat split.
Qed.

(** C1.  An editing controller of any strategy, configured by [__init__]
    with [num_steps] and [self_replace_steps] (a single float [f] standing
    for the window [(0, f)]), at a step index [cur_step >= 0], given a
    self-attention map whose batch axis holds the [len(prompts)] variants
    with [h] heads each and whose query axis has length [q]: the two bounds
    [floor(num_steps * start)] and [floor(num_steps * end)] exist, and
    [forward] returns a map of the same shape in which every row of every
    variant is the row of the same head of the reference variant exactly
    when [floor(num_steps * start) <= cur_step < floor(num_steps * end)]
    and [q <= 16 ** 2]; in every other case (inside the window with a
    larger map, or outside the window for any size) the returned map has
    the values of the input. *)
Theorem self_attention_replaced_in_window :
  forall (s : strategy num) (prompts : list string) (num_steps : Z)
         (time_words_attention_alpha : tensor num)
         (self_replace_steps : self_replace_arg)
         (blend : option (LocalBlend_t num))
         (configured self : controller num) (attn : tensor num)
         (place_in_unet : string)
         (h q : nat) (rest : list nat) (l : list (tensor num)),
    construct ar (ClsAttentionControlEdit s)
      (AttentionControlEdit.__init__ prompts num_steps
         time_words_attention_alpha self_replace_steps blend) = Ok configured ->
    cls self = ClsAttentionControlEdit s ->
    batch_size self = batch_size configured ->
    num_self_replace self = num_self_replace configured ->
    (0 <= cur_step self)%Z ->
    prompts <> [] ->
    shape attn = (List.length prompts * h)%nat :: q :: rest ->
    dict_get (AttentionStore.location_key false place_in_unet) (step_store self)
      = Ok l ->
    exists first last,
      floor_of_steps num_steps (fst (window_of self_replace_steps)) = Ok first
      /\ floor_of_steps num_steps (snd (window_of self_replace_steps)) = Ok last
      /\ exists out self',
           forward ar attn false place_in_unet self = (Ok out, self')
           /\ shape out = shape attn
           /\ forall i idx,
                in_bounds (shape attn) (i :: idx) = true ->
                data out (i :: idx)
                = data attn
                    ((if (first <=? cur_step self)%Z
                         && (cur_step self <? last)%Z
                         && (q <=? 16 ^ 2)%nat
                      then (i mod h)%nat else i) :: idx).
Proof.
  intros s prompts num_steps alpha srs blend configured self attn place h q
         rest l Hconf Hcls HB Hwin Hstep Hp Hs Hk.
  destruct (configured_fields _ _ _ _ _ _ _ Hconf)
    as [HBc [a [b [Ha [Hb Hab]]]]].
  destruct (steps_of_floor _ _ _ _ Ha Hstep) as [first [Hfirst [Hlo _]]].
  destruct (steps_of_floor _ _ _ _ Hb Hstep) as [last [Hlast [_ Hhi]]].
  exists first, last. split; [exact Hfirst|]. split; [exact Hlast|].
  rewrite HBc in HB. rewrite Hab in Hwin.
  unfold forward. rewrite Hcls.
  rewrite AttentionControlEdit_forward_unfold.
  rewrite (AttentionStore_forward_returns attn false place self _ _ _ _ Hs Hk).
  match goal with
  | |- context [ in_self_window ?c ] =>
      set (self1 := c);
      assert (Hin : in_self_window self1
                    = ((first <=? cur_step self)%Z
                       && (cur_step self <? last)%Z))
  end.
  { unfold in_self_window.
    replace (num_self_replace self1) with (num_self_replace self)
      by (unfold self1; destruct (q <=? 32 ^ 2)%nat; reflexivity).
    replace (cur_step self1) with (cur_step self)
      by (unfold self1; destruct (q <=? 32 ^ 2)%nat; reflexivity).
    rewrite Hwin. cbn [fst snd]. rewrite Hlo, Hhi. reflexivity. }
  cbn [orb]. rewrite Hin.
  destruct ((first <=? cur_step self)%Z && (cur_step self <? last)%Z).
  - assert (HB1 : batch_size self1 = List.length prompts)
      by (unfold self1; destruct (q <=? 32 ^ 2)%nat; exact HB).
    destruct (edited_self_attention (replace_cross_attention ar s) self1 attn
                h q rest) as [out [Hout [Hso Hdo]]].
    + rewrite HB1. destruct prompts; [contradiction | discriminate].
    + rewrite HB1. exact Hs.
    + rewrite Hout. eexists out, _. split; [reflexivity|].
      split; [exact Hso|]. cbn [andb]. exact Hdo.
  - eexists attn, _. split; [reflexivity|]. split; [reflexivity|].
    intros i idx _. reflexivity.
Qed.

End Editing.

(** ** The Replace strategy *)

Lemma broadcast_dim_comm (a b : nat) : broadcast_dim a b = broadcast_dim b a.
Proof.
  unfold broadcast_dim.
  destruct (Nat.eqb_spec a b), (Nat.eqb_spec b a), (Nat.eqb_spec a 1),
    (Nat.eqb_spec b 1); subst; try reflexivity; try congruence.
Qed.

Lemma broadcast_rev_comm (r1 r2 : list nat) :
  broadcast_rev r1 r2 = broadcast_rev r2 r1.
Proof.
  revert r2. induction r1 as [|a r1 IH]; intros [|b r2]; simpl; auto.
  rewrite IH, broadcast_dim_comm. reflexivity.
Qed.

Lemma broadcast_shapes_comm (s1 s2 : list nat) :
  broadcast_shapes s1 s2 = broadcast_shapes s2 s1.
Proof. unfold broadcast_shapes. rewrite broadcast_rev_comm. reflexivity. Qed.

Section Replace.

Context {num : Type} (ar : Scalar.arithmetic num).

Lemma sum_ext (n : nat) (f g : nat -> num) :
  (forall i, (i < n)%nat -> f i = g i) -> Scalar.sum ar n f = Scalar.sum ar n g.
Proof.
  induction n as [|n IH]; intros H; simpl.
  - reflexivity.
  - rewrite IH by (intros i Hi; apply H; lia).
    rewrite (H n) by lia. reflexivity.
Qed.

(** The edited cross-attention of the Replace strategy, row by row. *)
Lemma edited_cross_attention_replace self (mapper attn alpha_words : tensor num)
      (h p w : nat) :
  let B := batch_size self in
  B <> 0%nat ->
  shape attn = [B * h; p; w]%nat ->
  shape mapper = [B - 1; w; w]%nat ->
  getitem_int (cross_replace_alpha self) (cur_step self) = Ok alpha_words ->
  broadcast_shapes (shape alpha_words) [B - 1; h; p; w]%nat
    = Some [B - 1; h; p; w]%nat ->
  exists out,
    edited_attention ar (AttentionReplace.replace_cross_attention ar mapper)
      self attn true = Ok out
    /\ shape out = shape attn
    /\ forall i ip k,
         (i < B * h)%nat -> (ip < p)%nat -> (k < w)%nat ->
         data out [i; ip; k]
         = if (i <? h)%nat then data attn [i; ip; k]
           else
             let b := (i / h - 1)%nat in
             blend ar
               (data alpha_words
                  (broadcast_index (shape alpha_words)
                     [b; (i mod h)%nat; ip; k]))
               (contraction ar w
                  (fun iw => data attn [(i mod h)%nat; ip; iw])
                  (fun iw => data mapper [b; iw; k]))
               (data attn [i; ip; k]).
Proof.
  intros B HB Hs Hm Ha Hbr.
  unfold edited_attention. fold B.
  unfold shape_at. rewrite Hs. cbn [nth_error rbind tl].
  destruct (Nat.eqb_spec B 0) as [|_]; [contradiction|]. cbn [rbind].
  replace (B * h / B)%nat with h
    by (rewrite Nat.mul_comm, Nat.div_mul; auto).
  rewrite (reshape_split_ok attn B h [p; w] Hs). cbn [rbind].
  unfold getitem, slice_from. cbn [shape data].
  destruct (Nat.ltb_spec 0 B) as [_|]; [| lia]. cbn [rbind].
  rewrite Ha. cbn [rbind].
  unfold AttentionReplace.replace_cross_attention. cbn [shape data].
  rewrite Hm, Nat.eqb_refl. cbn [orb rbind].
  unfold binop, pointwise. cbn [shape data].
  rewrite (broadcast_shapes_comm _ (shape alpha_words)), Hbr. cbn [rbind].
  cbn [shape data]. rewrite ?Hbr. cbn [rbind]. cbn [shape data].
  rewrite broadcast_shapes_refl. cbn [rbind].
  match goal with
  | |- context [ setitem_from 1 ?t ?v ] =>
      destruct (setitem_from_same_shape 1 t v B [h; p; w]
                  eq_refl eq_refl) as [x [Hx [Hsx Hdx]]]
  end.
  rewrite Hx. cbn [rbind]. rewrite Hsx. cbn [skipn].
  rewrite (reshape_merge_ok x B h [p; w] Hsx).
  eexists. split; [reflexivity|]. split; [cbn [shape]; congruence|].
  intros i ip k Hi Hip Hk. cbn [data].
  assert (Hidx : in_bounds [p; w] [ip; k] = true).
  { cbn. apply andb_true_iff. split; [apply Nat.ltb_lt; assumption|].
    apply andb_true_iff. split; [apply Nat.ltb_lt; assumption | reflexivity]. }
  assert (Hb : in_bounds [(B * h)%nat; p; w] [i; ip; k] = true)
    by (apply in_bounds_cons; split; assumption).
  rewrite (unflat_split B h [p; w] i [ip; k] Hb).
  assert (Hh : (0 < h)%nat) by nia.
  assert (Hdiv : (i / h < B)%nat)
    by (apply Nat.Div0.div_lt_upper_bound; lia).
  assert (Hmod : (i mod h < h)%nat) by (apply Nat.mod_upper_bound; lia).
  rewrite Hdx
    by (apply in_bounds_cons; split;
        [assumption | apply in_bounds_cons; split; assumption]).
  cbn [data].
  assert (Hrow : forall j, (j < B)%nat ->
            unflat_index [(B * h)%nat; p; w]
              (flat_index [B; h; p; w] [j; (i mod h)%nat; ip; k])
            = [(j * h + i mod h)%nat; ip; k]).
  { intros j Hj. apply unflat_merge.
    apply in_bounds_cons; split;
      [assumption | apply in_bounds_cons; split; assumption]. }
  destruct (i / h <? 1)%nat eqn:E1.
  - apply Nat.ltb_lt in E1.
    assert (Hih : (i < h)%nat).
    { pose proof (Nat.div_mod_eq i h). nia. }
    destruct (Nat.ltb_spec i h) as [_|]; [| lia].
    rewrite Hrow by assumption.
    replace (i / h * h + i mod h)%nat with i
      by (pose proof (Nat.div_mod_eq i h); nia).
    reflexivity.
  - apply Nat.ltb_ge in E1.
    assert (Hih : (h <= i)%nat).
    { pose proof (Nat.div_mod_eq i h). nia. }
    destruct (Nat.ltb_spec i h) as [|_]; [lia|].
    cbv zeta.
    assert (Hin : in_bounds [(B - 1)%nat; h; p; w]
                    [(i / h - 1)%nat; (i mod h)%nat; ip; k] = true).
    { apply in_bounds_cons; split;
        [lia | apply in_bounds_cons; split; assumption]. }
    rewrite !(broadcast_index_id _ _ Hin).
    replace (1 + (i / h - 1))%nat with (i / h)%nat by lia.
    rewrite Hrow by assumption.
    replace (i / h * h + i mod h)%nat with i
      by (pose proof (Nat.div_mod_eq i h); nia).
    replace (if (w =? 1)%nat then w else w) with w
      by (destruct (w =? 1)%nat; reflexivity).
    unfold blend, contraction. f_equal. f_equal.
    apply sum_ext. intros iw Hiw.
    assert (Hiw' : (if (w =? 1)%nat then 0%nat else iw) = iw)
      by (destruct (Nat.eqb_spec w 1); lia).
    rewrite !Hiw'.
    assert (Hz : in_bounds [B; h; p; w] [0%nat; (i mod h)%nat; ip; iw] = true).
    { apply in_bounds_cons; split; [lia|].
      apply in_bounds_cons; split; [assumption|].
      apply in_bounds_cons; split; [assumption|].
      apply in_bounds_cons; split; [assumption | reflexivity]. }
    rewrite (unflat_merge B h [p; w] 0 (i mod h) [ip; iw] Hz).
    reflexivity.
Qed.


(** [forward] of a Replace controller on a cross-attention map. *)
Lemma replace_forward (self : controller num)
      (mapper attn alpha_words : tensor num) (place_in_unet : string)
      (h p w : nat) (l : list (tensor num)) :
  let B := batch_size self in
  cls self = ClsAttentionControlEdit (Replace mapper) ->
  B <> 0%nat ->
  shape attn = [B * h; p; w]%nat ->
  shape mapper = [B - 1; w; w]%nat ->
  getitem_int (cross_replace_alpha self) (cur_step self) = Ok alpha_words ->
  broadcast_shapes (shape alpha_words) [B - 1; h; p; w]%nat
    = Some [B - 1; h; p; w]%nat ->
  dict_get (AttentionStore.location_key true place_in_unet) (step_store self)
    = Ok l ->
  exists out self',
    forward ar attn true place_in_unet self = (Ok out, self')
    /\ shape out = shape attn
    /\ forall i ip k,
         (i < B * h)%nat -> (ip < p)%nat -> (k < w)%nat ->
         data out [i; ip; k]
         = if (i <? h)%nat then data attn [i; ip; k]
           else
             let b := (i / h - 1)%nat in
             blend ar
               (data alpha_words
                  (broadcast_index (shape alpha_words)
                     [b; (i mod h)%nat; ip; k]))
               (contraction ar w
                  (fun iw => data attn [(i mod h)%nat; ip; iw])
                  (fun iw => data mapper [b; iw; k]))
               (data attn [i; ip; k]).
Proof.
  intros B Hcls HB Hs Hm Ha Hbr Hk.
  unfold forward. rewrite Hcls.
  rewrite AttentionControlEdit_forward_unfold.
  rewrite (AttentionStore_forward_returns attn true place_in_unet self
             _ _ _ _ Hs Hk).
  change (replace_cross_attention ar (Replace mapper))
    with (AttentionReplace.replace_cross_attention ar mapper).
  cbn [orb].
  match goal with
  | |- context [ edited_attention ar _ ?c ] => set (self1 := c)
  end.
  assert (H1 : batch_size self1 = B
               /\ cross_replace_alpha self1 = cross_replace_alpha self
               /\ cur_step self1 = cur_step self)
    by (unfold self1; destruct (p <=? 32 ^ 2)%nat; repeat split).
  destruct H1 as [HB1 [Ha1 Hc1]].
  destruct (edited_cross_attention_replace self1 mapper attn alpha_words h p w)
    as [out [Hout [Hso Hdo]]];
    rewrite ?HB1, ?Ha1, ?Hc1; try assumption.
  rewrite Hout. rewrite HB1 in Hdo.
  eexists out, _. split; [reflexivity|]. split; [exact Hso|]. exact Hdo.
Qed.

End Replace.

(** *** Exact arithmetic *)

Lemma qsum_ext (n : nat) (f g : nat -> Q) :
  (forall i, (i < n)%nat -> f i == g i) ->
  Scalar.sum exact n f == Scalar.sum exact n g.
Proof.
  induction n as [|n IH]; intros H; simpl.
  - reflexivity.
  - rewrite IH by (intros i Hi; apply H; lia).
    rewrite (H n) by lia. reflexivity.
Qed.

Lemma qsum_zero (n : nat) (f : nat -> Q) :
  (forall i, (i < n)%nat -> f i == 0) -> Scalar.sum exact n f == 0.
Proof.
  induction n as [|n IH]; intros H; simpl.
  - reflexivity.
  - rewrite IH by (intros i Hi; apply H; lia).
    rewrite (H n) by lia. ring.
Qed.

(** Contracting with the identity matrix selects one term. *)
Lemma contraction_identity_exact (n k : nat) (x m : nat -> Q) :
  (k < n)%nat ->
  (forall i, (i < n)%nat -> m i == if (i =? k)%nat then 1 else 0) ->
  contraction exact n x m == x k.
Proof.
  unfold contraction. intros Hk Hm.
  rewrite (qsum_ext n _ (fun i => x i * (if (i =? k)%nat then 1 else 0)))
    by (intros i Hi; cbn [Scalar.mul exact]; rewrite (Hm i Hi); reflexivity).
  clear Hm. induction n as [|n IH]; [lia|]. simpl.
  destruct (Nat.eq_dec k n) as [->|Hn].
  - rewrite Nat.eqb_refl.
    rewrite qsum_zero.
    + ring.
    + intros i Hi. destruct (Nat.eqb_spec i n); [lia | ring].
  - rewrite IH by lia.
    destruct (Nat.eqb_spec n k); [lia | ring].
Qed.

Lemma blend_one_exact (a e' e : Q) : a == 1 -> blend exact a e' e == e'.
Proof.
  intros Ha. unfold blend.
  cbn [Scalar.add Scalar.mul Scalar.sub Scalar.one exact].
  rewrite Ha. ring.
Qed.

(** *** Single precision *)

Lemma SFmul_one_r (x : spec_float) :
  regular x = true -> SFmul 24 128 x (SFone 24 128) = x.
Proof.
  destruct x as [s|s| |s m e]; cbn [regular]; try discriminate.
  - destruct s; [discriminate|]. reflexivity.
  - destruct s; [discriminate|]. cbn [negb andb].
    unfold bounded, canonical_mantissa. intros H.
    apply andb_true_iff in H. destruct H as [Hc He].
    apply Z.eqb_eq in Hc.
    change (SFone 24 128) with (S754_finite false 8388608 (-23)).
    cbn [SFmul xorb].
    rewrite Pos.mul_comm. cbn [Pos.mul].
    unfold binary_round_aux, shr_fexp.
    cbn [Zdigits2 digits2_pos].
    match goal with
    | |- context [ shr _ (e + -23)%Z ?n ] =>
        replace n with 23%Z by (unfold fexp, emin in *; lia)
    end.
    cbn [shr iter_pos shr_1 shr_record_of_loc orb shr_m loc_of_shr_record
           round_nearest_even Zdigits2].
    replace (e + -23 + 23)%Z with e by lia.
    rewrite Hc, Z.sub_diag. cbn [shr shr_m]. rewrite He. reflexivity.
Qed.

Lemma SFmul_zero_r (x : spec_float) :
  regular x = true -> SFmul 24 128 x (S754_zero false) = S754_zero false.
Proof.
  destruct x as [[|]|s| |[|] m e]; cbn [regular]; try discriminate;
    reflexivity.
Qed.

Lemma SFmul_zero_l (x : spec_float) :
  regular x = true -> SFmul 24 128 (S754_zero false) x = S754_zero false.
Proof.
  destruct x as [[|]|s| |[|] m e]; cbn [regular]; try discriminate;
    reflexivity.
Qed.

Lemma SFadd_zero_r (x : spec_float) :
  regular x = true -> SFadd 24 128 x (S754_zero false) = x.
Proof.
  destruct x as [[|]|s| |[|] m e]; cbn [regular]; try discriminate;
    reflexivity.
Qed.

Lemma SFadd_zero_l (x : spec_float) :
  regular x = true -> SFadd 24 128 (S754_zero false) x = x.
Proof.
  destruct x as [[|]|s| |[|] m e]; cbn [regular]; try discriminate;
    reflexivity.
Qed.

(** Contracting with the identity matrix selects one term, without
    rounding: every other term is a zero. *)
Lemma contraction_identity_binary32 (n k : nat) (x m : nat -> spec_float) :
  (forall i, (i < n)%nat -> regular (x i) = true) ->
  (forall i, (i < n)%nat ->
             m i = if (i =? k)%nat then SFone 24 128 else S754_zero false) ->
  contraction binary32 n x m
  = if (k <? n)%nat then x k else S754_zero false.
Proof.
  unfold contraction. induction n as [|n IH]; intros Hx Hm.
  - reflexivity.
  - cbn [Scalar.sum]. rewrite IH by (intros; (apply Hx || apply Hm); lia).
    rewrite (Hm n) by lia.
    cbn [Scalar.add Scalar.mul binary32].
    destruct (Nat.eqb_spec n k) as [->|Hn].
    + rewrite Nat.ltb_irrefl.
      replace (k <? S k)%nat with true by (symmetry; apply Nat.ltb_lt; lia).
      rewrite SFmul_one_r by (apply Hx; lia).
      apply SFadd_zero_l. apply Hx. lia.
    + rewrite SFmul_zero_r by (apply Hx; lia).
      destruct (Nat.ltb_spec k n) as [Hlt|Hge].
      * replace (k <? S n)%nat with true by (symmetry; apply Nat.ltb_lt; lia).
        apply SFadd_zero_r. apply Hx. lia.
      * replace (k <? S n)%nat with false
          by (symmetry; apply Nat.ltb_ge; lia).
        reflexivity.
Qed.

Lemma blend_one_binary32 (e' e : spec_float) :
  regular e' = true -> regular e = true ->
  blend binary32 (SFone 24 128) e' e = e'.
Proof.
  intros He' He. unfold blend.
  cbn [Scalar.add Scalar.mul Scalar.sub Scalar.one binary32].
  rewrite (SFmul_one_r e' He').
  change (SFsub 24 128 (SFone 24 128) (SFone 24 128)) with (S754_zero false).
  rewrite (SFmul_zero_l e He). apply SFadd_zero_r. exact He'.
Qed.

(** C2.  The Replace strategy on a cross-attention map whose batch axis
    holds the [batch_size] variants with [h] heads each.  In every
    arithmetic, [forward] leaves the rows of the reference variant as they
    are and gives every edited variant [b] the blend
    [E' * activation + (1 - activation) * E], where [E'] is the contraction
    of the reference rows with the mapper of that variant, [E] the edited
    rows of the input and [activation] the entry of
    [cross_replace_alpha[cur_step]] broadcast to the position.  When the
    mapper is the identity matrix and the activation is 1 at every position,
    every row of every edited variant equals the row of the same head of
    the reference: in single precision, for maps of zeros and positive
    finite floats, and in exact arithmetic. *)
Theorem replace_blends_mapped_reference :
  (forall (num : Type) (ar : Scalar.arithmetic num)
          (self : controller num) (mapper attn alpha_words : tensor num)
          (place_in_unet : string) (h p w : nat) (l : list (tensor num)),
      let B := batch_size self in
      cls self = ClsAttentionControlEdit (Replace mapper) ->
      B <> 0%nat ->
      shape attn = [B * h; p; w]%nat ->
      shape mapper = [B - 1; w; w]%nat ->
      getitem_int (cross_replace_alpha self) (cur_step self) = Ok alpha_words ->
      broadcast_shapes (shape alpha_words) [B - 1; h; p; w]%nat
        = Some [B - 1; h; p; w]%nat ->
      dict_get (AttentionStore.location_key true place_in_unet)
        (step_store self) = Ok l ->
      exists out self',
        forward ar attn true place_in_unet self = (Ok out, self')
        /\ shape out = shape attn
        /\ forall i ip k,
             (i < B * h)%nat -> (ip < p)%nat -> (k < w)%nat ->
             data out [i; ip; k]
             = if (i <? h)%nat then data attn [i; ip; k]
               else
                 let b := (i / h - 1)%nat in
                 blend ar
                   (data alpha_words
                      (broadcast_index (shape alpha_words)
                         [b; (i mod h)%nat; ip; k]))
                   (contraction ar w
                      (fun iw => data attn [(i mod h)%nat; ip; iw])
                      (fun iw => data mapper [b; iw; k]))
                   (data attn [i; ip; k]))
  /\ (forall (self : controller spec_float)
             (mapper attn alpha_words : tensor spec_float)
             (place_in_unet : string) (h p w : nat)
             (l : list (tensor spec_float)),
         let B := batch_size self in
         cls self = ClsAttentionControlEdit (Replace mapper) ->
         B <> 0%nat ->
         shape attn = [B * h; p; w]%nat ->
         shape mapper = [B - 1; w; w]%nat ->
         getitem_int (cross_replace_alpha self) (cur_step self)
           = Ok alpha_words ->
         broadcast_shapes (shape alpha_words) [B - 1; h; p; w]%nat
           = Some [B - 1; h; p; w]%nat ->
         dict_get (AttentionStore.location_key true place_in_unet)
           (step_store self) = Ok l ->
         (forall b iw k, (b < B - 1)%nat -> (iw < w)%nat -> (k < w)%nat ->
            data mapper [b; iw; k]
            = if (iw =? k)%nat then SFone 24 128 else S754_zero false) ->
         (forall idx, in_bounds [B - 1; h; p; w]%nat idx = true ->
            data alpha_words (broadcast_index (shape alpha_words) idx)
            = SFone 24 128) ->
         (forall i ip k, (i < B * h)%nat -> (ip < p)%nat -> (k < w)%nat ->
            regular (data attn [i; ip; k]) = true) ->
         exists out self',
           forward binary32 attn true place_in_unet self = (Ok out, self')
           /\ forall i ip k,
                (i < B * h)%nat -> (ip < p)%nat -> (k < w)%nat ->
                data out [i; ip; k] = data attn [(i mod h)%nat; ip; k])
  /\ (forall (self : controller Q) (mapper attn alpha_words : tensor Q)
             (place_in_unet : string) (h p w : nat) (l : list (tensor Q)),
         let B := batch_size self in
         cls self = ClsAttentionControlEdit (Replace mapper) ->
         B <> 0%nat ->
         shape attn = [B * h; p; w]%nat ->
         shape mapper = [B - 1; w; w]%nat ->
         getitem_int (cross_replace_alpha self) (cur_step self)
           = Ok alpha_words ->
         broadcast_shapes (shape alpha_words) [B - 1; h; p; w]%nat
           = Some [B - 1; h; p; w]%nat ->
         dict_get (AttentionStore.location_key true place_in_unet)
           (step_store self) = Ok l ->
         (forall b iw k, (b < B - 1)%nat -> (iw < w)%nat -> (k < w)%nat ->
            data mapper [b; iw; k] == if (iw =? k)%nat then 1 else 0) ->
         (forall idx, in_bounds [B - 1; h; p; w]%nat idx = true ->
            data alpha_words (broadcast_index (shape alpha_words) idx) == 1) ->
         exists out self',
           forward exact attn true place_in_unet self = (Ok out, self')
           /\ forall i ip k,
                (i < B * h)%nat -> (ip < p)%nat -> (k < w)%nat ->
                data out [i; ip; k] == data attn [(i mod h)%nat; ip; k]).
Proof.
  assert (Hpos : forall B h p w i ip k : nat,
             (i < B * h)%nat -> (ip < p)%nat -> (k < w)%nat -> (h <= i)%nat ->
             (i mod h < B * h)%nat
             /\ (i / h - 1 < B - 1)%nat
             /\ in_bounds [B - 1; h; p; w]%nat
                  [(i / h - 1)%nat; (i mod h)%nat; ip; k] = true).
  { intros B h p w i ip k Hi Hip Hk Hge.
    assert (Hh : (0 < h)%nat) by nia.
    assert (Hdiv : (i / h < B)%nat)
      by (apply Nat.Div0.div_lt_upper_bound; lia).
    assert (Hdiv1 : (1 <= i / h)%nat)
      by (apply Nat.div_le_lower_bound; lia).
    assert (Hmod : (i mod h < h)%nat) by (apply Nat.mod_upper_bound; lia).
    split; [nia|]. split; [lia|].
    apply in_bounds_cons; split; [lia|].
    apply in_bounds_cons; split; [assumption|].
    apply in_bounds_cons; split; [assumption|].
    apply in_bounds_cons; split; [assumption | reflexivity]. }
  split; [| split].
  - intros num ar. apply replace_forward.
  - intros self mapper attn alpha_words place h p w l B
           Hcls HB Hs Hm Ha Hbr Hk Hid Hone Hreg.
    destruct (replace_forward binary32 self mapper attn alpha_words place
                h p w l Hcls HB Hs Hm Ha Hbr Hk)
      as [out [self' [Hcall [_ Hdata]]]].
    exists out, self'. split; [exact Hcall|].
    intros i ip k Hi Hip Hkw. rewrite (Hdata i ip k Hi Hip Hkw).
    destruct (Nat.ltb_spec i h) as [Hlt|Hge].
    + rewrite Nat.mod_small by assumption. reflexivity.
    + cbv zeta.
      destruct (Hpos B h p w i ip k Hi Hip Hkw Hge) as [Hrow [Hb Hin]].
      fold B in Hone. rewrite (Hone _ Hin).
      rewrite (contraction_identity_binary32 w k)
        by (intros iw Hiw; (apply Hreg || apply Hid); assumption).
      replace (k <? w)%nat with true by (symmetry; apply Nat.ltb_lt; lia).
      apply blend_one_binary32; apply Hreg; assumption.
  - intros self mapper attn alpha_words place h p w l B
           Hcls HB Hs Hm Ha Hbr Hk Hid Hone.
    destruct (replace_forward exact self mapper attn alpha_words place
                h p w l Hcls HB Hs Hm Ha Hbr Hk)
      as [out [self' [Hcall [_ Hdata]]]].
    exists out, self'. split; [exact Hcall|].
    intros i ip k Hi Hip Hkw. rewrite (Hdata i ip k Hi Hip Hkw).
    destruct (Nat.ltb_spec i h) as [Hlt|Hge].
    + rewrite Nat.mod_small by assumption. reflexivity.
    + cbv zeta.
      destruct (Hpos B h p w i ip k Hi Hip Hkw Hge) as [Hrow [Hb Hin]].
      etransitivity; [apply blend_one_exact; apply Hone; exact Hin|].
      apply (contraction_identity_exact w k
               (fun iw => data attn [(i mod h)%nat; ip; iw])
               (fun iw => data mapper [(i / h - 1)%nat; iw; k]));
        [assumption|].
      intros iw Hiw. apply Hid; assumption.
Qed.

(** ** The equalizer and the Reweight strategy *)

Lemma last_position_none (j : nat) (inds : list nat) (k : nat) :
  last_position j inds k = None <-> existsb (Nat.eqb j) inds = false.
Proof.
  revert k. induction inds as [|i inds IH]; intros k; simpl.
  - tauto.
  - rewrite (Nat.eqb_sym j i).
    destruct (last_position j inds (S k)) eqn:E.
    + assert (existsb (Nat.eqb j) inds <> false)
        by (intro H; apply (proj2 (IH (S k))) in H; congruence).
      destruct (existsb (Nat.eqb j) inds); [| congruence].
      rewrite orb_true_r. split; discriminate.
    + apply (proj1 (IH (S k))) in E. rewrite E, orb_false_r.
      destruct (i =? j)%nat; split; congruence.
Qed.

Lemma broadcast_rev_longer (r1 r2 : list nat) (a : nat) :
  (List.length r2 <= List.length r1)%nat ->
  broadcast_rev (r1 ++ [a]) r2
  = option_map (fun r => r ++ [a]) (broadcast_rev r1 r2).
Proof.
  revert r2. induction r1 as [|d1 r1 IH]; intros [|d2 r2] Hlen;
    simpl in Hlen; try lia.
  - reflexivity.
  - reflexivity.
  - change (broadcast_rev ((d1 :: r1) ++ [a]) (d2 :: r2))
      with (match broadcast_rev (r1 ++ [a]) r2, broadcast_dim d1 d2 with
            | Some r, Some d => Some (d :: r)
            | _, _ => None
            end).
    rewrite IH by lia. simpl.
    destruct (broadcast_rev r1 r2); [| reflexivity].
    destruct (broadcast_dim d1 d2); reflexivity.
Qed.

(** An operand of lower rank is aligned at the last axes. *)
Lemma broadcast_shapes_longer (a : nat) (s1 s2 : list nat) :
  (List.length s2 <= List.length s1)%nat ->
  broadcast_shapes (a :: s1) s2 = option_map (cons a) (broadcast_shapes s1 s2).
Proof.
  intros Hlen. unfold broadcast_shapes. simpl rev.
  rewrite broadcast_rev_longer by (rewrite !length_rev; assumption).
  destruct (broadcast_rev (rev s1) (rev s2)); simpl; [| reflexivity].
  rewrite rev_app_distr. reflexivity.
Qed.

Lemma broadcast_index_longer (s : list nat) (i : nat) (idx : list nat) :
  (List.length s <= List.length idx)%nat ->
  broadcast_index s (i :: idx) = broadcast_index s idx.
Proof.
  intros Hlen. unfold broadcast_index.
  change (List.length (i :: idx)) with (S (List.length idx)).
  rewrite (Nat.sub_succ_l _ _ Hlen). reflexivity.
Qed.

Section Reweight.

Context {num : Type} (ar : Scalar.arithmetic num).

(** The columns selected by one word get the single value. *)
Lemma setitem_columns_single (t : tensor num) (inds : list nat) (v : num)
      (c : nat) :
  shape t = [1; c]%nat ->
  Forall (fun i => (i < c)%nat) inds ->
  exists t',
    setitem_columns t inds (tensor_of_list ar [v]) = Ok t'
    /\ shape t' = [1; c]%nat
    /\ forall i j,
         data t' [i; j]
         = if existsb (Nat.eqb j) inds then v else data t [i; j].
Proof.
  intros Hs Hin. unfold setitem_columns. rewrite Hs.
  replace (forallb (fun i => (i <? c)%nat) inds) with true.
  - cbn [tensor_of_list shape List.length strip_leading_ones].
    replace (expandable_to [] [1%nat; List.length inds]) with true
      by (unfold expandable_to, broadcast_shapes; cbn;
          rewrite shape_eqb_refl; reflexivity).
    eexists. split; [reflexivity|]. split; [reflexivity|].
    intros i j. cbn [data].
    destruct (last_position j inds 0) eqn:E.
    + assert (existsb (Nat.eqb j) inds <> false)
        by (intro H; apply (proj2 (last_position_none j inds 0)) in H;
            congruence).
      destruct (existsb (Nat.eqb j) inds); [reflexivity | congruence].
    + apply (proj1 (last_position_none j inds 0)) in E. rewrite E.
      reflexivity.
  - symmetry. apply forallb_forall. intros x Hx.
    apply Nat.ltb_lt. rewrite Forall_forall in Hin. auto.
Qed.

(** [get_equalizer] for one selected word and one value. *)
Lemma get_equalizer_one_word get_word_inds text w inds (v : num) :
  get_word_inds text w = Ok inds ->
  Forall (fun i => (i < 77)%nat) inds ->
  exists equalizer,
    get_equalizer ar get_word_inds text (OneWord w) [v] = Ok equalizer
    /\ shape equalizer = [1; 77]%nat
    /\ forall i j,
         data equalizer [i; j]
         = if existsb (Nat.eqb j) inds then v else Scalar.one ar.
Proof.
  intros Hw Hin. unfold get_equalizer. cbn [equalize_words List.length].
  rewrite Hw. cbn [rbind].
  destruct (setitem_columns_single (ones ar 1 77) inds v 77 eq_refl Hin)
    as [t' [Ht [Hs Hd]]].
  rewrite Ht. cbn [rbind].
  exists t'. split; [reflexivity|]. split; [exact Hs|].
  intros i j. rewrite Hd. reflexivity.
Qed.

(** Reweight with the equalizer of one word: the base replacement times
    the value at the positions of the word and times one elsewhere. *)
Lemma reweight_with_one_word
      (get_word_inds : string -> word -> result (list nat))
      (text : string) (w : word) (inds : list nat) (v : num)
      (attn_base att_replace : tensor num) (h p : nat) :
  get_word_inds text w = Ok inds ->
  Forall (fun i => (i < 77)%nat) inds ->
  shape attn_base = [h; p; 77]%nat ->
  exists equalizer,
    get_equalizer ar get_word_inds text (OneWord w) [v] = Ok equalizer
    /\ (forall j, (j < 77)%nat ->
          data equalizer [0%nat; j]
          = if existsb (Nat.eqb j) inds then v else Scalar.one ar)
    /\ (forall prev,
          replace_cross_attention ar (Reweight equalizer prev)
            attn_base att_replace
          = (r <- match prev with
                  | Some prior =>
                      replace_cross_attention ar prior attn_base att_replace
                  | None => Ok attn_base
                  end ;;
             b <- AttentionReweight.base_view r ;;
             e <- AttentionReweight.equalizer_view equalizer ;;
             binop (Scalar.mul ar) b e)%res)
    /\ (exists out,
          replace_cross_attention ar (Reweight equalizer None)
            attn_base att_replace = Ok out
          /\ shape out = [1; h; p; 77]%nat
          /\ forall ih ip k,
               (ih < h)%nat -> (ip < p)%nat -> (k < 77)%nat ->
               data out [0%nat; ih; ip; k]
               = Scalar.mul ar (data attn_base [ih; ip; k])
                   (if existsb (Nat.eqb k) inds then v else Scalar.one ar))
    /\ (forall (prior : strategy num) (r : tensor num) (b : nat),
          replace_cross_attention ar prior attn_base att_replace = Ok r ->
          shape r = [b; h; p; 77]%nat ->
          exists out,
            replace_cross_attention ar (Reweight equalizer (Some prior))
              attn_base att_replace = Ok out
            /\ shape out = [1; b; h; p; 77]%nat
            /\ forall ib ih ip k,
                 (ib < b)%nat -> (ih < h)%nat -> (ip < p)%nat -> (k < 77)%nat ->
                 data out [0%nat; ib; ih; ip; k]
                 = Scalar.mul ar (data r [ib; ih; ip; k])
                     (if existsb (Nat.eqb k) inds then v else Scalar.one ar)).
Proof.
  intros Hw Hin Hs.
  destruct (get_equalizer_one_word get_word_inds text w inds v Hw Hin)
    as [equalizer [Heq [Hse Hde]]].
  exists equalizer. split; [exact Heq|].
  split; [intros j _; apply Hde|].
  split; [intros [prior|]; reflexivity|].
  assert (Hbi : forall d i,
             (i < d)%nat -> (if (d =? 1)%nat then 0%nat else i) = i)
    by (intros d i Hi; destruct (Nat.eqb_spec d 1); lia).
  split.
  - cbn [replace_cross_attention].
    unfold AttentionReweight.replace_cross_attention. cbn [rbind].
    unfold AttentionReweight.base_view, AttentionReweight.equalizer_view.
    rewrite Hs, Hse. cbn [List.length Nat.leb rbind].
    unfold binop, unsqueeze0. cbn [shape data]. rewrite Hs.
    broadcast_shape.
    eexists. split; [reflexivity|]. split; [reflexivity|].
    intros ih ip k Hih Hip Hk. cbn [data].
    broadcast_idx. cbn [Nat.eqb tl].
    rewrite (Hbi h ih Hih), (Hbi p ip Hip), Hde. reflexivity.
  - intros prior r b Hr Hsr.
    cbn [replace_cross_attention]. rewrite Hr.
    unfold AttentionReweight.replace_cross_attention. cbn [rbind].
    unfold AttentionReweight.base_view, AttentionReweight.equalizer_view.
    rewrite Hsr, Hse. cbn [List.length Nat.leb rbind].
    unfold binop, unsqueeze0. cbn [shape data]. rewrite Hsr.
    rewrite broadcast_shapes_longer by (cbn [List.length]; lia).
    broadcast_shape. cbn [option_map].
    eexists. split; [reflexivity|]. split; [reflexivity|].
    intros ib ih ip k Hib Hih Hip Hk. cbn [data].
    rewrite (broadcast_index_longer [1; 1; 1; 77]%nat)
      by (cbn [List.length]; lia).
    broadcast_idx. cbn [Nat.eqb tl].
    rewrite (Hbi b ib Hib), (Hbi h ih Hih), (Hbi p ip Hip), Hde.
    reflexivity.
Qed.

End Reweight.

(** In single precision the product by [2.0] is exact. *)
Lemma SFmul_two_r (x : spec_float) :
  regular x = true -> SFmul 24 128 x two = SFdouble x.
Proof.
  destruct x as [s|s| |s m e]; cbn [regular]; try discriminate.
  - destruct s; [discriminate|]. reflexivity.
  - destruct s; [discriminate|]. cbn [negb andb].
    unfold bounded, canonical_mantissa. intros H.
    apply andb_true_iff in H. destruct H as [Hc He].
    apply Z.eqb_eq in Hc. apply Z.leb_le in He.
    unfold two. cbn [SFmul xorb SFdouble].
    rewrite Pos.mul_comm. cbn [Pos.mul].
    unfold binary_round_aux, shr_fexp.
    cbn [Zdigits2 digits2_pos].
    destruct (Z.eqb_spec (Z.pos (digits2_pos m)) 24) as [Hd|Hd].
    + match goal with
      | |- context [ shr _ (e + -22)%Z ?n ] =>
          replace n with 23%Z by (unfold fexp, emin in *; lia)
      end.
      cbn [shr iter_pos shr_1 shr_record_of_loc orb shr_m loc_of_shr_record
             round_nearest_even Zdigits2].
      replace (e + -22 + 23)%Z with (e + 1)%Z by lia.
      replace (fexp 24 128 (Z.pos (digits2_pos m) + (e + 1)) - (e + 1))%Z
        with 0%Z by (unfold fexp, emin in *; lia).
      cbn [shr shr_m]. reflexivity.
    + match goal with
      | |- context [ shr _ (e + -22)%Z ?n ] =>
          replace n with 22%Z by (unfold fexp, emin in *; lia)
      end.
      cbn [shr iter_pos shr_1 shr_record_of_loc orb shr_m loc_of_shr_record
             round_nearest_even Zdigits2 digits2_pos].
      replace (e + -22 + 22)%Z with e by lia.
      replace (fexp 24 128 (Z.pos (Pos.succ (digits2_pos m)) + e) - e)%Z
        with 0%Z by (unfold fexp, emin in *; lia).
      cbn [shr shr_m].
      replace (e <=? 128 - 24)%Z with true by (symmetry; apply Z.leb_le; lia).
      reflexivity.
Qed.

(** C6.  The equalizer built by [get_equalizer] for one selected word and
    one value is that value on the token positions of the word and 1
    elsewhere.  With it, Reweight first takes the base replacement from the
    wrapped previous controller (or the reference map itself when there is
    none) and multiplies it by the equalizer broadcast over heads and query
    positions.  For the value 2.0, used on the reference map or on top of a
    prior whose replacement is the reference map for every edited variant,
    the output is exactly twice the reference attention at the positions of
    the word and the reference attention everywhere else: in single
    precision, for maps of zeros and positive finite floats, and in exact
    arithmetic. *)
Theorem reweight_doubles_selected_word :
  (forall (num : Type) (ar : Scalar.arithmetic num)
          (get_word_inds : string -> word -> result (list nat))
          (text : string) (w : word) (inds : list nat) (v : num)
          (attn_base att_replace : tensor num) (h p : nat),
      get_word_inds text w = Ok inds ->
      Forall (fun i => (i < 77)%nat) inds ->
      shape attn_base = [h; p; 77]%nat ->
      exists equalizer,
        get_equalizer ar get_word_inds text (OneWord w) [v] = Ok equalizer
        /\ (forall j, (j < 77)%nat ->
              data equalizer [0%nat; j]
              = if existsb (Nat.eqb j) inds then v else Scalar.one ar)
        /\ (forall prev,
              replace_cross_attention ar (Reweight equalizer prev)
                attn_base att_replace
              = (r <- match prev with
                      | Some prior =>
                          replace_cross_attention ar prior attn_base att_replace
                      | None => Ok attn_base
                      end ;;
                 b <- AttentionReweight.base_view r ;;
                 e <- AttentionReweight.equalizer_view equalizer ;;
                 binop (Scalar.mul ar) b e)%res))
  /\ (forall (get_word_inds : string -> word -> result (list nat))
             (text : string) (w : word) (inds : list nat)
             (attn_base att_replace : tensor spec_float) (h p : nat),
         get_word_inds text w = Ok inds ->
         Forall (fun i => (i < 77)%nat) inds ->
         shape attn_base = [h; p; 77]%nat ->
         (forall ih ip k, (ih < h)%nat -> (ip < p)%nat -> (k < 77)%nat ->
            regular (data attn_base [ih; ip; k]) = true) ->
         exists equalizer,
           get_equalizer binary32 get_word_inds text (OneWord w) [two]
             = Ok equalizer
           /\ (exists out,
                 replace_cross_attention binary32 (Reweight equalizer None)
                   attn_base att_replace = Ok out
                 /\ forall ih ip k,
                      (ih < h)%nat -> (ip < p)%nat -> (k < 77)%nat ->
                      data out [0%nat; ih; ip; k]
                      = if existsb (Nat.eqb k) inds
                        then SFdouble (data attn_base [ih; ip; k])
                        else data attn_base [ih; ip; k])
           /\ (forall (prior : strategy spec_float) (r : tensor spec_float)
                      (b : nat),
                 replace_cross_attention binary32 prior attn_base att_replace
                   = Ok r ->
                 shape r = [b; h; p; 77]%nat ->
                 (forall ib ih ip k,
                    (ib < b)%nat -> (ih < h)%nat -> (ip < p)%nat ->
                    (k < 77)%nat ->
                    data r [ib; ih; ip; k] = data attn_base [ih; ip; k]) ->
                 exists out,
                   replace_cross_attention binary32
                     (Reweight equalizer (Some prior)) attn_base att_replace
                     = Ok out
                   /\ forall ib ih ip k,
                        (ib < b)%nat -> (ih < h)%nat -> (ip < p)%nat ->
                        (k < 77)%nat ->
                        data out [0%nat; ib; ih; ip; k]
                        = if existsb (Nat.eqb k) inds
                          then SFdouble (data attn_base [ih; ip; k])
                          else data attn_base [ih; ip; k]))
  /\ (forall (get_word_inds : string -> word -> result (list nat))
             (text : string) (w : word) (inds : list nat)
             (attn_base att_replace : tensor Q) (h p : nat),
         get_word_inds text w = Ok inds ->
         Forall (fun i => (i < 77)%nat) inds ->
         shape attn_base = [h; p; 77]%nat ->
         exists equalizer,
           get_equalizer exact get_word_inds text (OneWord w) [2] = Ok equalizer
           /\ (exists out,
                 replace_cross_attention exact (Reweight equalizer None)
                   attn_base att_replace = Ok out
                 /\ forall ih ip k,
                      (ih < h)%nat -> (ip < p)%nat -> (k < 77)%nat ->
                      data out [0%nat; ih; ip; k]
                      == if existsb (Nat.eqb k) inds
                         then 2 * data attn_base [ih; ip; k]
                         else data attn_base [ih; ip; k])
           /\ (forall (prior : strategy Q) (r : tensor Q) (b : nat),
                 replace_cross_attention exact prior attn_base att_replace
                   = Ok r ->
                 shape r = [b; h; p; 77]%nat ->
                 (forall ib ih ip k,
                    (ib < b)%nat -> (ih < h)%nat -> (ip < p)%nat ->
                    (k < 77)%nat ->
                    data r [ib; ih; ip; k] == data attn_base [ih; ip; k]) ->
                 exists out,
                   replace_cross_attention exact
                     (Reweight equalizer (Some prior)) attn_base att_replace
                     = Ok out
                   /\ forall ib ih ip k,
                        (ib < b)%nat -> (ih < h)%nat -> (ip < p)%nat ->
                        (k < 77)%nat ->
                        data out [0%nat; ib; ih; ip; k]
                        == if existsb (Nat.eqb k) inds
                           then 2 * data attn_base [ih; ip; k]
                           else data attn_base [ih; ip; k])).
Proof.
  split; [| split].
  - intros num ar gwi text w inds v attn_base att_replace h p Hw Hin Hs.
    destruct (reweight_with_one_word ar gwi text w inds v attn_base
                att_replace h p Hw Hin Hs)
      as [equalizer [Heq [Hde [Hdel _]]]].
    exists equalizer. repeat split; assumption.
  - intros gwi text w inds attn_base att_replace h p Hw Hin Hs Hreg.
    destruct (reweight_with_one_word binary32 gwi text w inds two attn_base
                att_replace h p Hw Hin Hs)
      as [equalizer [Heq [_ [_ [[out [Hout [_ Hdata]]] Hprior]]]]].
    exists equalizer. split; [exact Heq|]. split.
    + exists out. split; [exact Hout|].
      intros ih ip k Hih Hip Hk. rewrite (Hdata ih ip k Hih Hip Hk).
      cbn [Scalar.mul Scalar.one binary32].
      destruct (existsb (Nat.eqb k) inds);
        [apply SFmul_two_r | apply SFmul_one_r]; apply Hreg; assumption.
    + intros prior r b Hr Hsr Hid.
      destruct (Hprior prior r b Hr Hsr) as [out' [Hout' [_ Hdata']]].
      exists out'. split; [exact Hout'|].
      intros ib ih ip k Hib Hih Hip Hk.
      rewrite (Hdata' ib ih ip k Hib Hih Hip Hk),
        (Hid ib ih ip k Hib Hih Hip Hk).
      cbn [Scalar.mul Scalar.one binary32].
      destruct (existsb (Nat.eqb k) inds);
        [apply SFmul_two_r | apply SFmul_one_r]; apply Hreg; assumption.
  - intros gwi text w inds attn_base att_replace h p Hw Hin Hs.
    destruct (reweight_with_one_word exact gwi text w inds 2 attn_base
                att_replace h p Hw Hin Hs)
      as [equalizer [Heq [_ [_ [[out [Hout [_ Hdata]]] Hprior]]]]].
    exists equalizer. split; [exact Heq|]. split.
    + exists out. split; [exact Hout|].
      intros ih ip k Hih Hip Hk. rewrite (Hdata ih ip k Hih Hip Hk).
      cbn [Scalar.mul Scalar.one exact].
      destruct (existsb (Nat.eqb k) inds); ring.
    + intros prior r b Hr Hsr Hid.
      destruct (Hprior prior r b Hr Hsr) as [out' [Hout' [_ Hdata']]].
      exists out'. split; [exact Hout'|].
      intros ib ih ip k Hib Hih Hip Hk.
      rewrite (Hdata' ib ih ip k Hib Hih Hip Hk).
      cbn [Scalar.mul Scalar.one exact].
      rewrite (Hid ib ih ip k Hib Hih Hip Hk).
      destruct (existsb (Nat.eqb k) inds); ring.
Qed.

(** ** Invariants of a run *)

Section Invariants.

Context {num : Type}.

Lemma preserves_ret {A} P (a : A) : preserves (num:=num) P (ret a).
Proof. intros self H. exact H. Qed.

Lemma preserves_raise {A} P (e : exn) : preserves (num:=num) (A:=A) P (raise e).
Proof. intros self H. exact H. Qed.

Lemma preserves_lift {A} P (r : result A) : preserves (num:=num) P (lift r).
Proof. intros self H. exact H. Qed.

Lemma preserves_gets {A} P (f : controller num -> A) : preserves P (gets f).
Proof. intros self H. exact H. Qed.

Lemma preserves_modify P (g : controller num -> controller num) :
  (forall self, P self -> P (g self)) -> preserves P (modify g).
Proof. intros Hg self H. apply Hg. exact H. Qed.

Lemma preserves_bind {A B} P (m : M num A) (k : A -> M num B) :
  preserves P m -> (forall a, preserves P (k a)) -> preserves P (bind m k).
Proof.
  intros Hm Hk self H. unfold bind.
  specialize (Hm self H). destruct (m self) as [[a|e] self1]; simpl in *.
  - apply Hk. exact Hm.
  - exact Hm.
Qed.

Lemma preserves_for_each {A} P (l : list A) (body : A -> M num unit) :
  (forall x, preserves P (body x)) -> preserves P (for_each l body).
Proof.
  intros Hb. induction l as [|x l IH]; simpl.
  - apply preserves_ret.
  - apply preserves_bind; auto.
Qed.

End Invariants.

Ltac preserves_step :=
  first
    [ apply preserves_ret
    | apply preserves_raise
    | apply preserves_lift
    | apply preserves_gets
    | apply preserves_modify; let H := fresh in intros ? H; exact H
    | apply preserves_for_each; intro
    | apply preserves_bind; [| intro]
    | match goal with
      | |- preserves _ (if ?b then _ else _) => destruct b
      | |- preserves _ (match ?x with _ => _ end) => destruct x
      end ].


Section Runs.

Context {num : Type} (ar : Scalar.arithmetic num).

Lemma step_callback_state normalized_maps x_t self :
  snd (step_callback ar normalized_maps x_t self) = self.
Proof.
  unfold step_callback, AttentionControlEdit.step_callback.
  destruct (cls self); try reflexivity.
  unfold bind, gets, id, lift. destruct (local_blend self); reflexivity.
Qed.

(** An invariant that the parts of an interception preserve holds after it. *)
Lemma call_preserves (LOW_RESOURCE : bool) (P : controller num -> Prop)
      attn is_cross place :
  (forall t, preserves P (forward ar t is_cross place)) ->
  (forall self, P self ->
     P (set_cur_att_layer (cur_att_layer self + 1) self)) ->
  (forall self, P self ->
     P (snd (between_steps ar
               (set_cur_step (cur_step self + 1)
                  (set_cur_att_layer 0 self))))) ->
  preserves P (call ar LOW_RESOURCE attn is_cross place).
Proof.
  intros Hf Hl Hb self HP. unfold call. rewrite call_unfold.
  assert (Hphase : P (snd (transform_phase LOW_RESOURCE (forward ar) attn
                             is_cross place self))).
  { unfold transform_phase.
    destruct (_ <=? _)%Z; [| exact HP].
    destruct LOW_RESOURCE; [apply Hf; exact HP|].
    revert self HP.
    apply preserves_bind; [apply preserves_lift | intro h].
    apply preserves_bind; [apply preserves_lift | intro half].
    apply preserves_bind; [apply Hf | intro v].
    apply preserves_lift. }
  destruct (transform_phase _ _ _ _ _ _) as [[a|e] self1]; cbn [snd] in *;
    [| exact Hphase].
  cbv zeta.
  destruct (_ =? _)%Z; [| apply Hl; exact Hphase].
  specialize (Hb _ (Hl _ Hphase)).
  destruct (between_steps ar _) as [[u|e] self3]; exact Hb.
Qed.

(** ** The memory bound of the accumulator *)

Lemma dict_get_small key (st : store num) l :
  all_small st -> dict_get key st = Ok l ->
  Forall (fun t => is_small t = true) l.
Proof.
  intros Hst. induction Hst as [|[k v] st Hv Hst IH]; simpl; [discriminate|].
  destruct (String.eqb key k); [intros [= <-]; exact Hv | exact IH].
Qed.

Lemma dict_set_small key (st : store num) l :
  all_small st -> Forall (fun t => is_small t = true) l ->
  all_small (dict_set key l st).
Proof.
  intros Hst Hl. induction Hst as [|[k v] st Hv Hst IH]; simpl.
  - constructor.
  - destruct (String.eqb key k); constructor; auto.
Qed.

Lemma list_set_small i (a : tensor num) l :
  Forall (fun t => is_small t = true) l -> is_small a = true ->
  Forall (fun t => is_small t = true) (list_set i a l).
Proof.
  intros Hl Ha. revert i. induction Hl as [|x l Hx Hl IH]; intros i.
  - destruct i; constructor.
  - destruct i; simpl; constructor; auto.
Qed.

Lemma removelast_small (l : list (tensor num)) :
  Forall (fun t => is_small t = true) l ->
  Forall (fun t => is_small t = true) (removelast l).
Proof.
  induction 1 as [|x l Hx Hl IH]; simpl; [constructor|].
  destruct l; [constructor | constructor; auto].
Qed.

Lemma empty_store_small : all_small (num:=num) AttentionStore.get_empty_store.
Proof. repeat constructor. Qed.

Lemma AttentionStore_forward_small attn is_cross place :
  preserves (num:=num) stores_small
    (AttentionStore.forward attn is_cross place).
Proof.
  intros self [Hs Ha]. unfold AttentionStore.forward.
  unfold bind at 1, lift at 1.
  destruct (shape_at attn 1) as [d1|e] eqn:Ed; [| split; assumption].
  destruct (d1 <=? 32 ^ 2)%nat eqn:El; [| split; assumption].
  unfold bind, gets, id, lift, modify, ret.
  destruct (dict_get _ (step_store self)) as [l|e] eqn:Eg;
    [| split; assumption].
  split; [| exact Ha]. cbn.
  apply dict_set_small; [exact Hs|].
  apply Forall_app. split; [exact (dict_get_small _ _ _ Hs Eg)|].
  constructor; [| constructor].
  unfold is_small. unfold shape_at in Ed.
  destruct (nth_error (shape attn) 1); [| discriminate].
  injection Ed as ->. exact El.
Qed.

Lemma write_through_small attn written key :
  preserves (num:=num) stores_small
    (AttentionControlEdit.write_through attn written key).
Proof.
  intros self [Hs Ha]. unfold AttentionControlEdit.write_through.
  unfold bind, gets, id.
  destruct (shape_at attn 1) as [d1|e] eqn:Ed; [| split; assumption].
  destruct (dict_get key (step_store self)) as [l|e] eqn:Eg;
    [| split; assumption].
  destruct (d1 <=? 32 ^ 2)%nat eqn:El; [| split; assumption].
  split; [| exact Ha]. cbn.
  apply dict_set_small; [exact Hs|].
  apply Forall_app. split.
  - apply removelast_small. exact (dict_get_small _ _ _ Hs Eg).
  - constructor; [| constructor].
    unfold is_small. cbn [shape]. unfold shape_at in Ed.
    destruct (nth_error (shape attn) 1); [| discriminate].
    injection Ed as ->. exact El.
Qed.

Lemma forward_small attn is_cross place :
  preserves (num:=num) stores_small (forward ar attn is_cross place).
Proof.
  intros self H. unfold forward. destruct (cls self).
  - exact H.
  - exact H.
  - apply AttentionStore_forward_small. exact H.
  - rewrite AttentionControlEdit_forward_unfold.
    pose proof (AttentionStore_forward_small attn is_cross place self H) as H1.
    destruct (AttentionStore.forward attn is_cross place self)
      as [[a|e] self1]; cbn [snd] in *; [| exact H1].
    destruct (is_cross || _); [| exact H1].
    destruct (edited_attention ar _ _ _ _); [| exact H1].
    cbn [snd]. apply write_through_small. exact H1.
Qed.

Lemma inplace_shape {A B} (f : A -> B -> A) (a a' : tensor A) (b : tensor B) :
  inplace f a b = Ok a' -> shape a' = shape a.
Proof.
  unfold inplace. destruct (expandable_to _ _); [| discriminate].
  intros [= <-]. reflexivity.
Qed.

Lemma accumulate_small key i :
  preserves (num:=num) stores_small (AttentionStore.accumulate ar key i).
Proof.
  intros self [Hs Ha]. unfold AttentionStore.accumulate.
  unfold bind, gets, id, lift, modify.
  destruct (dict_get key (attention_store self)) as [acc|e] eqn:Eacc;
    [| split; assumption].
  destruct (list_get acc i) as [a|e] eqn:Ea; [| split; assumption].
  destruct (dict_get key (step_store self)) as [stp|e]; [| split; assumption].
  destruct (list_get stp i) as [s|e]; [| split; assumption].
  destruct (inplace (Scalar.add ar) a s) as [a'|e] eqn:Ei;
    [| split; assumption].
  split; [exact Hs|]. cbn.
  pose proof (dict_get_small _ _ _ Ha Eacc) as Hacc.
  apply dict_set_small; [exact Ha|].
  apply list_set_small; [exact Hacc|].
  unfold is_small. rewrite (inplace_shape _ _ _ _ Ei).
  unfold list_get in Ea.
  destruct (nth_error acc i) as [x|] eqn:En; [| discriminate].
  injection Ea as ->. apply nth_error_In in En.
  rewrite Forall_forall in Hacc. exact (Hacc a En).
Qed.

Lemma preserves_bind_at {A B} P (m : M num A) (k : A -> M num B) self :
  P (snd (m self)) -> (forall a, preserves P (k a)) -> P (snd (bind m k self)).
Proof.
  intros Hm Hk. unfold bind.
  destruct (m self) as [[a|e] self1]; simpl in *.
  - apply Hk. exact Hm.
  - exact Hm.
Qed.

Lemma AttentionStore_between_steps_small :
  preserves (num:=num) stores_small (AttentionStore.between_steps ar).
Proof.
  intros self H. unfold AttentionStore.between_steps.
  unfold bind at 1, gets at 1, id.
  apply preserves_bind_at.
  - destruct (List.length (attention_store self) =? 0)%nat.
    + destruct H as [Hs Ha]. split; exact Hs.
    + apply (preserves_for_each stores_small
               (dict_keys (attention_store self))); [| exact H].
      intro key.
      apply preserves_bind; [apply preserves_gets | intro acc].
      apply preserves_bind; [apply preserves_lift | intro acc0].
      apply preserves_for_each. intro i. apply accumulate_small.
  - intros _. apply preserves_modify. intros c [Hs Ha].
    split; [exact empty_store_small | exact Ha].
Qed.

Lemma between_steps_small :
  preserves (num:=num) stores_small (between_steps ar).
Proof.
  intros self H. unfold between_steps.
  destruct (cls self) eqn:E; cbn [cls set_between_steps_calls]; rewrite ?E;
    first [ exact H | apply AttentionStore_between_steps_small; exact H ].
Qed.

Lemma reset_small : preserves (num:=num) stores_small reset.
Proof.
  intros self [Hs Ha]. unfold reset.
  destruct (cls self); cbn; split;
    first [ assumption | exact empty_store_small | constructor ].
Qed.

Lemma perform_small LOW_RESOURCE normalized_maps o self :
  stores_small self ->
  stores_small (perform ar LOW_RESOURCE normalized_maps o self).
Proof.
  intros H. destruct o as [attn is_cross place | x_t | | n]; cbn [perform].
  - apply call_preserves; try exact H.
    + intro t. apply forward_small.
    + intros c Hc. exact Hc.
    + intros c Hc. apply between_steps_small. exact Hc.
  - rewrite step_callback_state. exact H.
  - apply reset_small. exact H.
  - exact H.
Qed.

Lemma run_small LOW_RESOURCE normalized_maps ops self :
  stores_small self ->
  stores_small (run ar LOW_RESOURCE normalized_maps ops self).
Proof.
  unfold run. revert self. induction ops as [|o ops IH]; intros self H; simpl.
  - exact H.
  - apply IH. apply perform_small. exact H.
Qed.

Lemma initialized_small (self : controller num) :
  initialized self -> stores_small self.
Proof.
  intros [Hs [Ha _]]. split.
  - rewrite Hs. exact empty_store_small.
  - rewrite Ha. constructor.
Qed.

Lemma forward_skips_large attn is_cross place self (d : nat) :
  shape_at attn 1 = Ok d -> (32 ^ 2 < d)%nat ->
  step_store (snd (forward ar attn is_cross place self)) = step_store self.
Proof.
  intros Hd Hlt. apply Nat.leb_gt in Hlt.
  assert (Hstore : AttentionStore.forward attn is_cross place self
                   = (Ok attn, self)).
  { unfold AttentionStore.forward, bind, lift, ret. rewrite Hd, Hlt.
    reflexivity. }
  unfold forward. destruct (cls self).
  - reflexivity.
  - reflexivity.
  - rewrite Hstore. reflexivity.
  - rewrite AttentionControlEdit_forward_unfold, Hstore.
    destruct (is_cross || _); [| reflexivity].
    destruct (edited_attention ar _ _ _ _); [| reflexivity].
    cbn [snd]. unfold AttentionControlEdit.write_through, bind, gets, id.
    rewrite Hd. destruct (dict_get _ _); [| reflexivity].
    rewrite Hlt. reflexivity.
Qed.

(** C4.  A tensor whose checked axis ([attn.shape[1]]) exceeds [32 ** 2]
    is not appended to the per-step buffer by the per-layer transform of
    any class, and after any sequence of interceptions, step callbacks,
    resets and registrations from a freshly initialised controller, in
    either execution mode, every tensor held in the per-step buffer or in
    the cumulative store has that axis and it is at most [32 ** 2]. *)
Theorem large_maps_never_stored :
  forall (LOW_RESOURCE : bool)
         (normalized_maps : tensor num -> store num -> list nat
                            -> result (tensor num)),
    (forall attn is_cross place_in_unet self d,
        shape_at attn 1 = Ok d -> (32 ^ 2 < d)%nat ->
        step_store (snd (forward ar attn is_cross place_in_unet self))
        = step_store self)
    /\ (forall (ops : list (operation num)) (self : controller num),
          initialized self ->
          let self' := run ar LOW_RESOURCE normalized_maps ops self in
          forall key l t,
            In (key, l) (step_store self' ++ attention_store self') ->
            In t l ->
            exists d, shape_at t 1 = Ok d /\ (d <= 32 ^ 2)%nat).
Proof.
  intros LOW nm. split.
  - intros attn is_cross place self d. apply forward_skips_large.
  - intros ops self Hinit self' key l t Hin Ht.
    destruct (run_small LOW nm ops self (initialized_small self Hinit))
      as [Hs Ha].
    fold self' in Hs, Ha.
    assert (Hl : Forall (fun t => is_small t = true) l).
    { apply in_app_or in Hin. unfold all_small in Hs, Ha.
      rewrite Forall_forall in Hs, Ha.
      destruct Hin as [Hin|Hin]; [apply (Hs _ Hin) | apply (Ha _ Hin)]. }
    rewrite Forall_forall in Hl. specialize (Hl t Ht).
    unfold is_small in Hl. unfold shape_at.
    destruct (nth_error (shape t) 1) as [d|]; [| discriminate].
    exists d. split; [reflexivity | apply Nat.leb_le; exact Hl].
Qed.

(** ** Reading the average *)

Lemma forward_filled attn is_cross place :
  preserves (num:=num) filled_after_a_step (forward ar attn is_cross place).
Proof.
  intros self H. unfold forward. destruct (cls self) eqn:Ec.
  - exact H.
  - exact H.
  - revert self H Ec.
    assert (Hp : preserves (num:=num) filled_after_a_step
                   (AttentionStore.forward attn is_cross place))
      by (unfold AttentionStore.forward; repeat preserves_step).
    intros self H _. apply Hp. exact H.
  - revert self H Ec.
    assert (Hp : preserves (num:=num) filled_after_a_step
                   (AttentionControlEdit.forward ar
                      (replace_cross_attention ar s)
                      attn is_cross place)).
    { unfold AttentionControlEdit.forward, AttentionStore.forward,
        AttentionControlEdit.write_through.
      repeat preserves_step. }
    intros self H _. apply Hp. exact H.
Qed.

Lemma between_steps_filled self :
  filled_after_a_step self ->
  filled_after_a_step
    (snd (between_steps ar
            (set_cur_step (cur_step self + 1) (set_cur_att_layer 0 self)))).
Proof.
  intros [H0 H1].
  set (self2 := set_cur_step (cur_step self + 1) (set_cur_att_layer 0 self)).
  pose proof (between_steps_frame ar self2) as Hfr.
  unfold frame in Hfr.
  injection Hfr as Hcls Hstep Hn Hcur Hb Ha Hw Hl Hc.
  cbn in Hcls, Hstep.
  split; [rewrite Hstep; lia|].
  intros Hne. split; [rewrite Hstep; lia|].
  rewrite Hcls.
  destruct (cls self) eqn:Ec; try (split; discriminate).
  - exfalso. apply Hne. unfold between_steps.
    cbn [cls set_between_steps_calls self2 set_cur_step set_cur_att_layer].
    rewrite Ec. cbn.
    destruct (attention_store self) eqn:Ea; [reflexivity|].
    destruct H1 as [_ [Hc1 _]]; [discriminate | congruence].
  - exfalso. apply Hne. unfold between_steps.
    cbn [cls set_between_steps_calls self2 set_cur_step set_cur_att_layer].
    rewrite Ec. cbn.
    destruct (attention_store self) eqn:Ea; [reflexivity|].
    destruct H1 as [_ [_ Hc2]]; [discriminate | congruence].
Qed.

Lemma reset_filled (self : controller num) :
  filled_after_a_step self -> filled_after_a_step (snd (reset self)).
Proof.
  intros [H0 H1]. unfold reset, filled_after_a_step.
  destruct (cls self) eqn:Ec; cbn; rewrite ?Ec; (split; [lia|]).
  - intros Hne. destruct (H1 Hne) as [_ [Hc _]]. congruence.
  - intros Hne. destruct (H1 Hne) as [_ [_ Hc]]. congruence.
  - intros Hne. congruence.
  - intros Hne. congruence.
Qed.

Lemma run_filled LOW_RESOURCE normalized_maps ops self :
  filled_after_a_step self ->
  filled_after_a_step (run ar LOW_RESOURCE normalized_maps ops self).
Proof.
  unfold run. revert self. induction ops as [|o ops IH]; intros self H; simpl.
  - exact H.
  - apply IH.
    destruct o as [attn is_cross place | x_t | | n]; cbn [perform].
    + apply call_preserves; try exact H.
      * intro t. apply forward_filled.
      * intros c Hc. exact Hc.
      * intros c Hc. apply between_steps_filled. exact Hc.
    + rewrite step_callback_state. exact H.
    + apply reset_filled. exact H.
    + exact H.
Qed.

(** C10.  After any sequence of interceptions, step callbacks, resets and
    registrations from a freshly initialised controller, in either execution
    mode: the step counter is never negative; the cumulative store holds
    entries only when the step counter is at least 1, so every division of
    [get_average_attention] is by a positive number of steps; and as long as
    no step has been completed the accessor returns the empty mapping. *)
Theorem average_never_divides_by_zero :
  forall (LOW_RESOURCE : bool)
         (normalized_maps : tensor num -> store num -> list nat
                            -> result (tensor num))
         (ops : list (operation num)) (self : controller num),
    initialized self ->
    let self' := run ar LOW_RESOURCE normalized_maps ops self in
    (0 <= cur_step self')%Z
    /\ (attention_store self' <> [] -> (1 <= cur_step self')%Z)
    /\ (forall key items item,
          In (key, items) (attention_store self') -> In item items ->
          (1 <= cur_step self')%Z)
    /\ (cur_step self' = 0%Z ->
        attention_store self' = []
        /\ AttentionStore.get_average_attention ar self' = []).
Proof.
  intros LOW nm ops self [Hs [Ha Hc]] self'.
  assert (H0 : filled_after_a_step self).
  { split; [rewrite Hc; lia|]. intros Hne. congruence. }
  pose proof (run_filled LOW nm ops self H0) as [Hge Hne].
  fold self' in Hge, Hne.
  split; [exact Hge|].
  split; [intros H; apply Hne; exact H|].
  split.
  - intros key items item Hin _. apply Hne.
    intro E. rewrite E in Hin. exact Hin.
  - intros Hz.
    assert (E : attention_store self' = []).
    { destruct (attention_store self') eqn:E; [reflexivity|].
      destruct Hne as [Hone _]; [discriminate | lia]. }
    split; [exact E|].
    unfold AttentionStore.get_average_attention. rewrite E. reflexivity.
Qed.

End Runs.

(** ** The running average *)

Section Average.

Context {num : Type} (ar : Scalar.arithmetic num).

Lemma holds_multiple_one (t : tensor num) : holds_multiple ar 1 t t.
Proof. split; [reflexivity|]. intros idx _. reflexivity. Qed.

Lemma store_multiple_one (R : store num) : store_multiple ar 1 R R.
Proof.
  induction R as [|[k l] R IH]; constructor; auto.
  split; [reflexivity|]. cbn.
  induction l; constructor; auto. apply holds_multiple_one.
Qed.

(** [a += s] on a running sum of [n >= 1] copies of [s]. *)
Lemma inplace_holds_multiple (n : nat) (a s : tensor num) :
  (1 <= n)%nat ->
  holds_multiple ar n a s ->
  exists a',
    inplace (Scalar.add ar) a s = Ok a' /\ holds_multiple ar (S n) a' s.
Proof.
  intros Hn [Hs Hd]. unfold inplace. rewrite Hs, expandable_to_refl.
  eexists. split; [reflexivity|]. split; [reflexivity|].
  intros idx Hb. cbn [data].
  rewrite (broadcast_index_id _ _ Hb), (Hd idx Hb).
  destruct n as [|n]; [lia | reflexivity].
Qed.

Lemma dict_get_set_same {V} key (v v' : V) (d : dict V) :
  dict_get key d = Ok v -> dict_get key (dict_set key v' d) = Ok v'.
Proof.
  induction d as [|[k x] d IH]; simpl; [discriminate|].
  destruct (String.eqb key k) eqn:E; simpl; rewrite E; auto.
Qed.

Lemma dict_set_get_same {V} key (v : V) (d : dict V) :
  dict_get key d = Ok v -> dict_set key v d = d.
Proof.
  induction d as [|[k x] d IH]; simpl; [reflexivity|].
  destruct (String.eqb key k).
  - intros [= ->]. reflexivity.
  - intros H. f_equal. apply IH. exact H.
Qed.

Lemma dict_set_set {V} key (v v' : V) (d : dict V) :
  dict_set key v' (dict_set key v d) = dict_set key v' d.
Proof.
  induction d as [|[k x] d IH]; simpl; [reflexivity|].
  destruct (String.eqb key k) eqn:E; simpl; rewrite E; [reflexivity|].
  rewrite IH. reflexivity.
Qed.

Lemma dict_get_middle {V} key (v : V) (pre post : dict V) :
  ~ In key (dict_keys pre) ->
  dict_get key (pre ++ (key, v) :: post) = Ok v.
Proof.
  intros Hn. induction pre as [|[k x] pre IH]; simpl.
  - rewrite String.eqb_refl. reflexivity.
  - destruct (String.eqb_spec key k) as [->|_].
    + exfalso. apply Hn. left. reflexivity.
    + apply IH. intro H. apply Hn. right. exact H.
Qed.

Lemma dict_set_middle {V} key (v v' : V) (pre post : dict V) :
  ~ In key (dict_keys pre) ->
  dict_set key v' (pre ++ (key, v) :: post) = pre ++ (key, v') :: post.
Proof.
  intros Hn. induction pre as [|[k x] pre IH]; simpl.
  - rewrite String.eqb_refl. reflexivity.
  - destruct (String.eqb_spec key k) as [->|_].
    + exfalso. apply Hn. left. reflexivity.
    + rewrite IH; [reflexivity|]. intro H. apply Hn. right. exact H.
Qed.

Lemma list_set_middle {A} (v v' : A) (pre post : list A) :
  list_set (List.length pre) v' (pre ++ v :: post) = pre ++ v' :: post.
Proof.
  induction pre as [|x pre IH]; simpl; [reflexivity|].
  rewrite IH. reflexivity.
Qed.

Lemma list_get_middle {A} (v : A) (pre post : list A) :
  list_get (pre ++ v :: post) (List.length pre) = Ok v.
Proof.
  unfold list_get. rewrite nth_error_app2 by lia.
  rewrite Nat.sub_diag. reflexivity.
Qed.

(** The inner loop of [between_steps], from position [length done] on. *)
Lemma accumulate_positions (n : nat) key
      (todo todoR done doneR : list (tensor num))
      (self : controller num) :
  (1 <= n)%nat ->
  List.length done = List.length doneR ->
  Forall2 (holds_multiple ar n) todo todoR ->
  dict_get key (attention_store self) = Ok (done ++ todo) ->
  dict_get key (step_store self) = Ok (doneR ++ todoR) ->
  exists todo',
    for_each (seq (List.length done) (List.length todo))
      (fun i => AttentionStore.accumulate ar key i) self
    = (Ok tt,
       set_attention_store
         (dict_set key (done ++ todo') (attention_store self)) self)
    /\ Forall2 (holds_multiple ar (S n)) todo' todoR.
Proof.
  intros Hn Hlen Hrel. revert done doneR self Hlen.
  induction Hrel as [|a s todo todoR Has Hrel IH];
    intros done doneR self Hlen Hacc Hstp.
  - exists []. split; [| constructor]. cbn [List.length seq for_each].
    unfold ret. f_equal.
    rewrite app_nil_r in *. rewrite (dict_set_get_same _ _ _ Hacc).
    destruct self. reflexivity.
  - destruct (inplace_holds_multiple n a s Hn Has) as [a' [Ha' Hm]].
    cbn [List.length seq for_each].
    unfold bind at 1.
    assert (Hstep : AttentionStore.accumulate ar key (List.length done) self
                    = (Ok tt,
                       set_attention_store
                         (dict_set key (done ++ a' :: todo)
                            (attention_store self)) self)).
    { unfold AttentionStore.accumulate, bind, gets, id, lift, modify.
      rewrite Hacc, list_get_middle, Hstp, Hlen, list_get_middle, Ha'.
      rewrite <- Hlen, list_set_middle. reflexivity. }
    rewrite Hstep.
    destruct (IH (done ++ [a']) (doneR ++ [s])
                (set_attention_store
                   (dict_set key (done ++ a' :: todo) (attention_store self))
                   self)) as [todo' [Hloop Hrel']].
    + rewrite !length_app. cbn. lia.
    + cbn [attention_store set_attention_store].
      rewrite <- app_assoc. cbn [app].
      apply (dict_get_set_same key _ _ _ Hacc).
    + cbn [step_store set_attention_store].
      rewrite <- app_assoc. exact Hstp.
    + exists (a' :: todo'). split; [| constructor; assumption].
      replace (S (List.length done)) with (List.length (done ++ [a']))
        by (rewrite length_app; cbn; lia).
      rewrite Hloop. f_equal.
      cbn [attention_store set_attention_store].
      rewrite dict_set_set, <- app_assoc. reflexivity.
Qed.

Lemma store_multiple_keys (n : nat) (A R : store num) :
  store_multiple ar n A R -> dict_keys A = dict_keys R.
Proof.
  induction 1 as [|[k l] [k' l'] A R [Hk _] _ IH]; simpl; [reflexivity|].
  cbn in Hk. subst. f_equal. exact IH.
Qed.

(** The outer loop of [between_steps], over the keys not yet visited. *)
Lemma accumulate_keys (n : nat) (post postR pre preR : store num)
      (self : controller num) :
  (1 <= n)%nat ->
  store_multiple ar n post postR ->
  attention_store self = pre ++ post ->
  step_store self = preR ++ postR ->
  dict_keys pre = dict_keys preR ->
  NoDup (dict_keys (pre ++ post)) ->
  exists post',
    for_each (dict_keys post)
      (fun key =>
         bind (gets (fun self => dict_get key (attention_store self)))
           (fun acc => bind (lift acc)
              (fun acc =>
                 for_each (seq 0 (List.length acc))
                   (fun i => AttentionStore.accumulate ar key i)))) self
    = (Ok tt, set_attention_store (pre ++ post') self)
    /\ store_multiple ar (S n) post' postR.
Proof.
  intros Hn Hrel. revert pre preR self.
  induction Hrel as [|[k l] [k' lR] post postR [Hk Hl] Hrel IH];
    intros pre preR self Hacc Hstp Hkeys Hnd.
  - exists []. split; [| constructor]. cbn [dict_keys map for_each].
    unfold ret. f_equal. rewrite <- Hacc. destruct self. reflexivity.
  - cbn in Hk, Hl. subst k'.
    assert (Hnk : ~ In k (dict_keys pre)).
    { unfold dict_keys in *. rewrite map_app in Hnd. cbn in Hnd.
      apply NoDup_remove_2 in Hnd. intro H. apply Hnd.
      apply in_or_app. left. exact H. }
    assert (Hget : dict_get k (attention_store self) = Ok ([] ++ l))
      by (rewrite Hacc; apply dict_get_middle; exact Hnk).
    assert (HgetR : dict_get k (step_store self) = Ok ([] ++ lR))
      by (rewrite Hstp; apply dict_get_middle; rewrite <- Hkeys; exact Hnk).
    destruct (accumulate_positions n k l lR [] [] self Hn eq_refl Hl Hget HgetR)
      as [l' [Hloop Hl']].
    cbn [List.length app] in Hloop.
    cbn [dict_keys map fst for_each].
    unfold bind at 1. unfold bind at 1, gets at 1.
    cbn [app] in Hget. rewrite Hget.
    unfold bind at 1, lift at 1.
    rewrite Hloop.
    rewrite Hacc, dict_set_middle by exact Hnk.
    destruct (IH (pre ++ [(k, l')]) (preR ++ [(k, lR)])
                (set_attention_store (pre ++ (k, l') :: post) self))
      as [post' [Hrest Hrel']].
    + cbn [attention_store set_attention_store].
      rewrite <- app_assoc. reflexivity.
    + cbn [step_store set_attention_store].
      rewrite <- app_assoc. exact Hstp.
    + unfold dict_keys in *. rewrite !map_app, Hkeys. reflexivity.
    + unfold dict_keys in *. rewrite <- app_assoc. cbn [app].
      rewrite map_app in *. exact Hnd.
    + exists ((k, l') :: post'). split.
      * fold (dict_keys post). rewrite Hrest. f_equal.
        rewrite <- app_assoc. destruct self. reflexivity.
      * constructor; [split; [reflexivity | exact Hl'] | exact Hrel'].
Qed.

Lemma AttentionStore_between_steps_first (self : controller num) :
  attention_store self = [] ->
  AttentionStore.between_steps ar self
  = (Ok tt,
     set_step_store AttentionStore.get_empty_store
       (set_attention_store (step_store self) self)).
Proof.
  intros Ha. unfold AttentionStore.between_steps, bind, gets, id, modify.
  rewrite Ha. reflexivity.
Qed.

Lemma AttentionStore_between_steps_adds (n : nat) (self : controller num) :
  (1 <= n)%nat ->
  attention_store self <> [] ->
  store_multiple ar n (attention_store self) (step_store self) ->
  NoDup (dict_keys (attention_store self)) ->
  exists A',
    AttentionStore.between_steps ar self
    = (Ok tt,
       set_step_store AttentionStore.get_empty_store
         (set_attention_store A' self))
    /\ store_multiple ar (S n) A' (step_store self).
Proof.
  intros Hn Hne Hrel Hnd.
  destruct (accumulate_keys n (attention_store self) (step_store self) [] []
              self Hn Hrel eq_refl eq_refl eq_refl Hnd) as [A' [Hloop Hrel']].
  exists A'. split; [| exact Hrel'].
  unfold AttentionStore.between_steps.
  unfold bind at 1, gets at 1, id.
  destruct (attention_store self) as [|kv A] eqn:EA; [congruence|].
  cbn [List.length Nat.eqb].
  unfold bind at 1. rewrite Hloop. reflexivity.
Qed.

Lemma dict_keys_set {V} key (v : V) (d : dict V) :
  dict_keys (dict_set key v d) = dict_keys d.
Proof.
  induction d as [|[k x] d IH]; simpl; [reflexivity|].
  destruct (String.eqb key k); simpl; [reflexivity|]. f_equal. exact IH.
Qed.

Lemma dict_get_set_other {V} key key' (v : V) (d : dict V) :
  key <> key' -> dict_get key (dict_set key' v d) = dict_get key d.
Proof.
  intros Hne. induction d as [|[k x] d IH]; simpl; [reflexivity|].
  destruct (String.eqb_spec key' k) as [->|Hk]; simpl.
  - destruct (String.eqb_spec key k); [contradiction | reflexivity].
  - destruct (String.eqb key k); [reflexivity | exact IH].
Qed.

Lemma dict_get_in_keys {V} key (d : dict V) :
  In key (dict_keys d) -> exists v, dict_get key d = Ok v.
Proof.
  induction d as [|[k x] d IH]; simpl; [contradiction|].
  intros [->|H].
  - rewrite String.eqb_refl. eauto.
  - destruct (String.eqb key k); eauto.
Qed.

Lemma layer_key_valid (l : layer num) :
  layer_ok l ->
  In (layer_key l) (dict_keys (AttentionStore.get_empty_store (num:=num))).
Proof.
  intros [_ Hp]. destruct l as [[attn is_cross] place].
  unfold layer_key. cbn [fst snd] in *.
  cbn in Hp.
  destruct Hp as [<-|[<-|[<-|[]]]]; destruct is_cross; cbn; tauto.
Qed.

Lemma record_layer_keys (st : store num) (l : layer num) :
  dict_keys (record_layer st l) = dict_keys st.
Proof.
  unfold record_layer. destruct (is_small _); [| reflexivity].
  destruct (dict_get _ _); [apply dict_keys_set | reflexivity].
Qed.

Lemma second_half_shape (attn : tensor num) (h : nat) (s : list nat) :
  shape attn = h :: s ->
  slice_from (h / 2) attn = Ok (second_half attn)
  /\ shape (second_half attn) = (h - h / 2)%nat :: s.
Proof.
  intros Hs. unfold second_half. rewrite Hs. cbn [hd].
  unfold slice_from. rewrite Hs. split; reflexivity.
Qed.

(** One interception of a storing controller in standard mode. *)
Lemma call_records (l : layer num) (self : controller num) :
  cls self = ClsAttentionStore ->
  (0 <= cur_att_layer self)%Z ->
  layer_ok l ->
  dict_keys (step_store self)
  = dict_keys (AttentionStore.get_empty_store (num:=num)) ->
  let self1 := set_cur_att_layer (cur_att_layer self + 1)
                 (set_step_store (record_layer (step_store self) l) self) in
  snd (call ar false (fst (fst l)) (snd (fst l)) (snd l) self)
  = if (cur_att_layer self + 1 =? num_att_layers self)%Z
    then snd (between_steps ar
                (set_cur_step (cur_step self + 1) (set_cur_att_layer 0 self1)))
    else self1.
Proof.
  intros Hcls Hcur Hok Hkeys self1.
  destruct l as [[attn is_cross] place]. cbn [fst snd] in *.
  pose proof (layer_key_valid _ Hok) as Hvalid.
  destruct Hok as [Hrank _]. cbn [fst snd] in Hrank.
  destruct (shape attn) as [|h [|q rest]] eqn:Hs; cbn in Hrank; try lia.
  destruct (second_half_shape attn h (q :: rest) Hs) as [Hslice Hhalf].
  rewrite <- Hkeys in Hvalid.
  destruct (dict_get_in_keys _ _ Hvalid) as [recorded Hget].
  unfold layer_key in Hget. cbn [fst snd] in Hget.
  unfold call. rewrite call_unfold.
  assert (Hphase : exists w,
            transform_phase false (forward ar) attn is_cross place self
            = (Ok w, set_step_store
                       (record_layer (step_store self) (attn, is_cross, place))
                       self)).
  { unfold transform_phase.
    change (AttentionControl.num_uncond_att_layers false self) with 0%Z.
    destruct (Z.leb_spec 0 (cur_att_layer self)) as [_|]; [| lia].
    unfold bind at 1, lift at 1, shape_at. rewrite Hs. cbn [nth_error].
    unfold bind at 1, lift at 1. rewrite Hslice.
    unfold bind at 1. unfold forward at 1. rewrite Hcls.
    rewrite (AttentionStore_forward_returns (second_half attn) is_cross place
               self _ _ _ _ Hhalf Hget).
    destruct (setitem_from_same_shape (h / 2) attn (second_half attn) h
                (q :: rest) Hs Hhalf) as [w [Hw _]].
    unfold lift. rewrite Hw. exists w. f_equal.
    unfold record_layer, layer_key, is_small. cbn [fst snd].
    rewrite Hhalf. cbn [nth_error]. rewrite Hget.
    destruct (q <=? 32 ^ 2)%nat; [reflexivity|].
    destruct self; reflexivity. }
  destruct Hphase as [w Hphase]. rewrite Hphase. cbv zeta.
  change (AttentionControl.num_uncond_att_layers false _) with 0%Z.
  rewrite Z.add_0_r.
  cbn [cur_att_layer num_att_layers set_cur_att_layer set_step_store cur_step].
  destruct (_ =? _)%Z; [| reflexivity].
  unfold self1.
  match goal with
  | |- snd (match ?x with _ => _ end) = snd ?y =>
      change x with y; destruct y as [[u|e] self3]
  end; reflexivity.
Qed.

Lemma run_app LOW_RESOURCE normalized_maps (ops1 ops2 : list (operation num))
      self :
  run ar LOW_RESOURCE normalized_maps (ops1 ++ ops2) self
  = run ar LOW_RESOURCE normalized_maps ops2
      (run ar LOW_RESOURCE normalized_maps ops1 self).
Proof. unfold run. apply fold_left_app. Qed.

(** The calls of a step before the last one only fill the buffer. *)
Lemma run_front normalized_maps (front : list (layer num))
      (self : controller num) :
  cls self = ClsAttentionStore ->
  (0 <= cur_att_layer self)%Z ->
  (cur_att_layer self + Z.of_nat (List.length front) < num_att_layers self)%Z ->
  Forall layer_ok front ->
  dict_keys (step_store self)
  = dict_keys (AttentionStore.get_empty_store (num:=num)) ->
  run ar false normalized_maps (map intercept front) self
  = set_cur_att_layer (cur_att_layer self + Z.of_nat (List.length front))
      (set_step_store (fold_left record_layer front (step_store self)) self).
Proof.
  intros Hcls Hcur Hlt Hok. revert self Hcls Hcur Hlt.
  induction Hok as [|l front Hl Hok IH]; intros self Hcls Hcur Hlt Hkeys.
  - cbn. destruct self. cbn in *. unfold set_cur_att_layer, set_step_store.
    cbn. f_equal. lia.
  - cbn [map List.length] in *.
    change (run ar false normalized_maps
              (intercept l :: map intercept front) self)
      with (run ar false normalized_maps (map intercept front)
              (snd (call ar false (fst (fst l)) (snd (fst l)) (snd l) self))).
    rewrite (call_records l self Hcls Hcur Hl Hkeys).
    destruct (Z.eqb_spec (cur_att_layer self + 1) (num_att_layers self));
      [lia|].
    rewrite IH.
    + destruct self. cbn in *. unfold set_cur_att_layer, set_step_store.
      cbn. f_equal. lia.
    + exact Hcls.
    + cbn [cur_att_layer set_cur_att_layer]. lia.
    + cbn [cur_att_layer num_att_layers set_cur_att_layer set_step_store].
      lia.
    + cbn [step_store set_cur_att_layer set_step_store].
      rewrite record_layer_keys. exact Hkeys.
Qed.

(** The calls of one whole step: the buffer is filled and the step boundary
    is reached at the last call. *)
Lemma run_step normalized_maps (layers : list (layer num))
      (self : controller num) :
  layers <> [] ->
  Forall layer_ok layers ->
  cls self = ClsAttentionStore ->
  cur_att_layer self = 0%Z ->
  num_att_layers self = Z.of_nat (List.length layers) ->
  step_store self = AttentionStore.get_empty_store ->
  run ar false normalized_maps (map intercept layers) self
  = snd (AttentionStore.between_steps ar
           (set_between_steps_calls (S (between_steps_calls self))
              (set_cur_step (cur_step self + 1)
                 (set_step_store
                    (fold_left record_layer layers
                       AttentionStore.get_empty_store)
                    self)))).
Proof.
  intros Hne Hok Hcls Hcur Hnum Hst.
  destruct (exists_last Hne) as [front [l ->]].
  apply Forall_app in Hok. destruct Hok as [Hfront Hl].
  apply Forall_inv in Hl.
  rewrite length_app in Hnum. cbn in Hnum.
  rewrite map_app, run_app.
  rewrite (run_front normalized_maps front self Hcls);
    [ | lia | lia | exact Hfront | rewrite Hst; reflexivity ].
  match goal with
  | |- run ar _ _ (map intercept [l]) ?c = _ =>
      change (run ar false normalized_maps (map intercept [l]) c)
        with (snd (call ar false (fst (fst l)) (snd (fst l)) (snd l) c))
  end.
  rewrite call_records; try assumption.
  - cbn [cur_att_layer num_att_layers set_cur_att_layer set_step_store
           step_store cur_step].
    destruct (Z.eqb_spec (cur_att_layer self + Z.of_nat (List.length front) + 1)
                (num_att_layers self)); [| lia].
    rewrite fold_left_app. cbn [fold_left]. rewrite Hst.
    unfold between_steps. cbn [cls set_cur_step set_cur_att_layer
                                 set_step_store set_between_steps_calls].
    rewrite Hcls. destruct self. cbn in Hcur. subst. reflexivity.
  - cbn [cur_att_layer set_cur_att_layer]. lia.
  - cbn [step_store set_cur_att_layer set_step_store]. rewrite Hst. clear.
    induction front as [|x front IH] using rev_ind; [reflexivity|].
    rewrite fold_left_app. cbn [fold_left].
    rewrite record_layer_keys. exact IH.
Qed.

(** The state of a storing controller between two steps, after [n]
    completed steps that each recorded the buffer [R]. *)
Lemma recorded_keys (layers : list (layer num)) (st : store num) :
  dict_keys (fold_left record_layer layers st) = dict_keys st.
Proof.
  revert st. induction layers as [|l layers IH]; intros st; simpl.
  - reflexivity.
  - rewrite IH. apply record_layer_keys.
Qed.

Lemma empty_store_keys_nodup :
  NoDup (dict_keys (AttentionStore.get_empty_store (num:=num))).
Proof.
  cbn. repeat constructor; cbn; intuition discriminate.
Qed.

Lemma one_more_step normalized_maps (layers : list (layer num)) (n : nat) self :
  layers <> [] ->
  Forall layer_ok layers ->
  between_two_steps ar layers n self ->
  between_two_steps ar layers (S n)
    (run ar false normalized_maps (map intercept layers) self).
Proof.
  intros Hne Hok [Hcls [Hcur [Hnum [Hst [Hstep Hacc]]]]].
  rewrite (run_step normalized_maps layers self Hne Hok Hcls Hcur Hnum Hst).
  set (R := fold_left record_layer layers AttentionStore.get_empty_store) in *.
  set (c := set_between_steps_calls (S (between_steps_calls self))
              (set_cur_step (cur_step self + 1) (set_step_store R self))).
  assert (Hresult : exists A',
            AttentionStore.between_steps ar c
            = (Ok tt, set_step_store AttentionStore.get_empty_store
                        (set_attention_store A' c))
            /\ store_multiple ar (S n) A' R).
  { destruct n as [|n].
    - exists R. split; [| apply store_multiple_one].
      apply AttentionStore_between_steps_first. exact Hacc.
    - apply (AttentionStore_between_steps_adds (S n) c).
      + lia.
      + cbn [c attention_store set_between_steps_calls set_cur_step
               set_step_store].
        intro E. rewrite E in Hacc. apply store_multiple_keys in Hacc.
        unfold R in Hacc. rewrite recorded_keys in Hacc. discriminate.
      + exact Hacc.
      + cbn [c attention_store set_between_steps_calls set_cur_step
               set_step_store].
        rewrite (store_multiple_keys _ _ _ Hacc).
        unfold R. rewrite recorded_keys. exact empty_store_keys_nodup. }
  destruct Hresult as [A' [Hbs HA']]. rewrite Hbs. cbn [snd].
  repeat split; try assumption.
  cbn. rewrite Hstep. lia.
Qed.

Lemma repeated_steps normalized_maps (layers : list (layer num)) (S0 n : nat)
      self :
  layers <> [] ->
  Forall layer_ok layers ->
  between_two_steps ar layers n self ->
  between_two_steps ar layers (S0 + n)
    (run ar false normalized_maps
       (concat (repeat (map intercept layers) S0)) self).
Proof.
  intros Hne Hok. revert n self.
  induction S0 as [|S0 IH]; intros n self H.
  - exact H.
  - cbn [repeat concat]. rewrite run_app.
    replace (S S0 + n)%nat with (S0 + S n)%nat by lia.
    apply IH. apply one_more_step; assumption.
Qed.

(** The buffer of a step, read by key. *)
Lemma recorded_get (layers : list (layer num)) (key : string) (st : store num)
      l0 :
  Forall layer_ok layers ->
  dict_keys st = dict_keys (AttentionStore.get_empty_store (num:=num)) ->
  dict_get key st = Ok l0 ->
  dict_get key (fold_left record_layer layers st)
  = Ok (l0 ++ recorded_at key layers).
Proof.
  intros Hok. revert st l0.
  induction Hok as [|l layers Hl Hok IH]; intros st l0 Hkeys Hget.
  - cbn. rewrite app_nil_r. exact Hget.
  - cbn [fold_left]. unfold recorded_at. cbn [filter].
    pose proof (layer_key_valid l Hl) as Hvalid.
    rewrite <- Hkeys in Hvalid.
    destruct (dict_get_in_keys _ _ Hvalid) as [lk Hlk].
    unfold record_layer at 2.
    destruct (is_small (second_half (fst (fst l)))) eqn:Esmall.
    + rewrite Hlk.
      destruct (String.eqb_spec (layer_key l) key) as [Ek|Ek].
      * cbn [andb map]. subst key.
        rewrite (IH _ (l0 ++ [second_half (fst (fst l))])).
        -- rewrite <- app_assoc. reflexivity.
        -- rewrite dict_keys_set. exact Hkeys.
        -- rewrite Hget in Hlk. injection Hlk as <-.
           apply (dict_get_set_same _ _ _ _ Hget).
      * cbn [andb]. apply IH.
        -- rewrite dict_keys_set. exact Hkeys.
        -- rewrite dict_get_set_other by congruence. exact Hget.
    + rewrite andb_false_r. apply IH; assumption.
Qed.

Lemma store_multiple_get (n : nat) (A R : store num) key lR :
  store_multiple ar n A R ->
  dict_get key R = Ok lR ->
  exists lA, dict_get key A = Ok lA /\ Forall2 (holds_multiple ar n) lA lR.
Proof.
  induction 1 as [|[k l] [k' l'] A R [Hk Hl] _ IH]; simpl; [discriminate|].
  cbn in Hk, Hl. subst k'.
  destruct (String.eqb key k); [| exact IH].
  intros [= <-]. exists l. split; [reflexivity | exact Hl].
Qed.

Lemma dict_get_map {V W} key (f : V -> W) (d : dict V) v :
  dict_get key d = Ok v ->
  dict_get key (map (fun kv => (fst kv, f (snd kv))) d) = Ok (f v).
Proof.
  induction d as [|[k x] d IH]; simpl; [discriminate|].
  destruct (String.eqb key k); [intros [= ->]; reflexivity | exact IH].
Qed.

Lemma average_of_multiple (n : nat) (lA lR : list (tensor num)) :
  Forall2 (holds_multiple ar n) lA lR ->
  Forall2 (mean_of_running_sum ar n)
    (map (fun item =>
            pointwise (fun x => Scalar.div_int ar x (Z.of_nat n)) item) lA)
    lR.
Proof.
  induction 1 as [|a t lA lR [Hs Hd] _ IH]; cbn [map];
    constructor; [| exact IH].
  split; [exact Hs|].
  intros idx Hb. cbn [pointwise shape data] in *.
  rewrite (Hd idx Hb). reflexivity.
Qed.

(** A storing controller run for [steps] steps on the same maps returns,
    at every key, the means of the running sums of the recorded tensors. *)
Lemma average_after_steps
  (normalized_maps : tensor num -> store num -> list nat -> result (tensor num))
  (layers : list (layer num)) (steps : nat) (created : controller num) :
  new_AttentionStore ar = Ok created ->
  layers <> [] ->
  Forall layer_ok layers ->
  (1 <= steps)%nat ->
  let registered :=
    set_num_att_layers (Z.of_nat (List.length layers)) created in
  let self :=
    run ar false normalized_maps
      (concat (repeat (map intercept layers) steps)) registered in
  cur_step self = Z.of_nat steps
  /\ forall key,
       In key (dict_keys (AttentionStore.get_empty_store (num:=num))) ->
       exists average,
         dict_get key (AttentionStore.get_average_attention ar self)
           = Ok average
         /\ Forall2 (mean_of_running_sum ar steps) average
              (recorded_at key layers).
Proof.
  intros Hnew Hne Hok Hsteps registered self.
  injection Hnew as <-.
  assert (H0 : between_two_steps ar layers 0 registered)
    by (repeat split).
  pose proof (repeated_steps normalized_maps layers steps 0 registered
                Hne Hok H0) as H.
  fold self in H. rewrite Nat.add_0_r in H.
  destruct H as [Hcls [Hcur [Hnum [Hst [Hstep Hacc]]]]].
  split; [exact Hstep|].
  intros key Hkey.
  destruct steps as [|n]; [lia|].
  destruct (dict_get_in_keys _ _ Hkey) as [l0 Hl0].
  assert (El0 : l0 = []).
  { cbn in Hkey.
    destruct Hkey as [<-|[<-|[<-|[<-|[<-|[<-|[]]]]]]];
      cbn in Hl0; congruence. }
  subst l0.
  pose proof (recorded_get layers key _ [] Hok eq_refl Hl0) as HR.
  cbn [app] in HR.
  destruct (store_multiple_get _ _ _ _ _ Hacc HR) as [lA [HA Hmul]].
  eexists. split.
  - unfold AttentionStore.get_average_attention.
    apply (dict_get_map key
             (map (fun item =>
                     pointwise (fun x => Scalar.div_int ar x (cur_step self))
                       item))
             _ _ HA).
  - rewrite Hstep. apply average_of_multiple. exact Hmul.
Qed.

End Average.




(** ** The running average over tensor objects *)

Section StoredObjects.

Context {num : Type} (ar : Scalar.arithmetic num).
















End StoredObjects.


Section StoredRuns.

Context {num : Type} (ar : Scalar.arithmetic num).



















End StoredRuns.


(** ** Concrete runs *)



(** In single precision the local blend does not give back the edited
    latent [0.1] inside the mask when the reference latent is [0.5]:
    [0.5 + 1.0 * (0.1 - 0.5)] is the float below [0.1]. *)
Lemma blend_of_tenth_in_binary32 :
  Examples.composited binary32
    (Examples.latents (Examples.f32 1 2) (Examples.f32 1 10)) [1; 0; 0; 0]%nat
    (Examples.replacing binary32 3 (Some Examples.blend32))
  = Ok (S754_finite false 13421772 (-27))
  /\ data (Examples.latents (Examples.f32 1 2) (Examples.f32 1 10))
       [1; 0; 0; 0]%nat
     = S754_finite false 13421773 (-27)
  /\ above_threshold binary32 Examples.blend32
       (Examples.constant [2; 1; 1; 1]%nat (Scalar.one binary32)) 1 0 0
     = true.
Proof. repeat split; vm_compute; reflexivity. Qed.

(** With three prompts the mask of the two edited samples does not
    broadcast against the three latents. *)
Lemma blend_of_three_prompts_raises :
  LocalBlend.__call__ binary32
    (fun _ _ size => Ok (Examples.constant (3 :: 1 :: size)%nat (SFone 24 128)))
    Examples.blend32
    (Examples.constant [3; 1; 1; 1]%nat (Examples.f32 1 2)) []
  = Raise RuntimeError.
Proof. vm_compute. reflexivity. Qed.

Lemma self_attention_replaced_in_window_witness :
  exists first last out self',
    floor_of_steps 10 (Py.Int 0) = Ok first
    /\ floor_of_steps 10 (Py.Float (Examples.f64 4 10)) = Ok last
    /\ forward binary32 (Examples.constant [2; 4; 4]%nat (SFone 24 128))
         false "up"
         (Examples.replacing binary32 3 None)
       = (Ok out, self')
    /\ shape out = [2; 4; 4]%nat.
Proof.
  destruct (self_attention_replaced_in_window binary32
              (Replace (Examples.identity_mapper binary32 3))
              Examples.prompts 10
              (Examples.constant [11; 1; 1; 1; 3]%nat (Scalar.one binary32))
              (SingleFloat (Examples.f64 4 10)) None
              (Examples.replacing binary32 3 None)
              (Examples.replacing binary32 3 None)
              (Examples.constant [2; 4; 4]%nat (SFone 24 128)) "up"
              1%nat 4%nat [4]%nat [])
    as [first [last [Hfirst [Hlast [out [self' [Hcall [Hshape _]]]]]]]].
  - vm_compute. reflexivity.
  - reflexivity.
  - reflexivity.
  - reflexivity.
  - vm_compute. discriminate.
  - discriminate.
  - reflexivity.
  - reflexivity.
  - exists first, last, out, self'. repeat split; assumption.
Defined.

Lemma replace_blends_mapped_reference_witness :
  (exists out self',
      forward binary32 (Examples.constant [2; 1; 2]%nat (Examples.f32 1 10))
        true "down" (Examples.replacing binary32 2 None)
      = (Ok out, self')
      /\ forall i ip k,
           (i < 2)%nat -> (ip < 1)%nat -> (k < 2)%nat ->
           data out [i; ip; k] = S754_finite false 13421773 (-27))
  /\ (exists out self',
         forward exact Examples.attention true "down"
           (Examples.replacing exact 2 None)
         = (Ok out, self')
         /\ forall i ip k,
              (i < 2)%nat -> (ip < 1)%nat -> (k < 2)%nat ->
              data out [i; ip; k] == data Examples.attention [0%nat; ip; k]).
Proof.
  split.
  - destruct (proj1 (proj2 replace_blends_mapped_reference)
                (Examples.replacing binary32 2 None)
                (Examples.identity_mapper binary32 2)
                (Examples.constant [2; 1; 2]%nat (Examples.f32 1 10))
                (Examples.constant [1; 1; 1; 2]%nat (SFone 24 128))
                "down"%string 1%nat 1%nat 2%nat [])
      as [out [self' [Hcall Hid]]].
    + reflexivity.
    + discriminate.
    + reflexivity.
    + reflexivity.
    + vm_compute. reflexivity.
    + reflexivity.
    + reflexivity.
    + intros b iw k _ _ _. reflexivity.
    + intros idx _. reflexivity.
    + intros i ip k _ _ _. reflexivity.
    + exists out, self'. split; [exact Hcall|].
      intros i ip k Hi Hip Hk. rewrite (Hid i ip k Hi Hip Hk). reflexivity.
  - destruct (proj2 (proj2 replace_blends_mapped_reference)
                (Examples.replacing exact 2 None)
                (Examples.identity_mapper exact 2) Examples.attention
                (Examples.constant [1; 1; 1; 2]%nat 1)
                "down"%string 1%nat 1%nat 2%nat [])
      as [out [self' [Hcall Hid]]].
    + reflexivity.
    + discriminate.
    + reflexivity.
    + reflexivity.
    + vm_compute. reflexivity.
    + reflexivity.
    + reflexivity.
    + intros b iw k _ _ _. reflexivity.
    + intros idx _. reflexivity.
    + exists out, self'. split; [exact Hcall|].
      intros i ip k Hi Hip Hk. rewrite (Hid i ip k Hi Hip Hk).
      rewrite Nat.mod_1_r. reflexivity.
Defined.



Lemma large_maps_never_stored_witness :
  Forall (fun kv =>
            Forall (fun t => exists d, shape_at t 1 = Ok d /\ (d <= 32 ^ 2)%nat)
                   (snd kv))
    (step_store
       (run binary32 false (Examples.full_mask binary32)
          (Examples.session (SFone 24 128))
          (Examples.object binary32 (new_AttentionStore binary32)))
     ++ attention_store
          (run binary32 false (Examples.full_mask binary32)
             (Examples.session (SFone 24 128))
             (Examples.object binary32 (new_AttentionStore binary32)))).
Proof.
  apply Forall_forall. intros [key l] Hin.
  apply Forall_forall. intros t Ht.
  apply (proj2 (large_maps_never_stored binary32 false
                  (Examples.full_mask binary32))
           (Examples.session (SFone 24 128))
           (Examples.object binary32 (new_AttentionStore binary32))
           (conj eq_refl (conj eq_refl eq_refl)) key l t Hin Ht).
Defined.

Lemma call_keeps_first_half_witness :
  exists attn' self',
    Examples.intercepted binary32
      (Examples.latents (Examples.f32 1 2) (Examples.f32 1 10))
    = (Ok attn', self')
    /\ shape attn' = [2; 1; 1; 1]%nat
    /\ forall idx, data attn' (0%nat :: idx) = Examples.f32 1 2.
Proof.
  destruct (call_keeps_first_half (num:=spec_float)
              EmptyControl.forward AttentionControl.between_steps
              (Examples.latents (Examples.f32 1 2) (Examples.f32 1 10))
              true "down"
              (Examples.object binary32 (new_EmptyControl binary32))
              (snd (Examples.intercepted binary32
                      (Examples.latents (Examples.f32 1 2)
                         (Examples.f32 1 10))))
              (Examples.returned
                 (Examples.latents (Examples.f32 1 2) (Examples.f32 1 10))
                 (fst (Examples.intercepted binary32
                         (Examples.latents (Examples.f32 1 2)
                            (Examples.f32 1 10))))))
    as [Hshape [Hfirst _]].
  - reflexivity.
  - eexists _, _. split; [reflexivity|]. split; [exact Hshape|].
    intros idx. apply (Hfirst 0%nat idx). vm_compute. reflexivity.
Defined.

Lemma reweight_doubles_selected_word_witness :
  (exists equalizer out,
      get_equalizer binary32 Examples.word_at_2_3 "a castle on a hill"
        (OneWord (WordText "castle")) [two]
      = Ok equalizer
      /\ replace_cross_attention binary32 (Reweight equalizer None)
           (Examples.constant [1; 1; 77]%nat (Examples.f32 1 10))
           (Examples.constant [1; 1; 1; 77]%nat (Examples.f32 1 2))
         = Ok out
      /\ data out [0; 0; 0; 2]%nat = S754_finite false 13421773 (-26)
      /\ data out [0; 0; 0; 5]%nat = S754_finite false 13421773 (-27))
  /\ (exists equalizer out,
         get_equalizer exact Examples.word_at_2_3 "a castle on a hill"
           (OneWord (WordText "castle")) [2]
         = Ok equalizer
         /\ replace_cross_attention exact (Reweight equalizer None)
              (Examples.constant [1; 1; 77]%nat (1 # 2))
              (Examples.constant [1; 1; 1; 77]%nat (1 # 3))
            = Ok out
         /\ data out [0; 0; 0; 2]%nat == 1
         /\ data out [0; 0; 0; 5]%nat == 1 # 2).
Proof.
  split.
  - destruct (proj1 (proj2 reweight_doubles_selected_word)
                Examples.word_at_2_3 "a castle on a hill"%string
                (WordText "castle") [2; 3]%nat
                (Examples.constant [1; 1; 77]%nat (Examples.f32 1 10))
                (Examples.constant [1; 1; 1; 77]%nat (Examples.f32 1 2))
                1%nat 1%nat)
      as [equalizer [Heq [[out [Hout Hdata]] _]]].
    + reflexivity.
    + repeat constructor.
    + reflexivity.
    + intros ih ip k _ _ _. reflexivity.
    + exists equalizer, out. split; [exact Heq|]. split; [exact Hout|]. split.
      * rewrite (Hdata 0%nat 0%nat 2%nat) by lia. reflexivity.
      * rewrite (Hdata 0%nat 0%nat 5%nat) by lia. reflexivity.
  - destruct (proj2 (proj2 reweight_doubles_selected_word)
                Examples.word_at_2_3 "a castle on a hill"%string
                (WordText "castle") [2; 3]%nat
                (Examples.constant [1; 1; 77]%nat (1 # 2))
                (Examples.constant [1; 1; 1; 77]%nat (1 # 3)) 1%nat 1%nat)
      as [equalizer [Heq [[out [Hout Hdata]] _]]].
    + reflexivity.
    + repeat constructor.
    + reflexivity.
    + exists equalizer, out. split; [exact Heq|]. split; [exact Hout|]. split.
      * rewrite (Hdata 0%nat 0%nat 2%nat) by lia. reflexivity.
      * rewrite (Hdata 0%nat 0%nat 5%nat) by lia. reflexivity.
Defined.

Lemma step_callback_identity_or_blend_witness :
  step_callback exact (Examples.full_mask exact)
    (Examples.latents (1 # 2) (1 # 10)) (Examples.replacing exact 3 None)
  = (Ok (Examples.latents (1 # 2) (1 # 10)), Examples.replacing exact 3 None)
  /\ exists x_t',
       step_callback exact (Examples.full_mask exact)
         (Examples.latents (1 # 2) (1 # 10))
         (Examples.replacing exact 3 (Some Examples.blendQ))
       = (Ok x_t', Examples.replacing exact 3 (Some Examples.blendQ))
       /\ data x_t' [1; 0; 0; 0]%nat == 1 # 10.
Proof.
  split.
  - apply (proj1 step_callback_identity_or_blend). left. reflexivity.
  - destruct (proj1 (proj2 (proj2 step_callback_identity_or_blend))
                (Examples.full_mask exact)
                (Examples.latents (1 # 2) (1 # 10))
                (Examples.replacing exact 3 (Some Examples.blendQ))
                (Replace (Examples.identity_mapper exact 3)) Examples.blendQ
                (Examples.constant [2; 1; 1; 1]%nat 1) 1%nat 1%nat 1%nat)
      as [x_t' [Hcall [_ Hdata]]].
    + reflexivity.
    + reflexivity.
    + reflexivity.
    + reflexivity.
    + reflexivity.
    + exists x_t'. split; [exact Hcall|].
      rewrite (Hdata 1%nat 0%nat 0%nat 0%nat) by lia. reflexivity.
Defined.

Lemma average_never_divides_by_zero_witness :
  (0 <= cur_step
          (run binary32 false (Examples.full_mask binary32)
             (Examples.session (SFone 24 128))
             (Examples.object binary32 (new_AttentionStore binary32))))%Z
  /\ (attention_store
        (run binary32 false (Examples.full_mask binary32)
           (Examples.session (SFone 24 128))
           (Examples.object binary32 (new_AttentionStore binary32))) <> [] ->
      (1 <= cur_step
              (run binary32 false (Examples.full_mask binary32)
                 (Examples.session (SFone 24 128))
                 (Examples.object binary32 (new_AttentionStore binary32))))%Z).
Proof.
  destruct (average_never_divides_by_zero binary32 false
              (Examples.full_mask binary32) (Examples.session (SFone 24 128))
              (Examples.object binary32 (new_AttentionStore binary32)))
    as [Hcur [Hfilled _]].
  - repeat split.
  - split; assumption.
Defined.

(** * Further properties *)

(** ** Sessions *)

Ltac fields :=
  cbn [cls cur_step num_att_layers cur_att_layer step_store attention_store
       batch_size cross_replace_alpha num_self_replace local_blend
       between_steps_calls set_cls set_cur_step set_num_att_layers
       set_cur_att_layer set_step_store set_attention_store set_batch_size
       set_cross_replace_alpha set_num_self_replace set_local_blend
       set_between_steps_calls fst snd] in *.

Section SessionProperties.

Context {num : Type} (ar : Scalar.arithmetic num).

Lemma frame_configuration (c c' : controller num) :
  frame c = frame c' ->
  configuration c = configuration c' /\ num_att_layers c = num_att_layers c'.
Proof.
  unfold frame, configuration. intros H.
  injection H as Hcls Hstep Hn Hcur Hb Ha Hw Hl Hc.
  rewrite Hcls, Hn, Hb, Ha, Hw, Hl. split; reflexivity.
Qed.

Lemma call_frame (LOW_RESOURCE : bool) attn is_cross place
      (self : controller num) :
  configuration (snd (call ar LOW_RESOURCE attn is_cross place self))
  = configuration self
  /\ num_att_layers (snd (call ar LOW_RESOURCE attn is_cross place self))
     = num_att_layers self.
Proof.
  apply (call_preserves ar LOW_RESOURCE
           (fun c => configuration c = configuration self
                     /\ num_att_layers c = num_att_layers self)).
  - intros t c [Hc Hn].
    destruct (frame_configuration _ _ (forward_only_stores ar t is_cross place c))
      as [Hc' Hn'].
    split; congruence.
  - intros c H. exact H.
  - intros c [Hc Hn].
    destruct (frame_configuration _ _
                (between_steps_frame ar
                   (set_cur_step (cur_step c + 1) (set_cur_att_layer 0 c))))
      as [Hc' Hn'].
    split; [rewrite Hc'; exact Hc | rewrite Hn'; exact Hn].
  - split; reflexivity.
Qed.

Lemma perform_frame (LOW_RESOURCE : bool) normalized_maps (o : operation num)
      (self : controller num) :
  configuration (perform ar LOW_RESOURCE normalized_maps o self)
  = configuration self
  /\ num_att_layers (perform ar LOW_RESOURCE normalized_maps o self)
     = match o with
       | SetNumAttLayers n => n
       | _ => num_att_layers self
       end.
Proof.
  destruct o as [attn is_cross place | x_t | | n]; cbn [perform].
  - apply call_frame.
  - rewrite step_callback_state. split; reflexivity.
  - unfold reset. destruct (cls self) eqn:E; split; reflexivity.
  - split; reflexivity.
Qed.

Lemma run_frame (LOW_RESOURCE : bool) normalized_maps
      (ops : list (operation num)) (self : controller num) :
  configuration (run ar LOW_RESOURCE normalized_maps ops self)
  = configuration self
  /\ num_att_layers (run ar LOW_RESOURCE normalized_maps ops self)
     = last_registration ops (num_att_layers self).
Proof.
  unfold run, last_registration. revert self.
  induction ops as [|o ops IH]; intros self; cbn [fold_left].
  - split; reflexivity.
  - destruct (IH (perform ar LOW_RESOURCE normalized_maps o self)) as [Hc Hn].
    destruct (perform_frame LOW_RESOURCE normalized_maps o self) as [Hc' Hn'].
    split; [congruence|].
    rewrite Hn, Hn'. destruct o; reflexivity.
Qed.

(** The cumulative store is written on step boundaries only. *)
Lemma forward_keeps_attention_store attn is_cross place
      (self : controller num) :
  attention_store (snd (forward ar attn is_cross place self))
  = attention_store self.
Proof.
  assert (Hs : forall t,
             attention_store
               (snd (AttentionStore.forward t is_cross place self))
             = attention_store self).
  { intro t. unfold AttentionStore.forward.
    unfold bind, lift, gets, id, modify, ret.
    destruct (shape_at t 1) as [d|e]; [| reflexivity].
    destruct (d <=? 32 ^ 2)%nat; [| reflexivity].
    destruct (dict_get _ _); reflexivity. }
  unfold forward. destruct (cls self); try reflexivity.
  - apply Hs.
  - rewrite AttentionControlEdit_forward_unfold.
    specialize (Hs attn).
    destruct (AttentionStore.forward attn is_cross place self)
      as [[a|e] self1]; cbn [snd] in *; [| exact Hs].
    destruct (is_cross || _); [| exact Hs].
    destruct (edited_attention ar _ _ _ _); [| exact Hs].
    cbn [snd]. unfold AttentionControlEdit.write_through.
    unfold bind, gets, id, modify, ret.
    destruct (shape_at attn 1) as [d|e]; [| exact Hs].
    destruct (dict_get _ _); [| exact Hs].
    destruct (d <=? 32 ^ 2)%nat; exact Hs.
Qed.

Lemma transform_phase_keeps (LOW_RESOURCE : bool) attn is_cross place
      (self : controller num) :
  let self1 := snd (transform_phase LOW_RESOURCE (forward ar) attn is_cross
                      place self) in
  frame self1 = frame self /\ attention_store self1 = attention_store self.
Proof.
  cbv zeta. split.
  - apply transform_phase_only_stores. intro t. apply forward_only_stores.
  - unfold transform_phase.
    destruct (_ <=? _)%Z; [| reflexivity].
    destruct LOW_RESOURCE; [apply forward_keeps_attention_store|].
    unfold bind, lift.
    destruct (shape_at attn 0) as [h|e]; [| reflexivity].
    destruct (slice_from _ attn) as [half|e]; [| reflexivity].
    pose proof (forward_keeps_attention_store half is_cross place self) as H.
    destruct (forward ar half is_cross place self) as [[v|e] self1];
      cbn [snd] in *; [| exact H].
    exact H.
Qed.

(** What one interception does to the counters: nothing (the transform
    raised), one more layer, or a completed step. *)
Lemma call_counters (LOW_RESOURCE : bool) attn is_cross place
      (self : controller num) :
  let self' := snd (call ar LOW_RESOURCE attn is_cross place self) in
  (frame self' = frame self /\ attention_store self' = attention_store self)
  \/ ((cur_att_layer self + 1 =? calls_per_step LOW_RESOURCE self)%Z = false
      /\ frame self'
         = frame (set_cur_att_layer (cur_att_layer self + 1) self)
      /\ attention_store self' = attention_store self)
  \/ ((cur_att_layer self + 1 =? calls_per_step LOW_RESOURCE self)%Z = true
      /\ frame self'
         = frame (set_between_steps_calls (S (between_steps_calls self))
                    (set_cur_step (cur_step self + 1)
                       (set_cur_att_layer 0 self)))).
Proof.
  cbv zeta. unfold call. rewrite call_unfold.
  destruct (transform_phase_keeps LOW_RESOURCE attn is_cross place self)
    as [Hf Ha].
  destruct (transform_phase _ _ _ _ _ _) as [[a|e] self1]; cbn [snd] in *;
    [| left; split; assumption].
  cbv zeta.
  assert (Hfields :
            cur_att_layer self1 = cur_att_layer self
            /\ num_att_layers self1 = num_att_layers self
            /\ cur_step self1 = cur_step self
            /\ between_steps_calls self1 = between_steps_calls self).
  { unfold frame in Hf. injection Hf as _ H2 H3 H4 _ _ _ _ H9.
    repeat split; assumption. }
  destruct Hfields as (Hcur & Hn & Hstep & Hcalls).
  assert (Heq :
            (cur_att_layer (set_cur_att_layer (cur_att_layer self1 + 1) self1)
             =? num_att_layers
                  (set_cur_att_layer (cur_att_layer self1 + 1) self1)
                + AttentionControl.num_uncond_att_layers LOW_RESOURCE
                    (set_cur_att_layer (cur_att_layer self1 + 1) self1))%Z
            = (cur_att_layer self + 1 =? calls_per_step LOW_RESOURCE self)%Z).
  { unfold calls_per_step, AttentionControl.num_uncond_att_layers. cbn.
    rewrite Hcur, Hn. reflexivity. }
  rewrite Heq.
  destruct (cur_att_layer self + 1 =? calls_per_step LOW_RESOURCE self)%Z.
  - right. right. split; [reflexivity|].
    pose proof (between_steps_frame ar
                  (set_cur_step
                     (cur_step
                        (set_cur_att_layer (cur_att_layer self1 + 1) self1) + 1)
                     (set_cur_att_layer 0
                        (set_cur_att_layer (cur_att_layer self1 + 1) self1))))
      as Hb.
    destruct (between_steps ar _) as [[u|e] self3]; cbn [snd] in *;
      rewrite Hb; unfold frame in *; cbn;
      injection Hf as H1 H2 H3 H4 H5 H6 H7 H8 H9;
      rewrite H1, H2, H3, H5, H6, H7, H8, H9; reflexivity.
  - right. left. split; [reflexivity|]. cbn [snd]. split.
    + unfold frame in *. cbn.
      injection Hf as H1 H2 H3 H4 H5 H6 H7 H8 H9.
      rewrite H1, H2, H3, H4, H5, H6, H7, H8, H9. reflexivity.
    + exact Ha.
Qed.

(** X1.  Whatever the network and the client do with a controller, in
    either mode and whether the calls return or raise, the fields that the
    constructor set are never written: the class, the batch size, the
    cross-attention schedule, the self-attention window and the local blend
    stay as constructed, and [num_att_layers] is what the last registration
    made it. *)
Theorem run_keeps_configuration :
  forall (LOW_RESOURCE : bool)
         (normalized_maps : tensor num -> store num -> list nat
                            -> result (tensor num))
         (ops : list (operation num)) (self : controller num),
    configuration (run ar LOW_RESOURCE normalized_maps ops self)
    = configuration self
    /\ num_att_layers (run ar LOW_RESOURCE normalized_maps ops self)
       = last_registration ops (num_att_layers self).
Proof.
  intros. apply run_frame.
Qed.

(** X2.  In low-resource mode the first [num_att_layers] interceptions of
    a step, the unconditional pass, go through untouched for a controller of
    any class: the tensor is returned as it came, [forward] is not called,
    nothing is stored and only the layer counter advances. *)
Theorem low_resource_unconditional_pass :
  forall (attn : tensor num) (is_cross : bool) (place_in_unet : string)
         (self : controller num),
    (0 <= cur_att_layer self < num_att_layers self)%Z ->
    call ar true attn is_cross place_in_unet self
    = (Ok attn, set_cur_att_layer (cur_att_layer self + 1) self).
Proof.
  intros attn is_cross place self H.
  unfold call. rewrite call_unfold.
  unfold transform_phase, AttentionControl.num_uncond_att_layers.
  replace (num_att_layers self <=? cur_att_layer self)%Z with false
    by (symmetry; apply Z.leb_gt; lia).
  unfold ret. cbv zeta. cbn [cur_att_layer num_att_layers set_cur_att_layer].
  replace (cur_att_layer self + 1 =? num_att_layers self + num_att_layers self)%Z
    with false by (symmetry; apply Z.eqb_neq; lia).
  reflexivity.
Qed.

(** X3.  A controller that is not registered with a network
    ([num_att_layers] is not positive, as [__init__] leaves it at -1) never
    completes a step: whatever is intercepted and called back, in either
    mode, [cur_step] stays where it was, [between_steps] is never called and
    the cumulative store is never written, so the averages stay what they
    were. *)
Theorem unregistered_never_completes_a_step :
  forall (LOW_RESOURCE : bool)
         (normalized_maps : tensor num -> store num -> list nat
                            -> result (tensor num))
         (ops : list (operation num)) (self : controller num),
    (num_att_layers self <= 0)%Z ->
    (0 <= cur_att_layer self)%Z ->
    forallb from_network ops = true ->
    let self' := run ar LOW_RESOURCE normalized_maps ops self in
    cur_step self' = cur_step self
    /\ between_steps_calls self' = between_steps_calls self
    /\ attention_store self' = attention_store self
    /\ AttentionStore.get_average_attention ar self'
       = AttentionStore.get_average_attention ar self.
Proof.
  intros LOW nm ops self Hn Hcur Hops. cbv zeta.
  assert (H : let self' := run ar LOW nm ops self in
              cur_step self' = cur_step self
              /\ between_steps_calls self' = between_steps_calls self
              /\ attention_store self' = attention_store self).
  { cbv zeta. unfold run. revert self Hn Hcur Hops.
    induction ops as [|o ops IH]; intros self Hn Hcur Hops; cbn [fold_left].
    - repeat split; reflexivity.
    - cbn [forallb] in Hops. apply andb_true_iff in Hops.
      destruct Hops as [Ho Hops].
      assert (Hstep :
                let c := perform ar LOW nm o self in
                (num_att_layers c <= 0)%Z /\ (0 <= cur_att_layer c)%Z
                /\ cur_step c = cur_step self
                /\ between_steps_calls c = between_steps_calls self
                /\ attention_store c = attention_store self).
      { cbv zeta. destruct o as [attn is_cross place | x_t | | n];
          try discriminate; cbn [perform].
        - assert (Hne : (cur_att_layer self + 1
                         =? calls_per_step LOW self)%Z = false).
          { apply Z.eqb_neq. unfold calls_per_step,
              AttentionControl.num_uncond_att_layers.
            destruct LOW; lia. }
          destruct (call_counters LOW attn is_cross place self)
            as [[Hf Ha] | [(_ & Hf & Ha) | (Heq & _)]];
            [| | congruence];
            unfold frame in Hf; injection Hf as _ Hs Hn' Hc _ _ _ _ Hb;
            fields; rewrite Hs, Hn', Hc, Hb, Ha;
            repeat split; try assumption; lia.
        - rewrite step_callback_state. repeat split; assumption. }
      cbv zeta in Hstep. destruct Hstep as (Hn' & Hc' & Hs & Hb & Ha).
      destruct (IH _ Hn' Hc' Hops) as (IHs & IHb & IHa).
      repeat split; congruence. }
  cbv zeta in H. destruct H as (Hs & Hb & Ha).
  repeat split; try assumption.
  unfold AttentionStore.get_average_attention. rewrite Ha, Hs. reflexivity.
Qed.

(** X4.  Once a controller is registered, the layer counter stays within
    a step: as long as no new registration is made, every interception,
    callback and reset, returning or raising, leaves
    [0 <= cur_att_layer < num_att_layers + num_uncond_att_layers], so the
    equality test that ends a step cannot be jumped over. *)
Theorem layer_counter_stays_in_range :
  forall (LOW_RESOURCE : bool)
         (normalized_maps : tensor num -> store num -> list nat
                            -> result (tensor num))
         (ops : list (operation num)) (self : controller num),
    (0 <= cur_att_layer self < calls_per_step LOW_RESOURCE self)%Z ->
    forallb (fun o => negb (is_registration o)) ops = true ->
    let self' := run ar LOW_RESOURCE normalized_maps ops self in
    (0 <= cur_att_layer self' < calls_per_step LOW_RESOURCE self')%Z.
Proof.
  intros LOW nm ops self Hcur Hops. cbv zeta. unfold run.
  revert self Hcur Hops.
  induction ops as [|o ops IH]; intros self Hcur Hops; cbn [fold_left].
  - exact Hcur.
  - cbn [forallb] in Hops. apply andb_true_iff in Hops.
    destruct Hops as [Ho Hops].
    apply IH; [| exact Hops].
    destruct o as [attn is_cross place | x_t | | n]; try discriminate;
      cbn [perform].
    + unfold calls_per_step, AttentionControl.num_uncond_att_layers in *.
      destruct (call_counters LOW attn is_cross place self)
        as [[Hf Ha] | [(Hne & Hf & Ha) | (Heq & Hf)]];
        unfold frame in Hf; injection Hf as _ Hs Hn' Hc _ _ _ _ Hb;
        fields; rewrite Hn', Hc.
      * exact Hcur.
      * apply Z.eqb_neq in Hne. unfold calls_per_step,
          AttentionControl.num_uncond_att_layers in Hne.
        destruct LOW; lia.
      * destruct LOW; lia.
    + rewrite step_callback_state. exact Hcur.
    + unfold calls_per_step, AttentionControl.num_uncond_att_layers in *.
      unfold reset. destruct (cls self); cbn; destruct LOW; lia.
Qed.

(** X5.  EmptyControl changes nothing: in either mode and at any point of
    a step, its call returns, for a tensor with at least one axis, a tensor
    of the same shape and the same elements, and writes neither store. *)
Theorem empty_control_is_identity :
  forall (LOW_RESOURCE : bool) (attn : tensor num) (is_cross : bool)
         (place_in_unet : string) (self : controller num)
         (d : nat) (s : list nat),
    cls self = ClsEmptyControl ->
    shape attn = d :: s ->
    exists out,
      fst (call ar LOW_RESOURCE attn is_cross place_in_unet self) = Ok out
      /\ shape out = shape attn
      /\ (forall idx, in_bounds (shape attn) idx = true ->
                      data out idx = data attn idx)
      /\ step_store (snd (call ar LOW_RESOURCE attn is_cross place_in_unet
                            self))
         = step_store self
      /\ attention_store (snd (call ar LOW_RESOURCE attn is_cross
                                 place_in_unet self))
         = attention_store self.
Proof.
  intros LOW attn is_cross place self d s Hcls Hshape.
  unfold call. rewrite call_unfold.
  assert (Hphase :
            exists out,
              transform_phase LOW (forward ar) attn is_cross place self
              = (Ok out, self)
              /\ shape out = shape attn
              /\ (forall idx, in_bounds (shape attn) idx = true ->
                              data out idx = data attn idx)).
  { unfold transform_phase.
    destruct (_ <=? _)%Z;
      [| exists attn; repeat split; reflexivity].
    destruct LOW.
    - exists attn. unfold forward. rewrite Hcls. repeat split; reflexivity.
    - unfold bind, lift, shape_at. rewrite Hshape. cbn [nth_error].
      unfold slice_from. rewrite Hshape.
      unfold forward at 1. rewrite Hcls.
      unfold EmptyControl.forward, ret.
      match goal with
      | |- context [setitem_from ?k attn ?v] =>
          destruct (setitem_from_same_shape k attn v d s Hshape eq_refl)
            as (w & Hw & Hsw & Hdw)
      end.
      rewrite Hw. exists w. split; [reflexivity|].
      split; [exact Hsw|].
      intros idx Hidx.
      destruct idx as [|i idx]; [discriminate|].
      rewrite (Hdw i idx Hidx). cbn [data].
      destruct (Nat.ltb_spec i (d / 2)); [reflexivity|].
      f_equal. f_equal. lia. }
  destruct Hphase as (out & -> & Hs & Hd). cbv zeta.
  exists out.
  destruct (_ =? _)%Z.
  - unfold between_steps. cbn [cls set_between_steps_calls set_cur_step
                                 set_cur_att_layer].
    rewrite Hcls. cbn. repeat split; assumption.
  - cbn. repeat split; assumption.
Qed.


(** X7.  [reset] brings a storing controller back to where it started:
    after any session from a state with empty stores and zeroed counters,
    the reset controller is that starting state again, with the number of
    layers of the last registration; only the count of past step
    boundaries, which no method reads, differs. *)
Theorem reset_restores_the_start :
  forall (LOW_RESOURCE : bool)
         (normalized_maps : tensor num -> store num -> list nat
                            -> result (tensor num))
         (ops : list (operation num)) (start : controller num),
    is_storing (cls start) = true ->
    initialized start ->
    cur_att_layer start = 0%Z ->
    set_between_steps_calls 0
      (snd (reset (run ar LOW_RESOURCE normalized_maps ops start)))
    = set_between_steps_calls 0
        (set_num_att_layers (last_registration ops (num_att_layers start))
           start).
Proof.
  intros LOW nm ops start Hcls (Hss & Has & Hstep) Hcur.
  destruct (run_frame LOW nm ops start) as [Hc Hn].
  revert Hc Hn.
  generalize (run ar LOW nm ops start). intros self Hc Hn.
  unfold configuration in Hc.
  destruct self as [c' st' n' cur' ss' ats' bs' cra' nsr' lb' calls'].
  destruct start as [c st n cur ss ats bs cra nsr lb calls].
  cbn in Hc, Hn, Hss, Has, Hstep, Hcur, Hcls.
  injection Hc as -> -> -> -> ->. subst.
  unfold reset.
  destruct c; try discriminate; reflexivity.
Qed.

End SessionProperties.

(** ** The step store and the cumulative store *)

Section StoreProperties.

Context {num : Type} (ar : Scalar.arithmetic num).

Lemma inplace_add_into (a s : tensor num) :
  inplace (Scalar.add ar) a s
  = if expandable_to (shape s) (shape a) then Ok (add_into ar a s)
    else Raise RuntimeError.
Proof. reflexivity. Qed.

Lemma dict_get_not_in_keys {V} key (d : dict V) :
  ~ In key (dict_keys d) -> dict_get key d = Raise KeyError.
Proof.
  induction d as [|[k v] d IH]; intros H; cbn; [reflexivity|].
  destruct (String.eqb_spec key k) as [->|Hne].
  - exfalso. apply H. left. reflexivity.
  - apply IH. intro Hin. apply H. right. exact Hin.
Qed.

Lemma for_each_cons {A} (x : A) (l : list A) (body : A -> M num unit)
      (self : controller num) :
  for_each (x :: l) body self
  = match body x self with
    | (Ok _, self') => for_each l body self'
    | (Raise e, self') => (Raise e, self')
    end.
Proof. reflexivity. Qed.

(** The inner loop of [between_steps], over the positions not yet
    visited. *)
Lemma add_positions key (todo todoS done doneS : list (tensor num))
      (self : controller num) :
  List.length done = List.length doneS ->
  dict_get key (attention_store self) = Ok (done ++ todo) ->
  dict_get key (step_store self) = Ok (doneS ++ todoS) ->
  if addable todo todoS
  then
    for_each (seq (List.length done) (List.length todo))
      (fun i => AttentionStore.accumulate ar key i) self
    = (Ok tt,
       set_attention_store
         (dict_set key (done ++ add_lists ar todo todoS)
            (attention_store self)) self)
  else
    exists e self',
      for_each (seq (List.length done) (List.length todo))
        (fun i => AttentionStore.accumulate ar key i) self
      = (Raise e, self').
Proof.
  revert todoS done doneS self.
  induction todo as [|a todo IH]; intros todoS done doneS self Hlen Hacc Hstp.
  - cbn [addable add_lists List.length seq for_each].
    unfold ret. f_equal.
    rewrite (dict_set_get_same _ _ _ Hacc). destruct self. reflexivity.
  - destruct todoS as [|s todoS].
    + cbn [addable]. cbn [List.length seq for_each].
      unfold bind at 1.
      unfold AttentionStore.accumulate, bind, gets, id, lift, modify.
      rewrite Hacc, list_get_middle, Hstp, app_nil_r.
      unfold list_get.
      replace (nth_error doneS (List.length done)) with (@None (tensor num))
        by (symmetry; apply nth_error_None; lia).
      eexists. eexists. reflexivity.
    + cbn [addable add_lists]. cbn [List.length seq].
      rewrite !for_each_cons.
      assert (Hstep :
                AttentionStore.accumulate ar key (List.length done) self
                = if expandable_to (shape s) (shape a)
                  then (Ok tt,
                        set_attention_store
                          (dict_set key (done ++ add_into ar a s :: todo)
                             (attention_store self)) self)
                  else (Raise RuntimeError, self)).
      { unfold AttentionStore.accumulate, bind, gets, id, lift, modify.
        rewrite Hacc, list_get_middle, Hstp, Hlen, list_get_middle.
        rewrite inplace_add_into.
        destruct (expandable_to (shape s) (shape a)); [| reflexivity].
        rewrite <- Hlen, list_set_middle. reflexivity. }
      rewrite Hstep.
      destruct (expandable_to (shape s) (shape a)); cbn [andb];
        [| eexists; eexists; reflexivity].
      specialize (IH todoS (done ++ [add_into ar a s]) (doneS ++ [s])
                    (set_attention_store
                       (dict_set key (done ++ add_into ar a s :: todo)
                          (attention_store self)) self)).
      replace (S (List.length done))
        with (List.length (done ++ [add_into ar a s]))
        by (rewrite length_app; cbn; lia).
      cbn [attention_store step_store set_attention_store] in IH.
      rewrite <- !app_assoc in IH. cbn [app] in IH.
      specialize (IH ltac:(rewrite !length_app; cbn; lia)
                     (dict_get_set_same key _ _ _ Hacc) Hstp).
      destruct (addable todo todoS); [| exact IH].
      rewrite IH. f_equal.
      cbn [attention_store set_attention_store].
      rewrite dict_set_set. reflexivity.
Qed.

Lemma dict_get_app_other {V} key (pre post : dict V) :
  ~ In key (dict_keys pre) -> dict_get key (pre ++ post) = dict_get key post.
Proof.
  induction pre as [|[k v] pre IH]; intros H; cbn; [reflexivity|].
  destruct (String.eqb_spec key k) as [->|Hne].
  - exfalso. apply H. left. reflexivity.
  - apply IH. intro Hin. apply H. right. exact Hin.
Qed.

(** The inner loop at one key. *)
Lemma add_key key (acc : list (tensor num)) (self : controller num) :
  dict_get key (attention_store self) = Ok acc ->
  if addable_at (step_store self) key acc
  then
    for_each (seq 0 (List.length acc))
      (fun i => AttentionStore.accumulate ar key i) self
    = (Ok tt,
       set_attention_store
         (dict_set key (accumulated_at ar (step_store self) key acc)
            (attention_store self)) self)
  else
    exists e self',
      for_each (seq 0 (List.length acc))
        (fun i => AttentionStore.accumulate ar key i) self
      = (Raise e, self').
Proof.
  intros Hget. unfold addable_at, accumulated_at.
  destruct acc as [|a acc].
  - cbn [List.length seq for_each]. unfold ret. f_equal.
    replace (match dict_get key (step_store self) with
             | Ok stp => add_lists ar [] stp
             | Raise _ => []
             end) with (@nil (tensor num))
      by (destruct (dict_get key (step_store self)); reflexivity).
    rewrite (dict_set_get_same _ _ _ Hget). destruct self. reflexivity.
  - destruct (dict_get key (step_store self)) as [stp|e] eqn:Hstp.
    + exact (add_positions key (a :: acc) stp [] [] self eq_refl Hget Hstp).
    + cbn [List.length seq for_each]. unfold bind at 1.
      unfold AttentionStore.accumulate, bind, gets, id, lift, modify.
      rewrite Hget. cbn [list_get nth_error]. rewrite Hstp.
      eexists. eexists. reflexivity.
Qed.

(** The outer loop of [between_steps], over the keys not yet visited. *)
Lemma add_keys (post pre : store num) (self : controller num) :
  attention_store self = pre ++ post ->
  NoDup (dict_keys (pre ++ post)) ->
  if can_accumulate post (step_store self)
  then
    for_each (dict_keys post)
      (fun key =>
         bind (gets (fun self => dict_get key (attention_store self)))
           (fun acc => bind (lift acc)
              (fun acc =>
                 for_each (seq 0 (List.length acc))
                   (fun i => AttentionStore.accumulate ar key i)))) self
    = (Ok tt,
       set_attention_store (pre ++ accumulated ar post (step_store self)) self)
  else
    exists e self',
      for_each (dict_keys post)
        (fun key =>
           bind (gets (fun self => dict_get key (attention_store self)))
             (fun acc => bind (lift acc)
                (fun acc =>
                   for_each (seq 0 (List.length acc))
                     (fun i => AttentionStore.accumulate ar key i)))) self
      = (Raise e, self').
Proof.
  revert pre self.
  induction post as [|[k l] post IH]; intros pre self Hacc Hnd.
  - cbn [can_accumulate forallb accumulated map dict_keys for_each].
    unfold ret. f_equal. rewrite <- Hacc. destruct self. reflexivity.
  - assert (Hnk : ~ In k (dict_keys pre)).
    { unfold dict_keys in *. rewrite map_app in Hnd. cbn in Hnd.
      apply NoDup_remove_2 in Hnd. intro H. apply Hnd.
      apply in_or_app. left. exact H. }
    assert (Hget : dict_get k (attention_store self) = Ok l)
      by (rewrite Hacc; apply dict_get_middle; exact Hnk).
    cbn [can_accumulate forallb accumulated map fst snd].
    cbn [dict_keys map fst].
    rewrite !for_each_cons. cbv beta.
    assert (Hbody :
              bind (gets (fun self => dict_get k (attention_store self)))
                (fun acc => bind (lift acc)
                   (fun acc =>
                      for_each (seq 0 (List.length acc))
                        (fun i => AttentionStore.accumulate ar k i))) self
              = for_each (seq 0 (List.length l))
                  (fun i => AttentionStore.accumulate ar k i) self).
    { unfold bind at 1. unfold gets at 1. rewrite Hget.
      unfold bind at 1. unfold lift at 1. reflexivity. }
    rewrite Hbody. clear Hbody.
    pose proof (add_key k l self Hget) as Hloop.
    destruct (addable_at (step_store self) k l); cbn [andb].
    + rewrite Hloop.
      rewrite Hacc, dict_set_middle by exact Hnk.
      specialize (IH (pre ++ [(k, accumulated_at ar (step_store self) k l)])
                    (set_attention_store
                       (pre ++ (k, accumulated_at ar (step_store self) k l)
                            :: post) self)).
      cbn [attention_store step_store set_attention_store] in IH.
      rewrite <- !app_assoc in IH. cbn [app] in IH.
      specialize (IH eq_refl).
      assert (Hnd' : NoDup (dict_keys
                              (pre ++ (k, accumulated_at ar (step_store self)
                                            k l) :: post))).
      { unfold dict_keys in *. rewrite map_app in *. exact Hnd. }
      specialize (IH Hnd').
      fold (can_accumulate post (step_store self)) in *.
      fold (dict_keys post).
      destruct (can_accumulate post (step_store self)); [| exact IH].
      rewrite IH. reflexivity.
    + destruct Hloop as (e & self' & Hloop). rewrite Hloop.
      eexists. eexists. reflexivity.
Qed.

(** The loops of [between_steps] write the cumulative store only. *)
Lemma accumulate_keeps_step_store key i (S : store num) :
  preserves (fun c => step_store c = S) (AttentionStore.accumulate ar key i).
Proof.
  unfold AttentionStore.accumulate.
  repeat preserves_step.
Qed.

Lemma between_steps_loop_keeps_step_store (S : store num) keys :
  preserves (fun c => step_store c = S)
    (for_each keys
       (fun key =>
          bind (gets (fun self => dict_get key (attention_store self)))
            (fun acc => bind (lift acc)
               (fun acc =>
                  for_each (seq 0 (List.length acc))
                    (fun i => AttentionStore.accumulate ar key i))))).
Proof.
  apply preserves_for_each. intro key.
  apply preserves_bind; [apply preserves_gets | intro r].
  apply preserves_bind; [apply preserves_lift | intro acc].
  apply preserves_for_each. intro i. apply accumulate_keeps_step_store.
Qed.

Lemma AttentionStore_between_steps_unfold (self : controller num) :
  attention_store self <> [] ->
  AttentionStore.between_steps ar self
  = match
      for_each (dict_keys (attention_store self))
        (fun key =>
           bind (gets (fun self => dict_get key (attention_store self)))
             (fun acc => bind (lift acc)
                (fun acc =>
                   for_each (seq 0 (List.length acc))
                     (fun i => AttentionStore.accumulate ar key i)))) self
    with
    | (Ok _, self') =>
        (Ok tt, set_step_store AttentionStore.get_empty_store self')
    | (Raise e, self') => (Raise e, self')
    end.
Proof.
  intros Hne. unfold AttentionStore.between_steps.
  unfold bind at 1, gets at 1, id.
  destruct (attention_store self) as [|kv A] eqn:EA; [congruence|].
  cbn [List.length Nat.eqb].
  unfold bind at 1. rewrite <- EA.
  destruct (for_each _ _ self) as [[u|e] self']; reflexivity.
Qed.

(** A key of the step store has a list, whatever the calls before. *)
Lemma forward_keeps_locations attn is_cross place (K : list string) :
  preserves (num:=num) (fun c => dict_keys (step_store c) = K)
    (forward ar attn is_cross place).
Proof.
  assert (Hs : forall t,
             preserves (num:=num) (fun c => dict_keys (step_store c) = K)
               (AttentionStore.forward t is_cross place)).
  { intros t self H. unfold AttentionStore.forward.
    unfold bind, lift, gets, id, modify, ret.
    destruct (shape_at t 1) as [d|e]; [| exact H].
    destruct (d <=? 32 ^ 2)%nat; [| exact H].
    destruct (dict_get _ _); [| exact H].
    cbv beta. cbn [snd step_store set_step_store]. rewrite dict_keys_set. exact H. }
  intros self H. unfold forward. destruct (cls self); try exact H.
  - apply Hs. exact H.
  - rewrite AttentionControlEdit_forward_unfold.
    specialize (Hs attn self H).
    destruct (AttentionStore.forward attn is_cross place self)
      as [[a|e] self1]; cbn [snd] in *; [| exact Hs].
    destruct (is_cross || _); [| exact Hs].
    destruct (edited_attention ar _ _ _ _); [| exact Hs].
    cbn [snd]. unfold AttentionControlEdit.write_through.
    unfold bind, gets, id, modify, ret.
    destruct (shape_at attn 1) as [d|e]; [| exact Hs].
    destruct (dict_get _ _); [| exact Hs].
    destruct (d <=? 32 ^ 2)%nat; [| exact Hs].
    cbv beta. cbn [snd step_store set_step_store]. rewrite dict_keys_set. exact Hs.
Qed.

Lemma AttentionStore_between_steps_locations (self : controller num) :
  has_locations self ->
  has_locations (snd (AttentionStore.between_steps ar self)).
Proof.
  intros H. unfold has_locations in *.
  destruct (attention_store self) as [|kv A] eqn:EA.
  - rewrite AttentionStore_between_steps_first by exact EA. reflexivity.
  - rewrite AttentionStore_between_steps_unfold by congruence.
    pose proof (between_steps_loop_keeps_step_store (step_store self)
                  (dict_keys (attention_store self)) self eq_refl) as Hl.
    destruct (for_each _ _ self) as [[u|e] self']; cbn [snd] in *.
    + reflexivity.
    + rewrite Hl. exact H.
Qed.

Lemma run_keeps_locations LOW_RESOURCE normalized_maps
      (ops : list (operation num)) (self : controller num) :
  has_locations self ->
  has_locations (run ar LOW_RESOURCE normalized_maps ops self).
Proof.
  unfold run. revert self.
  induction ops as [|o ops IH]; intros self H; cbn [fold_left];
    [exact H|].
  apply IH. destruct o as [attn is_cross place | x_t | | n]; cbn [perform].
  - apply (call_preserves ar LOW_RESOURCE has_locations); try exact H.
    + intro t. apply forward_keeps_locations.
    + intros c Hc. exact Hc.
    + intros c Hc. unfold between_steps.
      destruct (cls c) eqn:E; cbn [cls set_between_steps_calls set_cur_step
                                     set_cur_att_layer]; rewrite ?E;
        first [ exact Hc
              | apply AttentionStore_between_steps_locations; exact Hc ].
  - rewrite step_callback_state. exact H.
  - unfold reset. destruct (cls self); first [exact H | reflexivity].
  - exact H.
Qed.

Ltac peel_key H :=
  repeat match type of H with
         | _ = (?p ++ _)%string =>
             destruct p as [|? p]; cbn [append] in H;
             [ try discriminate H
             | first [ discriminate H | injection H as ? H; subst ] ]
         end.

Lemma location_key_stage (is_cross : bool) (place : string) :
  In (AttentionStore.location_key is_cross place)
     (dict_keys (AttentionStore.get_empty_store (num:=num))) ->
  In place ["down"; "mid"; "up"]%string.
Proof.
  unfold AttentionStore.location_key. cbn [dict_keys map fst
    AttentionStore.get_empty_store In].
  intros H.
  destruct is_cross;
    repeat (destruct H as [H|H]); try contradiction;
    peel_key H; cbn; auto.
Qed.


(** X9.  When a cumulative map has no partner in the step (its key or its
    position is missing in the step store) or the shapes do not fit,
    [between_steps] raises, and it raises before it clears the step store:
    the maps of the failed step stay in the buffer. *)
Theorem between_steps_failure_keeps_the_step :
  forall (self : controller num),
    attention_store self <> [] ->
    NoDup (dict_keys (attention_store self)) ->
    can_accumulate (attention_store self) (step_store self) = false ->
    exists e self',
      AttentionStore.between_steps ar self = (Raise e, self')
      /\ step_store self' = step_store self.
Proof.
  intros self Hne Hnd Hcan.
  rewrite AttentionStore_between_steps_unfold by exact Hne.
  pose proof (add_keys (attention_store self) [] self eq_refl Hnd) as H.
  rewrite Hcan in H. destruct H as (e & self' & H).
  pose proof (between_steps_loop_keeps_step_store (step_store self)
                (dict_keys (attention_store self)) self eq_refl) as Hl.
  rewrite H in *. cbn [snd] in Hl.
  exists e, self'. split; [reflexivity | exact Hl].
Qed.

Lemma list_set_shapes (i : nat) (a a' : tensor num) (acc : list (tensor num)) :
  list_get acc i = Ok a -> shape a' = shape a ->
  map (@shape num) (list_set i a' acc) = map (@shape num) acc.
Proof.
  revert i. induction acc as [|x acc IH]; intros [|i] Hget Hs;
    cbn in *; try reflexivity.
  - unfold list_get in Hget. cbn in Hget. injection Hget as ->.
    rewrite Hs. reflexivity.
  - f_equal. apply IH; assumption.
Qed.

Lemma layout_set key (acc acc' : list (tensor num)) (A : store num) :
  dict_get key A = Ok acc ->
  map (@shape num) acc' = map (@shape num) acc ->
  layout (dict_set key acc' A) = layout A.
Proof.
  induction A as [|[k v] A IH]; intros Hget Hs; cbn in *; [reflexivity|].
  destruct (String.eqb key k).
  - injection Hget as ->. cbn. rewrite Hs. reflexivity.
  - cbn. f_equal. apply IH; assumption.
Qed.

Lemma accumulate_layout key i L :
  preserves (fun c => layout (attention_store c) = L)
    (AttentionStore.accumulate ar key i).
Proof.
  intros self H. unfold AttentionStore.accumulate.
  unfold bind, gets, id, lift, modify.
  destruct (dict_get key (attention_store self)) as [acc|e] eqn:Hacc;
    [| exact H].
  destruct (list_get acc i) as [a|e] eqn:Ha; [| exact H].
  destruct (dict_get key (step_store self)) as [stp|e]; [| exact H].
  destruct (list_get stp i) as [s|e]; [| exact H].
  destruct (inplace (Scalar.add ar) a s) as [a'|e] eqn:Hadd; [| exact H].
  cbn. rewrite <- H.
  apply (layout_set key acc _ _ Hacc).
  apply (list_set_shapes i a a' acc Ha).
  exact (inplace_shape _ _ _ _ Hadd).
Qed.

Lemma between_steps_layout (self : controller num) L :
  L <> [] ->
  layout (attention_store self) = L ->
  layout (attention_store (snd (between_steps ar self))) = L.
Proof.
  intros HL H. unfold between_steps.
  destruct (cls self) eqn:E; cbn [cls set_between_steps_calls]; rewrite ?E;
    try exact H.
  all: match goal with
       | |- context [AttentionStore.between_steps ar ?c] =>
           assert (Hne : attention_store c <> [])
             by (cbn; intro Hn; rewrite Hn in H; cbn in H; congruence);
           rewrite AttentionStore_between_steps_unfold by exact Hne;
           assert (Hl : layout (attention_store
                                  (snd (for_each
                                          (dict_keys (attention_store c))
                  (fun key =>
                     bind (gets (fun self => dict_get key
                                               (attention_store self)))
                       (fun acc => bind (lift acc)
                          (fun acc =>
                             for_each (seq 0 (List.length acc))
                               (fun i => AttentionStore.accumulate ar key i))))
                                          c))) = L)
       end.
  all: try (apply (preserves_for_each
                     (fun c => layout (attention_store c) = L));
            [| exact H];
            intro key;
            apply preserves_bind; [apply preserves_gets | intro r];
            apply preserves_bind; [apply preserves_lift | intro acc];
            apply preserves_for_each; intro i; apply accumulate_layout).
  all: destruct (for_each _ _ _) as [[u|e] self']; cbn [snd] in *; exact Hl.
Qed.

(** X10.  The first completed step fixes the layout of the cumulative
    store: as long as the controller is not reset, no interception, callback
    or registration, in either mode and whether it returns or raises,
    changes the keys of a non-empty cumulative store, the number of maps
    under a key or the shape of a map. *)
Theorem cumulative_layout_is_fixed :
  forall (LOW_RESOURCE : bool)
         (normalized_maps : tensor num -> store num -> list nat
                            -> result (tensor num))
         (ops : list (operation num)) (self : controller num),
    attention_store self <> [] ->
    forallb (fun o => negb (is_reset o)) ops = true ->
    layout (attention_store (run ar LOW_RESOURCE normalized_maps ops self))
    = layout (attention_store self).
Proof.
  intros LOW nm ops self Hne Hops.
  assert (HL : layout (attention_store self) <> []).
  { destruct (attention_store self); [congruence | discriminate]. }
  revert HL. generalize (eq_refl (layout (attention_store self))).
  generalize (layout (attention_store self)) at 2 3 4 as L.
  intros L HP HL. clear Hne. unfold run. revert self HP Hops.
  induction ops as [|o ops IH]; intros self HP Hops; cbn [fold_left];
    [exact HP|].
  cbn [forallb] in Hops. apply andb_true_iff in Hops.
  destruct Hops as [Ho Hops].
  apply IH; [| exact Hops].
  destruct o as [attn is_cross place | x_t | | n]; try discriminate;
    cbn [perform].
  - apply (call_preserves ar LOW
             (fun c => layout (attention_store c) = L)); try exact HP.
    + intros t c Hc. rewrite forward_keeps_attention_store. exact Hc.
    + intros c Hc. exact Hc.
    + intros c Hc. apply between_steps_layout; [exact HL | exact Hc].
  - rewrite step_callback_state. exact HP.
  - exact HP.
Qed.

(** X11.  However a session went, the step store of a controller that
    started with the six location keys still has a list for each of them:
    the storing [forward] returns its input for a map with a batch and a
    query axis sent to any of the three stages, and it appends the map to
    the list of the location exactly when the query axis is at most
    [32 ** 2]. *)
Theorem every_stage_has_its_list :
  forall (LOW_RESOURCE : bool)
         (normalized_maps : tensor num -> store num -> list nat
                            -> result (tensor num))
         (ops : list (operation num)) (start : controller num)
         (attn : tensor num) (is_cross : bool) (place_in_unet : string)
         (n q : nat) (rest : list nat),
    has_locations start ->
    In place_in_unet ["down"; "mid"; "up"]%string ->
    shape attn = n :: q :: rest ->
    let self := run ar LOW_RESOURCE normalized_maps ops start in
    let key := AttentionStore.location_key is_cross place_in_unet in
    exists l,
      dict_get key (step_store self) = Ok l
      /\ AttentionStore.forward attn is_cross place_in_unet self
         = (Ok attn,
            if (q <=? 32 ^ 2)%nat
            then set_step_store (dict_set key (l ++ [attn]) (step_store self))
                   self
            else self).
Proof.
  intros LOW nm ops start attn is_cross place n q rest Hloc Hplace Hshape.
  cbv zeta.
  pose proof (run_keeps_locations LOW nm ops start Hloc) as Hk.
  destruct (dict_get_in_keys (AttentionStore.location_key is_cross place)
              (step_store (run ar LOW nm ops start))) as [l Hl].
  { rewrite Hk.
    apply (layer_key_valid (attn, is_cross, place)).
    split; [cbn; rewrite Hshape; cbn; lia | exact Hplace]. }
  exists l. split; [exact Hl|].
  apply (AttentionStore_forward_returns attn is_cross place _ n q rest l Hshape
           Hl).
Qed.

(** X12.  A stage name other than the three of the store is noticed only
    for the maps that would be stored: with the six location keys in the
    step store, [forward] raises KeyError and writes nothing when the query
    axis is at most [32 ** 2], and returns its input, the key never looked
    up, when the map is larger. *)
Theorem unknown_stage_raises_for_small_maps :
  forall (attn : tensor num) (is_cross : bool) (place_in_unet : string)
         (self : controller num) (n q : nat) (rest : list nat),
    has_locations self ->
    ~ In place_in_unet ["down"; "mid"; "up"]%string ->
    shape attn = n :: q :: rest ->
    AttentionStore.forward attn is_cross place_in_unet self
    = if (q <=? 32 ^ 2)%nat then (Raise KeyError, self) else (Ok attn, self).
Proof.
  intros attn is_cross place self n q rest Hloc Hplace Hshape.
  unfold AttentionStore.forward, bind, lift, gets, id, modify, ret, shape_at.
  rewrite Hshape. cbn [nth_error].
  destruct (q <=? 32 ^ 2)%nat; [| reflexivity].
  rewrite dict_get_not_in_keys; [reflexivity|].
  rewrite Hloc. intro Hin. apply Hplace.
  exact (location_key_stage is_cross place Hin).
Qed.

Lemma edit_init_state (c : class num) prompts num_steps
      (time_words_attention_alpha : tensor num) self_replace_steps blend
      (self : controller num) :
  construct ar c
    (AttentionControlEdit.__init__ prompts num_steps
       time_words_attention_alpha self_replace_steps blend) = Ok self ->
  cls self = c
  /\ initialized self /\ has_locations self
  /\ cur_att_layer self = 0%Z /\ num_att_layers self = (-1)%Z.
Proof.
  unfold construct.
  destruct (AttentionControlEdit.__init__ _ _ _ _ _ _)
    as [[u|e] c'] eqn:E; [| discriminate].
  intros [= <-].
  unfold AttentionControlEdit.__init__, AttentionStore.__init__,
    AttentionControl.__init__, bind, modify, lift in E.
  cbn [blank] in E.
  destruct (AttentionControlEdit.steps_of _ _); [| discriminate].
  destruct (AttentionControlEdit.steps_of _ _); [| discriminate].
  injection E as _ <-. repeat split; reflexivity.
Qed.

(** X16.  Every constructor of a storing controller returns an object
    with zeroed counters, the six empty lists in the step store, an empty
    cumulative store and [num_att_layers] at -1, that is, not registered
    with a network; this holds for AttentionStore and for the three editing
    classes, whatever the arguments. *)
Theorem constructors_leave_the_stores_empty :
  forall (prompts : list string) (num_steps : Z)
         (time_words_attention_alpha : tensor num)
         (self_replace_steps : self_replace_arg)
         (blend : option (LocalBlend_t num))
         (replacement_mapper : tensor num) (refinement_mapper : tensor Z)
         (alphas equalizer : tensor num) (prev : option (strategy num))
         (self : controller num),
    new_AttentionStore ar = Ok self
    \/ new_AttentionReplace ar prompts num_steps time_words_attention_alpha
         self_replace_steps blend replacement_mapper = Ok self
    \/ new_AttentionRefine ar prompts num_steps time_words_attention_alpha
         self_replace_steps blend refinement_mapper alphas = Ok self
    \/ new_AttentionReweight ar prompts num_steps time_words_attention_alpha
         self_replace_steps equalizer blend prev = Ok self ->
    initialized self
    /\ has_locations self
    /\ cur_att_layer self = 0%Z
    /\ num_att_layers self = (-1)%Z
    /\ is_storing (cls self) = true.
Proof.
  intros prompts num_steps alpha srs blend rmap fmap alphas equalizer prev
         self [H|[H|[H|H]]].
  - unfold new_AttentionStore, construct in H. cbn in H.
    injection H as <-. repeat split; reflexivity.
  - destruct (edit_init_state _ _ _ _ _ _ _ H) as (Hc & Hi & Hl & Hcur & Hn).
    rewrite Hc. repeat split; solve [apply Hi | assumption | reflexivity].
  - unfold new_AttentionRefine in H.
    destruct (construct ar _ _) as [c|e] eqn:E; [| discriminate].
    cbn [rbind] in H.
    destruct (AttentionRefine.reshape_alphas alphas) as [a|e];
      [| discriminate].
    cbn [rbind] in H. injection H as <-.
    destruct (edit_init_state _ _ _ _ _ _ _ E) as (Hc & Hi & Hl & Hcur & Hn).
    repeat split; solve [apply Hi | assumption | reflexivity].
  - destruct (edit_init_state _ _ _ _ _ _ _ H) as (Hc & Hi & Hl & Hcur & Hn).
    rewrite Hc. repeat split; solve [apply Hi | assumption | reflexivity].
Qed.

End StoreProperties.

(** ** What the editing controllers record *)

Section EditState.

Context {num : Type} (ar : Scalar.arithmetic num).

(** [forward] of an editing controller on a map with a batch and a query
    axis whose location has a list: the input is recorded first; the edit
    reads the fields outside the stores; the write through the view
    replaces the recorded entry. *)
Lemma editing_forward_cases (s : strategy num) (attn : tensor num)
      (is_cross : bool) (place : string) (self : controller num)
      (n q : nat) (rest : list nat) (l : list (tensor num)) :
  cls self = ClsAttentionControlEdit s ->
  shape attn = n :: q :: rest ->
  dict_get (AttentionStore.location_key is_cross place) (step_store self)
    = Ok l ->
  forward ar attn is_cross place self
  = let key := AttentionStore.location_key is_cross place in
    let keep (t : tensor num) :=
      if (q <=? 32 ^ 2)%nat
      then set_step_store (dict_set key (l ++ [t]) (step_store self)) self
      else self in
    if is_cross || in_self_window self
    then
      match edited_attention ar (replace_cross_attention ar s) self attn
              is_cross with
      | Ok out => (Ok out, keep (mk (shape attn) (data out)))
      | Raise e => (Raise e, keep attn)
      end
    else (Ok attn, keep attn).
Proof.
  intros Hcls Hshape Hl. cbv zeta.
  unfold forward. rewrite Hcls.
  rewrite AttentionControlEdit_forward_unfold.
  rewrite (AttentionStore_forward_returns attn is_cross place self n q rest l
             Hshape Hl).
  set (key := AttentionStore.location_key is_cross place) in *.
  assert (Hw : forall c, in_self_window
                           (if (q <=? 32 ^ 2)%nat
                            then set_step_store c self else self)
                         = in_self_window self)
    by (intro c; destruct (q <=? 32 ^ 2)%nat; reflexivity).
  rewrite Hw.
  destruct (is_cross || in_self_window self); [| reflexivity].
  assert (He : forall c,
             edited_attention ar (replace_cross_attention ar s)
               (if (q <=? 32 ^ 2)%nat then set_step_store c self else self)
               attn is_cross
             = edited_attention ar (replace_cross_attention ar s) self attn
                 is_cross)
    by (intro c; destruct (q <=? 32 ^ 2)%nat; reflexivity).
  rewrite He.
  destruct (edited_attention ar _ self attn is_cross) as [out|e];
    [| reflexivity].
  f_equal.
  unfold AttentionControlEdit.write_through, bind, gets, id, modify, ret.
  unfold shape_at. rewrite Hshape. cbn [nth_error].
  destruct (q <=? 32 ^ 2)%nat eqn:Hq.
  - cbn [step_store set_step_store].
    rewrite (dict_get_set_same key l (l ++ [attn]) (step_store self) Hl).
    cbn [snd].
    rewrite removelast_last, dict_set_set. rewrite <- Hshape. reflexivity.
  - rewrite Hl. reflexivity.
Qed.

(** X13.  An editing controller records what it returns, not what it
    received: the edit is written through a view of the tensor that was
    appended to the step store, so when [forward] edits a map that is small
    enough to be stored, the entry of the step store holds the edited
    elements, in the shape of the input. *)
Theorem editing_records_the_edited_map :
  forall (s : strategy num) (attn out : tensor num) (is_cross : bool)
         (place_in_unet : string) (self : controller num)
         (n q : nat) (rest : list nat) (l : list (tensor num)),
    cls self = ClsAttentionControlEdit s ->
    shape attn = n :: q :: rest ->
    (q <= 32 ^ 2)%nat ->
    dict_get (AttentionStore.location_key is_cross place_in_unet)
      (step_store self) = Ok l ->
    is_cross || in_self_window self = true ->
    edited_attention ar (replace_cross_attention ar s) self attn is_cross
      = Ok out ->
    forward ar attn is_cross place_in_unet self
    = (Ok out,
       set_step_store
         (dict_set (AttentionStore.location_key is_cross place_in_unet)
            (l ++ [mk (shape attn) (data out)]) (step_store self)) self).
Proof.
  intros s attn out is_cross place self n q rest l Hcls Hshape Hq Hl Hedit
         Hout.
  rewrite (editing_forward_cases s attn is_cross place self n q rest l Hcls
             Hshape Hl).
  cbv zeta. rewrite Hedit, Hout.
  apply Nat.leb_le in Hq. rewrite Hq. reflexivity.
Qed.

(** X14.  A failed edit is not undone: when the edit of a stored map
    raises, the exception leaves [forward] after the input was appended to
    the step store, so the store holds the unedited map of the failed call. *)
Theorem failed_edit_leaves_the_input_recorded :
  forall (s : strategy num) (attn : tensor num) (is_cross : bool)
         (place_in_unet : string) (self : controller num) (e : exn)
         (n q : nat) (rest : list nat) (l : list (tensor num)),
    cls self = ClsAttentionControlEdit s ->
    shape attn = n :: q :: rest ->
    (q <= 32 ^ 2)%nat ->
    dict_get (AttentionStore.location_key is_cross place_in_unet)
      (step_store self) = Ok l ->
    is_cross || in_self_window self = true ->
    edited_attention ar (replace_cross_attention ar s) self attn is_cross
      = Raise e ->
    forward ar attn is_cross place_in_unet self
    = (Raise e,
       set_step_store
         (dict_set (AttentionStore.location_key is_cross place_in_unet)
            (l ++ [attn]) (step_store self)) self).
Proof.
  intros s attn is_cross place self e n q rest l Hcls Hshape Hq Hl Hedit
         Hout.
  rewrite (editing_forward_cases s attn is_cross place self n q rest l Hcls
             Hshape Hl).
  cbv zeta. rewrite Hedit, Hout.
  apply Nat.leb_le in Hq. rewrite Hq. reflexivity.
Qed.

(** The cross-attention edit reads the schedule at the current step. *)
Lemma edited_attention_beyond_schedule rca (self : controller num)
      (attn : tensor num) (h q steps : nat) (rest srest : list nat) :
  batch_size self <> 0%nat ->
  shape attn = (batch_size self * h)%nat :: q :: rest ->
  shape (cross_replace_alpha self) = steps :: srest ->
  (Z.of_nat steps <= cur_step self)%Z ->
  edited_attention ar rca self attn true = Raise IndexError.
Proof.
  intros Hb Hshape Hsched Hstep. unfold edited_attention, shape_at.
  rewrite Hshape. cbn [nth_error rbind].
  destruct (Nat.eqb_spec (batch_size self) 0) as [|_]; [contradiction|].
  cbn [rbind tl].
  rewrite Nat.mul_comm, Nat.div_mul by exact Hb.
  rewrite (reshape_split_ok attn (batch_size self) h (q :: rest))
    by (rewrite Hshape; f_equal; apply Nat.mul_comm).
  cbn [rbind]. unfold getitem at 1. cbn [shape].
  replace (0 <? batch_size self)%nat with true
    by (symmetry; apply Nat.ltb_lt; lia).
  cbn [rbind]. unfold slice_from. cbn [shape rbind].
  unfold getitem_int. rewrite Hsched.
  replace (0 <=? cur_step self)%Z with true
    by (symmetry; apply Z.leb_le; lia).
  unfold getitem. rewrite Hsched.
  replace (Z.to_nat (cur_step self) <? steps)%nat with false
    by (symmetry; apply Nat.ltb_ge; lia).
  reflexivity.
Qed.

(** X15.  The cross-attention schedule has one row per step and is not
    extended: once [cur_step] has reached the number of rows of
    [cross_replace_alpha] (a controller used beyond its schedule without a
    reset), editing a cross-attention map raises IndexError, for every
    editing class. *)
Theorem cross_attention_beyond_the_schedule_raises :
  forall (s : strategy num) (attn : tensor num) (place_in_unet : string)
         (self : controller num) (h q steps : nat) (rest srest : list nat)
         (l : list (tensor num)),
    cls self = ClsAttentionControlEdit s ->
    batch_size self <> 0%nat ->
    shape attn = (batch_size self * h)%nat :: q :: rest ->
    shape (cross_replace_alpha self) = steps :: srest ->
    (Z.of_nat steps <= cur_step self)%Z ->
    dict_get (AttentionStore.location_key true place_in_unet)
      (step_store self) = Ok l ->
    fst (forward ar attn true place_in_unet self) = Raise IndexError.
Proof.
  intros s attn place self h q steps rest srest l Hcls Hb Hshape Hsched Hstep
         Hl.
  rewrite (editing_forward_cases s attn true place self _ q rest l Hcls
             Hshape Hl).
  cbv zeta. cbn [orb].
  rewrite (edited_attention_beyond_schedule _ self attn h q steps rest srest
             Hb Hshape Hsched Hstep).
  reflexivity.
Qed.

End EditState.

(** ** Refinement *)

Lemma all_indices_spec (s idx : list nat) :
  In idx (all_indices s) <-> in_bounds s idx = true.
Proof.
  revert idx. induction s as [|d s IH]; intros idx.
  - cbn. destruct idx; split; intros H;
      try discriminate; try reflexivity; auto.
    + destruct H as [H|[]]. discriminate.
  - cbn [all_indices]. rewrite in_flat_map. split.
    + intros (i & Hi & H). apply in_map_iff in H.
      destruct H as (idx' & <- & H). apply in_seq in Hi.
      apply in_bounds_cons. split; [lia | apply IH; exact H].
    + destruct idx as [|i idx']; [discriminate|]. intros H.
      apply in_bounds_cons in H. destruct H as [Hi H].
      exists i. split; [apply in_seq; lia|].
      apply in_map. apply IH. exact H.
Qed.

Ltac in_bounds_solve :=
  repeat (apply in_bounds_cons; split; [lia|]); reflexivity.

Section Refinement.

Context {num : Type} (ar : Scalar.arithmetic num).

Lemma reshape_alphas_ok (alphas : tensor num) (b n : nat) :
  shape alphas = [b; n] ->
  exists alphas',
    AttentionRefine.reshape_alphas alphas = Ok alphas'
    /\ shape alphas' = [b; 1; 1; n]%nat
    /\ forall ib j, (ib < b)%nat -> (j < n)%nat ->
                    data alphas' [ib; 0; 0; j]%nat = data alphas [ib; j].
Proof.
  intros Hs. unfold AttentionRefine.reshape_alphas, shape_at, reshape.
  rewrite Hs. cbn [nth_error rbind].
  replace (numel [b; n] =? numel [b; 1; 1; n])%nat with true
    by (symmetry; apply Nat.eqb_eq; cbn; lia).
  eexists. split; [reflexivity|]. split; [reflexivity|].
  intros ib j Hb Hj. cbn [data]. f_equal.
  replace (flat_index [b; 1; 1; n]%nat [ib; 0; 0; j]%nat)
    with (flat_index [b; n] [ib; j]) by (cbn; lia).
  apply unflat_flat. in_bounds_solve.
Qed.

Lemma mapper_in_range (mapper : tensor Z) (b n w : nat) :
  shape mapper = [b; n] ->
  (forall ib j, (ib < b)%nat -> (j < n)%nat ->
                AttentionRefine.index_ok w (data mapper [ib; j]) = true) ->
  forallb (fun idx => AttentionRefine.index_ok w (data mapper idx))
          (all_indices (shape mapper)) = true.
Proof.
  intros Hs H. apply forallb_forall. intros idx Hin.
  apply all_indices_spec in Hin. rewrite Hs in Hin.
  destruct idx as [|ib idx]; [discriminate|].
  apply in_bounds_cons in Hin. destruct Hin as [Hb Hin].
  destruct idx as [|j idx]; [discriminate|].
  apply in_bounds_cons in Hin. destruct Hin as [Hj Hin].
  destruct idx; [| discriminate].
  apply H; assumption.
Qed.

(** The refined cross-attention, element by element. *)
Lemma refine_elements (mapper : tensor Z)
      (alphas attn_base att_replace : tensor num) (b h p w n : nat) :
  shape attn_base = [h; p; w] ->
  shape att_replace = [b; h; p; n] ->
  shape mapper = [b; n] ->
  shape alphas = [b; 1; 1; n]%nat ->
  (forall ib j, (ib < b)%nat -> (j < n)%nat ->
                AttentionRefine.index_ok w (data mapper [ib; j]) = true) ->
  exists out,
    AttentionRefine.replace_cross_attention ar mapper alphas attn_base
      att_replace = Ok out
    /\ shape out = [b; h; p; n]
    /\ forall ib ih ip j,
         (ib < b)%nat -> (ih < h)%nat -> (ip < p)%nat -> (j < n)%nat ->
         data out [ib; ih; ip; j]
         = Scalar.add ar
             (Scalar.mul ar
                (data attn_base
                   [ih; ip;
                    AttentionRefine.wrap_index w (data mapper [ib; j])])
                (data alphas [ib; 0; 0; j]%nat))
             (Scalar.mul ar (data att_replace [ib; ih; ip; j])
                (Scalar.sub ar (Scalar.one ar)
                   (data alphas [ib; 0; 0; j]%nat))).
Proof.
  intros Hbase Hrep Hm Ha Hok.
  unfold AttentionRefine.replace_cross_attention,
    AttentionRefine.index_axis2.
  rewrite Hbase, (mapper_in_range mapper b n w Hm Hok), Hm.
  cbn [rbind app List.length].
  unfold AttentionRefine.permute_2013. cbn [shape rbind].
  unfold binop, pointwise. cbn [shape data]. rewrite Ha, Hrep.
  assert (Hbr : broadcast_shapes [b; h; p; n] [b; 1; 1; n]%nat
                = Some [b; h; p; n]).
  { broadcast_shape. reflexivity. }
  rewrite Hbr. cbn [rbind shape].
  rewrite broadcast_shapes_refl. cbn [rbind].
  eexists. split; [reflexivity|]. split; [reflexivity|].
  intros ib ih ip j Hb Hh Hp Hj. cbn [data].
  assert (Hin : in_bounds [b; h; p; n] [ib; ih; ip; j] = true).
  { in_bounds_solve. }
  rewrite !(broadcast_index_id _ _ Hin).
  assert (Hidx : broadcast_index [b; 1; 1; n]%nat [ib; ih; ip; j]
                 = [ib; 0; 0; j]%nat).
  { broadcast_idx. cbn [Nat.eqb].
    destruct (Nat.eqb_spec b 1), (Nat.eqb_spec n 1);
      repeat f_equal; lia. }
  rewrite Hidx. cbn [firstn skipn]. reflexivity.
Qed.

(** X17.  AttentionRefine computes, for every edited prompt, head, query
    position and token, the blend
    [base[h, p, mapper[b, j]] * alpha + edited[b, h, p, j] * (1 - alpha)]
    with [alpha] the entry [(b, j)] of the alphas that the aligner
    returned; a negative entry of the mapper counts from the last token. *)
Theorem refine_blends_the_mapped_reference :
  forall (mapper : tensor Z) (alphas attn_base att_replace : tensor num)
         (b h p w n : nat),
    shape attn_base = [h; p; w] ->
    shape att_replace = [b; h; p; n] ->
    shape mapper = [b; n] ->
    shape alphas = [b; n] ->
    (forall ib j, (ib < b)%nat -> (j < n)%nat ->
                  AttentionRefine.index_ok w (data mapper [ib; j]) = true) ->
    exists stored out,
      AttentionRefine.reshape_alphas alphas = Ok stored
      /\ replace_cross_attention ar (Refine mapper stored) attn_base
           att_replace = Ok out
      /\ shape out = [b; h; p; n]
      /\ forall ib ih ip j,
           (ib < b)%nat -> (ih < h)%nat -> (ip < p)%nat -> (j < n)%nat ->
           data out [ib; ih; ip; j]
           = Scalar.add ar
               (Scalar.mul ar
                  (data attn_base
                     [ih; ip;
                      AttentionRefine.wrap_index w (data mapper [ib; j])])
                  (data alphas [ib; j]))
               (Scalar.mul ar (data att_replace [ib; ih; ip; j])
                  (Scalar.sub ar (Scalar.one ar) (data alphas [ib; j]))).
Proof.
  intros mapper alphas attn_base att_replace b h p w n Hbase Hrep Hm Ha Hok.
  destruct (reshape_alphas_ok alphas b n Ha) as (stored & Hst & Hss & Hsd).
  destruct (refine_elements mapper stored attn_base att_replace b h p w n
              Hbase Hrep Hm Hss Hok) as (out & Hout & Hso & Hdo).
  exists stored, out. split; [exact Hst|]. split; [exact Hout|].
  split; [exact Hso|].
  intros ib ih ip j Hb Hh Hp Hj.
  rewrite (Hdo ib ih ip j Hb Hh Hp Hj), (Hsd ib j Hb Hj). reflexivity.
Qed.

End Refinement.

Lemma SFsub_one_one : SFsub 24 128 (SFone 24 128) (SFone 24 128)
                      = S754_zero false.
Proof. vm_compute. reflexivity. Qed.

Lemma SFsub_one_zero : SFsub 24 128 (SFone 24 128) (S754_zero false)
                       = SFone 24 128.
Proof. vm_compute. reflexivity. Qed.

(** X18.  In single precision the refinement selects: where the aligner
    matched a token (alpha is 1) the result is, bit for bit, the attention
    of the reference at the mapped token, and where it did not (alpha is 0,
    the mapper holds -1 or any index in range) the result is the attention
    of the edited prompt itself. *)
Theorem refine_selects_in_binary32 :
  forall (mapper : tensor Z)
         (alphas attn_base att_replace : tensor spec_float)
         (b h p w n : nat),
    shape attn_base = [h; p; w] ->
    shape att_replace = [b; h; p; n] ->
    shape mapper = [b; n] ->
    shape alphas = [b; n] ->
    (forall ib j, (ib < b)%nat -> (j < n)%nat ->
                  AttentionRefine.index_ok w (data mapper [ib; j]) = true) ->
    (forall ib j, (ib < b)%nat -> (j < n)%nat ->
                  data alphas [ib; j] = SFone 24 128
                  \/ data alphas [ib; j] = S754_zero false) ->
    (forall ih ip k, (ih < h)%nat -> (ip < p)%nat -> (k < w)%nat ->
                     regular (data attn_base [ih; ip; k]) = true) ->
    (forall ib ih ip j,
        (ib < b)%nat -> (ih < h)%nat -> (ip < p)%nat -> (j < n)%nat ->
        regular (data att_replace [ib; ih; ip; j]) = true) ->
    exists stored out,
      AttentionRefine.reshape_alphas alphas = Ok stored
      /\ replace_cross_attention binary32 (Refine mapper stored) attn_base
           att_replace = Ok out
      /\ forall ib ih ip j,
           (ib < b)%nat -> (ih < h)%nat -> (ip < p)%nat -> (j < n)%nat ->
           data out [ib; ih; ip; j]
           = if SFeqb (data alphas [ib; j]) (SFone 24 128)
             then data attn_base
                    [ih; ip;
                     AttentionRefine.wrap_index w (data mapper [ib; j])]
             else data att_replace [ib; ih; ip; j].
Proof.
  intros mapper alphas attn_base att_replace b h p w n Hbase Hrep Hm Ha Hok
         Hbin Hrb Hrr.
  destruct (reshape_alphas_ok alphas b n Ha) as (stored & Hst & Hss & Hsd).
  destruct (refine_elements binary32 mapper stored attn_base att_replace
              b h p w n Hbase Hrep Hm Hss Hok) as (out & Hout & Hso & Hdo).
  exists stored, out. split; [exact Hst|]. split; [exact Hout|].
  intros ib ih ip j Hb Hh Hp Hj.
  rewrite (Hdo ib ih ip j Hb Hh Hp Hj), (Hsd ib j Hb Hj).
  assert (Hw : (AttentionRefine.wrap_index w (data mapper [ib; j]) < w)%nat).
  { specialize (Hok ib j Hb Hj). unfold AttentionRefine.index_ok in Hok.
    apply andb_true_iff in Hok. destruct Hok as [Hlo Hhi].
    apply Z.leb_le in Hlo. apply Z.ltb_lt in Hhi.
    unfold AttentionRefine.wrap_index.
    destruct (Z.leb_spec 0 (data mapper [ib; j])); lia. }
  specialize (Hrb ih ip _ Hh Hp Hw).
  specialize (Hrr ib ih ip j Hb Hh Hp Hj).
  cbn [Scalar.add Scalar.mul Scalar.sub Scalar.one binary32].
  destruct (Hbin ib j Hb Hj) as [-> | ->].
  - rewrite SFsub_one_one, SFmul_one_r, SFmul_zero_r, SFadd_zero_r
      by assumption.
    reflexivity.
  - rewrite SFsub_one_zero, SFmul_zero_r, SFmul_one_r, SFadd_zero_l
      by assumption.
    reflexivity.
Qed.

(** ** The equalizer of several words or several values *)

Lemma last_position_nth (inds : list nat) (k o : nat) :
  NoDup inds -> (k < List.length inds)%nat ->
  last_position (nth k inds 0%nat) inds o = Some (o + k)%nat.
Proof.
  revert k o. induction inds as [|i inds IH]; intros k o Hnd Hk;
    [cbn in Hk; lia|].
  inversion Hnd as [|? ? Hni Hnd']; subst.
  cbn [last_position]. destruct k as [|k]; cbn [nth].
  - replace (last_position i inds (S o)) with (@None nat).
    + rewrite Nat.eqb_refl. f_equal. lia.
    + symmetry. apply last_position_none.
      apply not_true_is_false. intro H. apply existsb_exists in H.
      destruct H as (x & Hx & He). apply Nat.eqb_eq in He. subst x.
      contradiction.
  - rewrite IH by (cbn in Hk; try assumption; lia).
    f_equal. lia.
Qed.

Section EqualizerProperties.

Context {num : Type} (ar : Scalar.arithmetic num).

Lemma columns_in_range (inds : list nat) (c : nat) :
  Forall (fun i => (i < c)%nat) inds ->
  forallb (fun i => (i <? c)%nat) inds = true.
Proof.
  intros H. apply forallb_forall. intros x Hx.
  apply Nat.ltb_lt. rewrite Forall_forall in H. auto.
Qed.

(** The loop of [get_equalizer] for one value. *)
Lemma equalize_words_single get_word_inds text (ws : list word)
      (indss : list (list nat)) (v : num) (t : tensor num) :
  shape t = [1; 77]%nat ->
  Forall2 (fun w inds => get_word_inds text w = Ok inds
                         /\ inds <> []
                         /\ Forall (fun i => (i < 77)%nat) inds) ws indss ->
  exists t',
    equalize_words get_word_inds text ws (tensor_of_list ar [v]) t = Ok t'
    /\ shape t' = [1; 77]%nat
    /\ forall i j,
         data t' [i; j]
         = if existsb (Nat.eqb j) (concat indss) then v else data t [i; j].
Proof.
  intros Hs H. revert t Hs.
  induction H as [|w inds ws indss (Hw & _ & Hin) _ IH]; intros t Hs.
  - exists t. repeat split; try assumption; reflexivity.
  - cbn [equalize_words]. rewrite Hw. cbn [rbind].
    destruct (setitem_columns_single ar t inds v 77 Hs Hin)
      as (t1 & Ht1 & Hs1 & Hd1).
    rewrite Ht1. cbn [rbind].
    destruct (IH t1 Hs1) as (t' & Ht' & Hs' & Hd').
    exists t'. split; [exact Ht'|]. split; [exact Hs'|].
    intros i j. rewrite Hd', Hd1. cbn [concat].
    rewrite existsb_app.
    destruct (existsb (Nat.eqb j) inds), (existsb (Nat.eqb j) (concat indss));
      reflexivity.
Qed.

(** X19.  For a tuple of words and one value, the equalizer is the value
    at every token position of every selected word and one everywhere
    else. *)
Theorem equalizer_of_several_words :
  forall (get_word_inds : string -> word -> result (list nat))
         (text : string) (ws : list word) (indss : list (list nat))
         (v : num),
    Forall2 (fun w inds => get_word_inds text w = Ok inds
                           /\ inds <> []
                           /\ Forall (fun i => (i < 77)%nat) inds) ws indss ->
    exists equalizer,
      get_equalizer ar get_word_inds text (Words ws) [v] = Ok equalizer
      /\ shape equalizer = [1; 77]%nat
      /\ forall j,
           (j < 77)%nat ->
           data equalizer [0%nat; j]
           = if existsb (Nat.eqb j) (concat indss) then v else Scalar.one ar.
Proof.
  intros get_word_inds text ws indss v H.
  unfold get_equalizer. cbn [List.length].
  destruct (equalize_words_single get_word_inds text ws indss v
              (ones ar 1 77) eq_refl H) as (t' & Ht' & Hs' & Hd').
  exists t'. split; [exact Ht'|]. split; [exact Hs'|].
  intros j _. rewrite Hd'. reflexivity.
Qed.

(** The assignment [equalizer[:, inds] = values] for as many values as
    there are columns, at least two. *)
Lemma setitem_columns_along (t : tensor num) (inds : list nat)
      (values : list num) (r c : nat) :
  shape t = [r; c] ->
  List.length values = r ->
  (2 <= r)%nat ->
  Forall (fun i => (i < c)%nat) inds ->
  if (List.length inds =? r)%nat
  then
    exists t',
      setitem_columns t inds (tensor_of_list ar values) = Ok t'
      /\ shape t' = [r; c]
      /\ forall i j,
           data t' [i; j]
           = match last_position j inds 0 with
             | Some k => nth k values (Scalar.zero ar)
             | None => data t [i; j]
             end
  else
    setitem_columns t inds (tensor_of_list ar values) = Raise RuntimeError.
Proof.
  intros Hs Hlen Hr Hin. unfold setitem_columns.
  rewrite Hs, (columns_in_range inds c Hin).
  cbn [tensor_of_list shape]. rewrite Hlen.
  assert (Hstrip : strip_leading_ones [r] = [r]).
  { destruct r as [|[|r]]; try lia. reflexivity. }
  rewrite Hstrip.
  assert (Hexp : expandable_to [r] [r; List.length inds]
                 = (List.length inds =? r)%nat).
  { unfold expandable_to.
    rewrite broadcast_shapes_comm, broadcast_shapes_longer by (cbn; lia).
    rewrite broadcast_shapes_cons by reflexivity.
    rewrite broadcast_shapes_nil. unfold broadcast_dim.
    destruct (Nat.eqb_spec (List.length inds) r) as [->|Hne].
    - cbn [option_map]. apply shape_eqb_refl.
    - destruct (Nat.eqb_spec (List.length inds) 1) as [He|_].
      + cbn [option_map]. unfold shape_eqb.
        destruct (list_eq_dec Nat.eq_dec [r; r] [r; List.length inds])
          as [Heq|_]; [| reflexivity].
        injection Heq as Heq. congruence.
      + destruct (Nat.eqb_spec r 1) as [|_]; [lia|]. reflexivity. }
  rewrite Hexp.
  destruct (List.length inds =? r)%nat; [| reflexivity].
  eexists. split; [reflexivity|]. split; [reflexivity|].
  intros i j. cbn [data].
  destruct (last_position j inds 0) as [k|]; [| reflexivity].
  cbn [List.length Nat.sub repeat app].
  rewrite broadcast_index_longer by (cbn; lia).
  rewrite broadcast_index_cons by reflexivity.
  destruct (Nat.eqb_spec r 1) as [|_]; [lia|]. reflexivity.
Qed.

(** X20.  With several values the assignment runs along the token
    positions of the word, not along the rows: for a word of as many
    tokens as there are values, every row of the equalizer holds the k-th
    value at the k-th token position of the word and one at the other
    positions, so all rows are equal. *)
Theorem equalizer_values_follow_the_tokens :
  forall (get_word_inds : string -> word -> result (list nat))
         (text : string) (w : word) (inds : list nat) (values : list num),
    get_word_inds text w = Ok inds ->
    (2 <= List.length values)%nat ->
    List.length inds = List.length values ->
    NoDup inds ->
    Forall (fun i => (i < 77)%nat) inds ->
    exists equalizer,
      get_equalizer ar get_word_inds text (OneWord w) values = Ok equalizer
      /\ shape equalizer = [List.length values; 77]%nat
      /\ (forall i k,
            (k < List.length values)%nat ->
            data equalizer [i; nth k inds 0%nat]
            = nth k values (Scalar.zero ar))
      /\ (forall i j,
            ~ In j inds -> data equalizer [i; j] = Scalar.one ar).
Proof.
  intros get_word_inds text w inds values Hw Hr Hlen Hnd Hin.
  unfold get_equalizer. cbn [equalize_words]. rewrite Hw. cbn [rbind].
  pose proof (setitem_columns_along (ones ar (List.length values) 77) inds
                values (List.length values) 77 eq_refl eq_refl Hr Hin) as H.
  rewrite Hlen, Nat.eqb_refl in H.
  destruct H as (t' & Ht' & Hs' & Hd').
  rewrite Ht'. cbn [rbind].
  exists t'. split; [reflexivity|]. split; [exact Hs'|]. split.
  - intros i k Hk. rewrite Hd'.
    rewrite last_position_nth by (try assumption; lia).
    reflexivity.
  - intros i j Hj. rewrite Hd'.
    replace (last_position j inds 0) with (@None nat); [reflexivity|].
    symmetry. apply last_position_none.
    apply not_true_is_false. intro H. apply existsb_exists in H.
    destruct H as (x & Hx & He). apply Nat.eqb_eq in He. subst x.
    contradiction.
Qed.

(** X21.  With several values, a selected word whose number of tokens
    differs from the number of values makes [get_equalizer] raise
    RuntimeError: the values cannot be broadcast to the selected columns. *)
Theorem equalizer_rejects_a_token_count_mismatch :
  forall (get_word_inds : string -> word -> result (list nat))
         (text : string) (w : word) (inds : list nat) (values : list num),
    get_word_inds text w = Ok inds ->
    (2 <= List.length values)%nat ->
    inds <> [] ->
    List.length inds <> List.length values ->
    Forall (fun i => (i < 77)%nat) inds ->
    get_equalizer ar get_word_inds text (OneWord w) values
    = Raise RuntimeError.
Proof.
  intros get_word_inds text w inds values Hw Hr _ Hlen Hin.
  unfold get_equalizer. cbn [equalize_words]. rewrite Hw. cbn [rbind].
  pose proof (setitem_columns_along (ones ar (List.length values) 77) inds
                values (List.length values) 77 eq_refl eq_refl Hr Hin) as H.
  apply Nat.eqb_neq in Hlen. rewrite Hlen in H.
  rewrite H. reflexivity.
Qed.

End EqualizerProperties.

(** ** The local blend *)

Section LocalBlendProperties.

Context {num : Type} (ar : Scalar.arithmetic num).

Lemma set_tokens_ok (alpha : tensor num) (b w i : nat) (ind : list nat) :
  shape alpha = [b; 1; 1; 1; 1; w]%nat ->
  (i < b)%nat ->
  Forall (fun j => (j < w)%nat) ind ->
  exists alpha',
    LocalBlend.set_tokens ar alpha i ind = Ok alpha'
    /\ shape alpha' = [b; 1; 1; 1; 1; w]%nat
    /\ forall i' j,
         data alpha' [i'; 0; 0; 0; 0; j]%nat
         = if (i' =? i)%nat && existsb (Nat.eqb j) ind
           then Scalar.one ar
           else data alpha [i'; 0; 0; 0; 0; j]%nat.
Proof.
  intros Hs Hi Hind. unfold LocalBlend.set_tokens. rewrite Hs.
  replace (i <? b)%nat with true by (symmetry; apply Nat.ltb_lt; exact Hi).
  replace (forallb (fun j => (j <? w)%nat) ind) with true.
  - cbn [andb]. eexists. split; [reflexivity|]. split; [reflexivity|].
    intros i' j. reflexivity.
  - symmetry. apply forallb_forall. intros x Hx. apply Nat.ltb_lt.
    rewrite Forall_forall in Hind. auto.
Qed.

Lemma mark_words_ok get_word_inds prompt (i b : nat) (ws : list word)
      (alpha : tensor num) :
  shape alpha = [b; 1; 1; 1; 1; MAX_NUM_WORDS]%nat ->
  (i < b)%nat ->
  Forall (found get_word_inds prompt) ws ->
  exists alpha',
    LocalBlend.mark_words ar get_word_inds prompt i ws alpha = Ok alpha'
    /\ shape alpha' = [b; 1; 1; 1; 1; MAX_NUM_WORDS]%nat
    /\ forall i' j,
         data alpha' [i'; 0; 0; 0; 0; j]%nat
         = if (i' =? i)%nat && word_marks get_word_inds prompt ws j
           then Scalar.one ar
           else data alpha [i'; 0; 0; 0; 0; j]%nat.
Proof.
  intros Hs Hi Hws. revert alpha Hs.
  induction Hws as [|w ws (ind & Hw & _ & Hind) _ IH]; intros alpha Hs.
  - exists alpha. split; [reflexivity|]. split; [exact Hs|].
    intros i' j. cbn [word_marks existsb]. rewrite andb_false_r.
    reflexivity.
  - cbn [LocalBlend.mark_words]. rewrite Hw. cbn [rbind].
    destruct (set_tokens_ok alpha b MAX_NUM_WORDS i ind Hs Hi Hind)
      as (alpha1 & H1 & Hs1 & Hd1).
    rewrite H1. cbn [rbind].
    destruct (IH alpha1 Hs1) as (alpha' & H' & Hs' & Hd').
    exists alpha'. split; [exact H'|]. split; [exact Hs'|].
    intros i' j. rewrite Hd', Hd1.
    unfold word_marks. cbn [existsb]. rewrite Hw.
    fold (word_marks get_word_inds prompt ws j).
    destruct (i' =? i)%nat, (existsb (Nat.eqb j) ind),
      (word_marks get_word_inds prompt ws j); reflexivity.
Qed.

Lemma mark_prompts_ok get_word_inds (i0 b : nat)
      (pairs : list (string * blend_words)) (alpha : tensor num) :
  shape alpha = [b; 1; 1; 1; 1; MAX_NUM_WORDS]%nat ->
  (i0 + List.length pairs <= b)%nat ->
  Forall (fun pw => Forall (found get_word_inds (fst pw))
                      (LocalBlend.words_of (snd pw))) pairs ->
  exists alpha',
    LocalBlend.mark_prompts ar get_word_inds i0 pairs alpha = Ok alpha'
    /\ shape alpha' = [b; 1; 1; 1; 1; MAX_NUM_WORDS]%nat
    /\ forall i' j,
         data alpha' [i'; 0; 0; 0; 0; j]%nat
         = if (i0 <=? i')%nat
              && match nth_error pairs (i' - i0) with
                 | Some (prompt, words_) =>
                     word_marks get_word_inds prompt
                       (LocalBlend.words_of words_) j
                 | None => false
                 end
           then Scalar.one ar
           else data alpha [i'; 0; 0; 0; 0; j]%nat.
Proof.
  intros Hs Hlen Hok. revert i0 alpha Hs Hlen.
  induction Hok as [|[prompt words_] pairs Hpw _ IH];
    intros i0 alpha Hs Hlen.
  - exists alpha. split; [reflexivity|]. split; [exact Hs|].
    intros i' j. destruct (i' - i0)%nat; cbn [nth_error];
      rewrite andb_false_r; reflexivity.
  - cbn [LocalBlend.mark_prompts]. cbn [fst snd] in Hpw.
    cbn [List.length] in Hlen.
    destruct (mark_words_ok get_word_inds prompt i0 b
                (LocalBlend.words_of words_) alpha Hs ltac:(lia) Hpw)
      as (alpha1 & H1 & Hs1 & Hd1).
    rewrite H1. cbn [rbind].
    destruct (IH (S i0) alpha1 Hs1 ltac:(lia)) as (alpha' & H' & Hs' & Hd').
    exists alpha'. split; [exact H'|]. split; [exact Hs'|].
    intros i' j. rewrite Hd', Hd1.
    destruct (Nat.leb_spec (S i0) i') as [Hle|Hgt].
    + replace (i0 <=? i')%nat with true
        by (symmetry; apply Nat.leb_le; lia).
      replace (i' - i0)%nat with (S (i' - S i0)) by lia.
      cbn [nth_error andb].
      replace (i' =? i0)%nat with false
        by (symmetry; apply Nat.eqb_neq; lia).
      cbn [andb]. reflexivity.
    + cbn [andb].
      destruct (Nat.eqb_spec i' i0) as [->|Hne].
      * rewrite Nat.leb_refl, Nat.sub_diag. cbn [nth_error andb].
        reflexivity.
      * replace (i0 <=? i')%nat with false
          by (symmetry; apply Nat.leb_gt; lia).
        reflexivity.
Qed.

(** X22.  [LocalBlend(prompts, words, threshold)] marks the tokens of the
    given words: when every word is found in its prompt, the object has the
    threshold it was given and [alpha_layers], of shape
    [(len(prompts), 1, 1, 1, 1, 77)], is one at [(i, j)] exactly when [j] is
    a token position of a word given for the prompt [i], and zero
    elsewhere; the prompts beyond the length of [words] get the value zero
    throughout. *)
Theorem local_blend_marks_the_words :
  forall (get_word_inds : string -> word -> result (list nat))
         (prompts : list string) (words : list blend_words) (level : num),
    Forall (fun pw => Forall (found get_word_inds (fst pw))
                        (LocalBlend.words_of (snd pw)))
           (combine prompts words) ->
    exists lb,
      LocalBlend.__init__ ar get_word_inds prompts words level = Ok lb
      /\ threshold lb = level
      /\ shape (alpha_layers lb)
         = [List.length prompts; 1; 1; 1; 1; MAX_NUM_WORDS]%nat
      /\ forall i j,
           (i < List.length prompts)%nat -> (j < MAX_NUM_WORDS)%nat ->
           data (alpha_layers lb) [i; 0; 0; 0; 0; j]%nat
           = if marked get_word_inds prompts words i j
             then Scalar.one ar else Scalar.zero ar.
Proof.
  intros get_word_inds prompts words level Hok.
  unfold LocalBlend.__init__.
  destruct (mark_prompts_ok get_word_inds 0 (List.length prompts)
              (combine prompts words)
              (mk [List.length prompts; 1; 1; 1; 1; MAX_NUM_WORDS]%nat
                  (fun _ => Scalar.zero ar))
              eq_refl
              ltac:(rewrite length_combine; cbn; lia) Hok)
    as (alpha' & H' & Hs' & Hd').
  rewrite H'. cbn [rbind].
  eexists. split; [reflexivity|]. cbn [threshold alpha_layers].
  split; [reflexivity|]. split; [exact Hs'|].
  intros i j _ _. rewrite Hd'. cbn [Nat.leb andb data].
  rewrite Nat.sub_0_r. unfold marked.
  destruct (nth_error (combine prompts words) i) as [[prompt words_]|];
    reflexivity.
Qed.

(** The cumulative store is empty until the first step is completed and
    has the six location keys from then on. *)
Lemma layout_keys (A : store num) : dict_keys A = map fst (layout A).
Proof.
  unfold dict_keys, layout. rewrite map_map. reflexivity.
Qed.

Lemma between_steps_empty_or_filled (self : controller num) :
  has_locations self -> empty_or_filled self ->
  empty_or_filled (snd (between_steps ar self)).
Proof.
  intros Hloc [He|Hf].
  - unfold between_steps.
    destruct (cls self) eqn:E; cbn [cls set_between_steps_calls];
      rewrite ?E; try (left; exact He).
    all: rewrite AttentionStore_between_steps_first by exact He;
      right; exact Hloc.
  - right. rewrite layout_keys.
    destruct (attention_store self) as [|kv A] eqn:EA; [discriminate Hf|].
    rewrite (between_steps_layout ar self (layout (kv :: A))).
    + rewrite <- layout_keys. exact Hf.
    + discriminate.
    + rewrite EA. reflexivity.
Qed.

Lemma run_empty_or_filled LOW_RESOURCE normalized_maps
      (ops : list (operation num)) (self : controller num) :
  has_locations self -> empty_or_filled self ->
  has_locations (run ar LOW_RESOURCE normalized_maps ops self)
  /\ empty_or_filled (run ar LOW_RESOURCE normalized_maps ops self).
Proof.
  intros Hloc Hef.
  split; [apply run_keeps_locations; exact Hloc|].
  revert self Hloc Hef. unfold run.
  induction ops as [|o ops IH]; intros self Hloc Hef; cbn [fold_left];
    [exact Hef|].
  pose proof (run_keeps_locations ar LOW_RESOURCE normalized_maps [o] self
                Hloc) as Hloc'.
  cbn [run fold_left] in Hloc'.
  apply IH; [exact Hloc'|].
  destruct o as [attn is_cross place | x_t | | n]; cbn [perform].
  - assert (H : has_locations
                  (snd (call ar LOW_RESOURCE attn is_cross place self))
                /\ empty_or_filled
                     (snd (call ar LOW_RESOURCE attn is_cross place self))).
    { apply (call_preserves ar LOW_RESOURCE
               (fun c => has_locations c /\ empty_or_filled c)).
      - intros t c [Hc He]. split.
        + apply forward_keeps_locations. exact Hc.
        + unfold empty_or_filled.
          rewrite forward_keeps_attention_store. exact He.
      - intros c Hc. exact Hc.
      - intros c [Hc He]. split.
        + unfold between_steps.
          destruct (cls c) eqn:E;
            cbn [cls set_between_steps_calls set_cur_step set_cur_att_layer];
            rewrite ?E;
            first [ exact Hc
                  | apply AttentionStore_between_steps_locations; exact Hc ].
        + apply between_steps_empty_or_filled; assumption.
      - split; assumption. }
    exact (proj2 H).
  - rewrite step_callback_state. exact Hef.
  - unfold reset. destruct (cls self); first [exact Hef | left; reflexivity].
  - exact Hef.
Qed.

(** X23.  A local blend reads the cumulative store, which is filled on the
    first step boundary: throughout a session that starts with an empty
    cumulative store, the step callback of an editing controller with a
    local blend raises KeyError and changes nothing as long as no step has
    been completed, and afterwards the lookups succeed and the blend works
    on the third and fourth map of [down_cross] and the first three of
    [up_cross]. *)
Theorem local_blend_needs_a_completed_step :
  forall (LOW_RESOURCE : bool)
         (normalized_maps : tensor num -> store num -> list nat
                            -> result (tensor num))
         (weighted : tensor num -> list (tensor num) -> list nat
                     -> result (tensor num))
         (ops : list (operation num)) (start : controller num)
         (s : strategy num) (lb : LocalBlend_t num) (x_t : tensor num),
    has_locations start ->
    attention_store start = [] ->
    let self := run ar LOW_RESOURCE normalized_maps ops start in
    cls self = ClsAttentionControlEdit s ->
    local_blend self = Some lb ->
    (attention_store self = [] ->
     step_callback ar (LocalBlend.normalized_maps weighted) x_t self
     = (Raise KeyError, self))
    /\ (attention_store self <> [] ->
        exists down up,
          dict_get "down_cross" (attention_store self) = Ok down
          /\ dict_get "up_cross" (attention_store self) = Ok up
          /\ LocalBlend.selected_maps (attention_store self)
             = Ok (firstn 2 (skipn 2 down) ++ firstn 3 up)).
Proof.
  intros LOW nm weighted ops start s lb x_t Hloc Hempty. cbv zeta.
  intros Hcls Hlb.
  destruct (run_empty_or_filled LOW nm ops start Hloc (or_introl Hempty))
    as [_ Hef].
  split.
  - intros He. unfold step_callback. rewrite Hcls.
    unfold AttentionControlEdit.step_callback, bind, gets, id, lift.
    rewrite Hlb, He. reflexivity.
  - intros Hne. destruct Hef as [He|Hf]; [contradiction|].
    destruct (dict_get_in_keys "down_cross"
                (attention_store (run ar LOW nm ops start))) as [down Hd].
    { rewrite Hf. cbn. auto. }
    destruct (dict_get_in_keys "up_cross"
                (attention_store (run ar LOW nm ops start))) as [up Hu].
    { rewrite Hf. cbn. auto 6. }
    exists down, up. split; [exact Hd|]. split; [exact Hu|].
    unfold LocalBlend.selected_maps. rewrite Hd, Hu. reflexivity.
Qed.

End LocalBlendProperties.

(** ** aggregate_attention *)

Section AggregateProperties.

Context {num : Type} (ar : Scalar.arithmetic num).

Lemma dict_get_map_inv {V W} key (f : V -> W) (d : dict V) w :
  dict_get key (map (fun kv => (fst kv, f (snd kv))) d) = Ok w ->
  exists v, dict_get key d = Ok v /\ w = f v.
Proof.
  induction d as [|[k v] d IH]; cbn; [discriminate|].
  destruct (String.eqb key k).
  - intros [= <-]. exists v. split; reflexivity.
  - exact IH.
Qed.

Lemma getitem_int_range {A} (t r : tensor A) (i : Z) (d : nat)
      (s : list nat) :
  shape t = d :: s -> getitem_int t i = Ok r ->
  (- Z.of_nat d <= i < Z.of_nat d)%Z.
Proof.
  intros Hs. unfold getitem_int, getitem. rewrite Hs.
  destruct (Z.leb_spec 0 i).
  - destruct (Nat.ltb_spec (Z.to_nat i) d); [| discriminate]. lia.
  - destruct (Z.leb_spec (- Z.of_nat d) i); [| discriminate]. lia.
Qed.

Lemma reshape_infer_shape (t r : tensor num) (b res w : nat) :
  reshape_infer t b res w = Ok r ->
  exists h, shape r = [b; h; res; res; w].
Proof.
  unfold reshape_infer, reshape.
  destruct (_ =? 0)%nat; [discriminate|].
  destruct (_ mod _ =? 0)%nat; [| discriminate].
  destruct (_ =? _)%nat; [| discriminate].
  intros [= <-]. eexists. reflexivity.
Qed.

Lemma collect_items_source prompts res select
      (items out out' : list (tensor num)) :
  collect_items prompts res select items out = Ok out' ->
  out' = out
  \/ exists item, In item items /\ collectable prompts res select item.
Proof.
  revert out. induction items as [|item items IH]; intros out;
    cbn [collect_items].
  - intros [= <-]. left. reflexivity.
  - destruct (shape_at item 1) as [d1|e] eqn:Hd; cbn [rbind];
      [| discriminate].
    destruct (Z.eqb_spec (Z.of_nat d1) (res ^ 2)) as [Heq|Hne].
    + destruct (last_dim item) as [w|e]; cbn [rbind]; [| discriminate].
      destruct (Z.ltb_spec res 0) as [|Hres]; cbn [rbind]; [discriminate|].
      destruct (reshape_infer item (List.length prompts) (Z.to_nat res) w)
        as [r|e] eqn:Hr; cbn [rbind]; [| discriminate].
      destruct (getitem_int r select) as [c|e] eqn:Hc; cbn [rbind];
        [| discriminate].
      intros _. right. exists item.
      split; [left; reflexivity|].
      destruct (reshape_infer_shape item r _ _ _ Hr) as [h Hsr].
      exists d1. repeat split; try assumption;
        apply (getitem_int_range r c select _ _ Hsr Hc).
    + cbn [rbind]. intros H. destruct (IH out H) as [->|(x & Hx & Hc)].
      * left. reflexivity.
      * right. exists x. split; [right; exact Hx | exact Hc].
Qed.

Lemma collect_source prompts (maps : store num) res from_where is_cross select
      (out out' : list (tensor num)) :
  collect prompts maps res from_where is_cross select out = Ok out' ->
  out' = out
  \/ exists location items item,
       In location from_where
       /\ dict_get (AttentionStore.location_key is_cross location) maps
          = Ok items
       /\ In item items
       /\ collectable prompts res select item.
Proof.
  revert out. induction from_where as [|location rest IH]; intros out;
    cbn [collect].
  - intros [= <-]. left. reflexivity.
  - destruct (dict_get _ maps) as [items|e] eqn:Hg; cbn [rbind];
      [| discriminate].
    destruct (collect_items prompts res select items out) as [out1|e] eqn:Hc;
      cbn [rbind]; [| discriminate].
    intros H.
    destruct (IH out1 H) as [->|(l & its & it & Hl & Hd & Hi & Hcol)].
    + destruct (collect_items_source _ _ _ _ _ _ Hc)
        as [->|(item & Hi & Hcol)].
      * left. reflexivity.
      * right. exists location, items, item.
        split; [left; reflexivity|]. repeat split; assumption.
    + right. exists l, its, it. split; [right; exact Hl|].
      repeat split; assumption.
Qed.

(** The function returns only when a map was collected. *)
Lemma aggregate_source prompts (self : controller num) res from_where
      is_cross select out :
  aggregate_attention ar prompts self res from_where is_cross select
    = Ok out ->
  exists location items item,
    In location from_where
    /\ dict_get (AttentionStore.location_key is_cross location)
         (attention_store self) = Ok items
    /\ In item items
    /\ collectable prompts res select item.
Proof.
  unfold aggregate_attention.
  destruct (collect _ _ _ _ _ _ _) as [l|e] eqn:Hc; [| discriminate].
  cbn [rbind].
  destruct (collect_source _ _ _ _ _ _ _ _ Hc)
    as [->|(location & items' & item' & Hl & Hd & Hi & Hcol)];
    [discriminate|].
  intros _.
  unfold AttentionStore.get_average_attention in Hd.
  apply dict_get_map_inv in Hd. destruct Hd as (items & Hd & ->).
  apply in_map_iff in Hi. destruct Hi as (item & <- & Hi).
  exists location, items, item.
  split; [exact Hl|]. split; [exact Hd|]. split; [exact Hi|].
  destruct Hcol as (d & Hs & Hrest). exists d. split; [exact Hs | exact Hrest].
Qed.

(** X24.  [aggregate_attention] returns only if it found something to
    aggregate: one of the locations of [from_where] holds, in the store of
    the controller, a map whose second axis has [res ** 2] positions; then
    [res] is not negative and [select] is an index into the prompts.  For
    an empty [from_where], a store without such a map or without the key of
    a location, it raises. *)
Theorem aggregate_returns_only_with_a_map :
  forall (prompts : list string) (self : controller num) (res : Z)
         (from_where : list string) (is_cross : bool) (select : Z)
         (out : tensor num),
    aggregate_attention ar prompts self res from_where is_cross select
      = Ok out ->
    exists location items item d,
      In location from_where
      /\ dict_get (AttentionStore.location_key is_cross location)
           (attention_store self) = Ok items
      /\ In item items
      /\ shape_at item 1 = Ok d
      /\ Z.of_nat d = (res ^ 2)%Z
      /\ (0 <= res)%Z
      /\ (- Z.of_nat (List.length prompts) <= select
          < Z.of_nat (List.length prompts))%Z.
Proof.
  intros prompts self res from_where is_cross select out H.
  destruct (aggregate_source _ _ _ _ _ _ _ H)
    as (location & items & item & Hl & Hd & Hi & d & Hs & Hq & Hr & Hsel).
  exists location, items, item, d. repeat split; try assumption; lia.
Qed.

(** X25.  The maps of more than [32 ** 2] positions are never stored, so
    they cannot be aggregated: after any session of a controller that
    started with empty stores, [aggregate_attention] raises for every
    resolution above 32. *)
Theorem aggregate_raises_above_the_stored_resolution :
  forall (LOW_RESOURCE : bool)
         (normalized_maps : tensor num -> store num -> list nat
                            -> result (tensor num))
         (ops : list (operation num)) (start : controller num)
         (prompts : list string) (res : Z) (from_where : list string)
         (is_cross : bool) (select : Z),
    initialized start ->
    (32 < res)%Z ->
    exists e,
      aggregate_attention ar prompts
        (run ar LOW_RESOURCE normalized_maps ops start) res from_where
        is_cross select = Raise e.
Proof.
  intros LOW nm ops start prompts res from_where is_cross select Hinit Hres.
  destruct (aggregate_attention ar prompts (run ar LOW nm ops start) res
              from_where is_cross select) as [out|e] eqn:H;
    [| exists e; reflexivity].
  exfalso.
  destruct (aggregate_source _ _ _ _ _ _ _ H)
    as (location & items & item & Hl & Hd & Hi & d & Hs & Hq & _).
  destruct (run_small ar LOW nm ops start (initialized_small start Hinit))
    as [_ Hsmall].
  pose proof (dict_get_small _ _ _ Hsmall Hd) as Hitems.
  rewrite Forall_forall in Hitems. specialize (Hitems item Hi).
  unfold is_small in Hitems. unfold shape_at in Hs.
  destruct (nth_error (shape item) 1) as [d'|]; [| discriminate].
  injection Hs as ->. apply Nat.leb_le in Hitems.
  assert (32 ^ 2 = 1024)%nat by reflexivity.
  nia.
Qed.

Lemma sum_fold (n : nat) (f : nat -> num) :
  Scalar.sum ar n f = sum_list ar (map f (seq 0 n)).
Proof.
  unfold sum_list. induction n as [|n IH]; [reflexivity|].
  rewrite seq_S, map_app, fold_left_app. cbn [Scalar.sum plus map fold_left].
  rewrite IH. reflexivity.
Qed.

Lemma seq_offset (d n : nat) : seq d n = map (Nat.add d) (seq 0 n).
Proof.
  induction d as [|d IH].
  - rewrite map_id. reflexivity.
  - rewrite <- seq_shift, IH, map_map. reflexivity.
Qed.

Lemma cat_rows (first : tensor num) (l : list (tensor num))
      (idx : list nat) :
  map (fun r => cat_data first l r idx)
      (seq 0 (list_sum (map (fun t => hd 0%nat (shape t)) l)))
  = concat (map (fun c => map (fun i => data c (i :: idx))
                              (seq 0 (hd 0%nat (shape c)))) l).
Proof.
  induction l as [|t l IH]; [reflexivity|].
  change (list_sum (map (fun t => hd 0%nat (shape t)) (t :: l)))
    with (hd 0%nat (shape t)
          + list_sum (map (fun t => hd 0%nat (shape t)) l))%nat.
  cbn [map concat].
  rewrite seq_app, map_app. f_equal.
  - apply map_ext_in. intros r Hr. apply in_seq in Hr. cbn [cat_data].
    replace (r <? hd 0%nat (shape t))%nat with true
      by (symmetry; apply Nat.ltb_lt; lia).
    reflexivity.
  - rewrite <- IH. cbn [plus].
    rewrite (seq_offset (hd 0%nat (shape t))).
    rewrite map_map. apply map_ext. intros r. cbn [cat_data].
    replace (hd 0%nat (shape t) + r <? hd 0%nat (shape t))%nat with false
      by (symmetry; apply Nat.ltb_ge; lia).
    f_equal. lia.
Qed.

(** The heads of one prompt in a map of [B] prompts, [h] heads each, on
    the [R] by [R] grid. *)
Lemma select_heads (item : tensor num) (B h R w select : nat) :
  shape item = [(B * h)%nat; (R * R)%nat; w] ->
  B <> 0%nat -> R <> 0%nat -> w <> 0%nat -> (select < B)%nat ->
  exists c,
    (r <- reshape_infer item B R w ;; getitem_int r (Z.of_nat select))%res
    = Ok c
    /\ shape c = [h; R; R; w]
    /\ forall i y x t,
         (i < h)%nat -> (y < R)%nat -> (x < R)%nat -> (t < w)%nat ->
         data c [i; y; x; t]
         = data item [(select * h + i)%nat; (y * R + x)%nat; t].
Proof.
  intros Hs HB HR Hw Hsel.
  unfold reshape_infer. rewrite Hs.
  assert (Hnumel : numel [(B * h)%nat; (R * R)%nat; w]
                   = (h * (B * R * R * w))%nat).
  { cbn [numel fold_right]. nia. }
  rewrite Hnumel.
  destruct (Nat.eqb_spec (B * R * R * w) 0) as [Hz|Hnz]; [nia|].
  rewrite Nat.Div0.mod_mul, Nat.eqb_refl, Nat.div_mul by exact Hnz.
  unfold reshape. rewrite Hs, Hnumel.
  replace (h * (B * R * R * w) =? numel [B; h; R; R; w])%nat with true
    by (symmetry; apply Nat.eqb_eq; cbn [numel fold_right]; nia).
  cbn [rbind]. unfold getitem_int. cbn [shape].
  replace (0 <=? Z.of_nat select)%Z with true
    by (symmetry; apply Z.leb_le; lia).
  unfold getitem. cbn [shape]. rewrite Nat2Z.id.
  replace (select <? B)%nat with true by (symmetry; apply Nat.ltb_lt; lia).
  eexists. split; [reflexivity|]. split; [reflexivity|].
  intros i y x t Hi Hy Hx Ht. cbn [data]. f_equal.
  replace (flat_index [B; h; R; R; w] [select; i; y; x; t])
    with (flat_index [(B * h)%nat; (R * R)%nat; w]
            [(select * h + i)%nat; (y * R + x)%nat; t])
    by (cbn [flat_index numel fold_right]; nia).
  apply unflat_flat.
  apply in_bounds_cons. split; [nia|].
  apply in_bounds_cons. split; [nia|].
  apply in_bounds_cons. split; [lia | reflexivity].
Qed.

Lemma collect_items_heads prompts (R w select : nat) (cur : Z)
      (items out : list (tensor num)) :
  let B := List.length prompts in
  B <> 0%nat -> R <> 0%nat -> w <> 0%nat -> (select < B)%nat ->
  Forall (head_map B R w) items ->
  exists cs,
    collect_items prompts (Z.of_nat R) (Z.of_nat select)
      (map (fun item => pointwise (fun x => Scalar.div_int ar x cur) item)
           items) out
    = Ok (out ++ cs)
    /\ Forall2 (selects ar B R w select cur) cs
         (filter (at_resolution R) items).
Proof.
  intros B HB HR Hw Hsel Hitems. revert out.
  induction Hitems as [|item items (h & q & w' & Hs & Hq) _ IH]; intros out.
  - exists []. split; [cbn; rewrite app_nil_r; reflexivity | constructor].
  - cbn [map collect_items filter].
    unfold shape_at at 1, at_resolution at 1. cbn [pointwise shape].
    rewrite Hs. cbn [nth_error rbind].
    replace (Z.of_nat q =? Z.of_nat R ^ 2)%Z with (q =? R * R)%nat
      by (destruct (Nat.eqb_spec q (R * R)) as [->|Hne]; symmetry;
          [apply Z.eqb_eq | apply Z.eqb_neq]; nia).
    destruct (Nat.eqb_spec q (R * R)) as [->|Hne].
    + specialize (Hq eq_refl). subst w'.
      unfold last_dim. cbn [pointwise shape]. rewrite Hs.
      cbn [rev app rbind].
      replace (Z.of_nat R <? 0)%Z with false
        by (symmetry; apply Z.ltb_ge; lia).
      rewrite Nat2Z.id.
      destruct (select_heads
                  (pointwise (fun x => Scalar.div_int ar x cur) item)
                  B h R w select Hs HB HR Hw Hsel) as (c & Hc & Hsc & Hdc).
      fold B.
      destruct (reshape_infer _ B R w) as [r|e]; cbn [rbind] in Hc |- *;
        [| discriminate].
      rewrite Hc. cbn [rbind].
      destruct (IH (out ++ [c])) as (cs & Hcs & Hrel).
      exists (c :: cs). split.
      * rewrite Hcs, <- app_assoc. reflexivity.
      * constructor; [| exact Hrel].
        unfold selects. rewrite Hs. cbn [hd].
        rewrite Nat.mul_comm, Nat.div_mul by exact HB.
        split; [exact Hsc|].
        intros i y x t Hi Hy Hx Ht. rewrite Hdc by assumption.
        reflexivity.
    + cbn [rbind]. apply IH.
Qed.

Lemma collect_heads prompts (self : controller num) (R w select : nat)
      (from_where : list string) (is_cross : bool)
      (itemss : list (list (tensor num))) (out : list (tensor num)) :
  let B := List.length prompts in
  B <> 0%nat -> R <> 0%nat -> w <> 0%nat -> (select < B)%nat ->
  Forall2 (fun location items =>
             dict_get (AttentionStore.location_key is_cross location)
               (attention_store self) = Ok items) from_where itemss ->
  Forall (head_map B R w) (concat itemss) ->
  exists cs,
    collect prompts (AttentionStore.get_average_attention ar self)
      (Z.of_nat R) from_where is_cross (Z.of_nat select) out
    = Ok (out ++ cs)
    /\ Forall2 (selects ar B R w select (cur_step self)) cs
         (filter (at_resolution R) (concat itemss)).
Proof.
  intros B HB HR Hw Hsel Hget. revert out.
  induction Hget as [|location items from_where itemss Hd _ IH];
    intros out Hitems.
  - exists []. split; [cbn; rewrite app_nil_r; reflexivity | constructor].
  - cbn [concat] in Hitems. apply Forall_app in Hitems.
    destruct Hitems as [Hhere Hrest].
    cbn [collect].
    unfold AttentionStore.get_average_attention at 1.
    rewrite (dict_get_map _ _ _ _ Hd). cbn [rbind].
    destruct (collect_items_heads prompts R w select (cur_step self) items
                out HB HR Hw Hsel Hhere) as (cs1 & H1 & Hrel1).
    rewrite H1. cbn [rbind].
    destruct (IH (out ++ cs1) Hrest) as (cs2 & H2 & Hrel2).
    exists (cs1 ++ cs2). split.
    + rewrite H2, <- app_assoc. reflexivity.
    + cbn [concat]. rewrite filter_app. apply Forall2_app; assumption.
Qed.

Lemma selected_rows (B R w select : nat) (cur : Z)
      (cs maps : list (tensor num)) (y x t : nat) :
  (y < R)%nat -> (x < R)%nat -> (t < w)%nat ->
  Forall2 (selects ar B R w select cur) cs maps ->
  concat (map (fun c => map (fun i => data c (i :: [y; x; t]))
                            (seq 0 (hd 0%nat (shape c)))) cs)
  = concat (map (head_values ar B select cur (y * R + x) t) maps).
Proof.
  intros Hy Hx Ht H.
  induction H as [|c item cs maps [Hs Hd] _ IH]; [reflexivity|].
  cbn [map concat]. rewrite IH. f_equal.
  unfold head_values. rewrite Hs. cbn [hd].
  apply map_ext_in. intros i Hi. apply in_seq in Hi.
  apply Hd; lia.
Qed.

Lemma selected_shapes (B R w select : nat) (cur : Z)
      (cs maps : list (tensor num)) :
  Forall2 (selects ar B R w select cur) cs maps ->
  forallb (fun t => match shape t with
                    | _ :: s' => shape_eqb [R; R; w] s'
                    | [] => false
                    end) cs = true.
Proof.
  induction 1 as [|c item cs maps [Hs _] _ IH]; [reflexivity|].
  cbn [forallb]. rewrite Hs, shape_eqb_refl, IH. reflexivity.
Qed.

(** X26.  [aggregate_attention] is the mean over the heads of the selected
    prompt: when the locations of [from_where] hold attention maps of
    [len(prompts)] prompts, at least one of them with [res ** 2]
    positions, the result has the shape [(res, res, w)] and its element at
    a pixel and a token is the sum, in the order of the locations, maps and
    heads, of the averaged attention of the heads of the prompt [select] in
    the maps of that resolution, divided by the number of these heads; the
    maps of other resolutions are left out. *)
Theorem aggregate_is_the_mean_over_heads :
  forall (prompts : list string) (self : controller num) (res w select : nat)
         (from_where : list string) (is_cross : bool)
         (itemss : list (list (tensor num))),
    let B := List.length prompts in
    let maps := filter (at_resolution res) (concat itemss) in
    B <> 0%nat -> res <> 0%nat -> w <> 0%nat -> (select < B)%nat ->
    Forall2 (fun location items =>
               dict_get (AttentionStore.location_key is_cross location)
                 (attention_store self) = Ok items) from_where itemss ->
    Forall (head_map B res w) (concat itemss) ->
    maps <> [] ->
    exists out,
      aggregate_attention ar prompts self (Z.of_nat res) from_where is_cross
        (Z.of_nat select) = Ok out
      /\ shape out = [res; res; w]
      /\ forall y x t,
           (y < res)%nat -> (x < res)%nat -> (t < w)%nat ->
           let heads :=
             concat (map (head_values ar B select (cur_step self)
                            (y * res + x) t) maps) in
           data out [y; x; t]
           = Scalar.div_int ar (sum_list ar heads)
               (Z.of_nat (List.length heads)).
Proof.
  intros prompts self res w select from_where is_cross itemss B maps
         HB HR Hw Hsel Hget Hitems Hmaps.
  destruct (collect_heads prompts self res w select from_where is_cross
              itemss [] HB HR Hw Hsel Hget Hitems) as (cs & Hcs & Hrel).
  fold B in Hrel. fold maps in Hrel. cbn [app] in Hcs.
  unfold aggregate_attention. rewrite Hcs. cbn [rbind].
  pose proof (selected_shapes _ _ _ _ _ _ _ Hrel) as Hshapes.
  destruct cs as [|c0 cs].
  { inversion Hrel as [Hm|]. congruence. }
  assert (Hs0 : exists h0, shape c0 = [h0; res; res; w]).
  { inversion Hrel as [|? item ? ? [Hs _]]; subst. eexists. exact Hs. }
  destruct Hs0 as [h0 Hs0].
  unfold cat0. rewrite Hs0, Hshapes. cbn [rbind].
  unfold shape_at. cbn [shape nth_error rbind].
  eexists. split; [reflexivity|]. split; [reflexivity|].
  intros y x t Hy Hx Ht. cbv zeta.
  unfold sum0, pointwise. cbn [shape data].
  rewrite sum_fold.
  rewrite (cat_rows c0 (c0 :: cs) [y; x; t]).
  rewrite (selected_rows B res w select (cur_step self) (c0 :: cs) maps
             y x t Hy Hx Ht Hrel).
  f_equal. f_equal.
  rewrite <- (selected_rows B res w select (cur_step self) (c0 :: cs) maps
                y x t Hy Hx Ht Hrel).
  rewrite <- (cat_rows c0 (c0 :: cs) [y; x; t]).
  rewrite length_map, length_seq. reflexivity.
Qed.

End AggregateProperties.

(** ** The conditional pass of the low-resource mode *)

Section LowResource.

Context {num : Type} (ar : Scalar.arithmetic num).

(** X27.  In low-resource mode the second [num_att_layers] interceptions
    of a step, the conditional pass, hand the whole tensor to [forward]:
    the storing controller returns it unchanged and records all of it, not
    its second half, when its query axis is at most [32 ** 2]. *)
Theorem low_resource_conditional_pass :
  forall (attn : tensor num) (is_cross : bool) (place_in_unet : string)
         (self : controller num) (n q : nat) (rest : list nat)
         (l : list (tensor num)),
    cls self = ClsAttentionStore ->
    (num_att_layers self <= cur_att_layer self)%Z ->
    (cur_att_layer self + 1 <> 2 * num_att_layers self)%Z ->
    shape attn = n :: q :: rest ->
    dict_get (AttentionStore.location_key is_cross place_in_unet)
      (step_store self) = Ok l ->
    call ar true attn is_cross place_in_unet self
    = (Ok attn,
       set_cur_att_layer (cur_att_layer self + 1)
         (if (q <=? 32 ^ 2)%nat
          then set_step_store
                 (dict_set (AttentionStore.location_key is_cross place_in_unet)
                    (l ++ [attn]) (step_store self)) self
          else self)).
Proof.
  intros attn is_cross place self n q rest l Hcls Hcur Hlast Hshape Hl.
  unfold call. rewrite call_unfold.
  unfold transform_phase, AttentionControl.num_uncond_att_layers.
  replace (num_att_layers self <=? cur_att_layer self)%Z with true
    by (symmetry; apply Z.leb_le; exact Hcur).
  unfold forward at 1. rewrite Hcls.
  rewrite (AttentionStore_forward_returns attn is_cross place self n q rest l
             Hshape Hl).
  cbv zeta.
  destruct (q <=? 32 ^ 2)%nat; fields;
    (replace (cur_att_layer self + 1
              =? num_att_layers self + num_att_layers self)%Z with false
      by (symmetry; apply Z.eqb_neq; lia));
    reflexivity.
Qed.

End LowResource.

(** ** The batch of the local blend *)

Section BlendBatch.

Context {num : Type} (ar : Scalar.arithmetic num).

(** X29.  The local blend is written for two prompts: with three or more,
    the mask of the edited samples, one row short of the batch, cannot be
    broadcast against the latents and [__call__] raises RuntimeError. *)
Theorem local_blend_is_for_two_prompts :
  forall (normalized_maps : tensor num -> store num -> list nat
                            -> result (tensor num))
         (lb : LocalBlend_t num) (x_t m : tensor num) (st : store num)
         (B c h w : nat),
    shape x_t = [B; c; h; w] ->
    normalized_maps (alpha_layers lb) st [h; w] = Ok m ->
    shape m = [B; 1; h; w]%nat ->
    (3 <= B)%nat ->
    LocalBlend.__call__ ar normalized_maps lb x_t st = Raise RuntimeError.
Proof.
  intros nm lb x_t m st B c h w Hx Hnm Hm HB.
  unfold LocalBlend.__call__.
  rewrite Hx. cbn [skipn]. rewrite Hnm. cbn [rbind].
  unfold slice_to, slice_from, pointwise. cbn [shape data].
  rewrite Hm, Hx. cbn [rbind].
  replace (Nat.min 1 B) with 1%nat by lia.
  unfold binop. cbn [shape data].
  repeat (rewrite ?Hx; broadcast_shape; cbn [rbind shape data]).
  replace (broadcast_dim (B - 1) B) with (@None nat); [reflexivity|].
  unfold broadcast_dim.
  destruct (Nat.eqb_spec (B - 1) B); [lia|].
  destruct (Nat.eqb_spec (B - 1) 1); [lia|].
  destruct (Nat.eqb_spec B 1); [lia|]. reflexivity.
Qed.

End BlendBatch.

Lemma SFsub_same (x : spec_float) :
  is_number x = true -> SFsub 24 128 x x = S754_zero false.
Proof.
  destruct x as [[|]| | |s m e]; try discriminate; intros _;
    try reflexivity.
  unfold SFsub. cbv zeta. rewrite Z.sub_diag. reflexivity.
Qed.

Lemma SFadd_plus_zero (x : spec_float) :
  is_number x = true -> x <> S754_zero true ->
  SFadd 24 128 x (S754_zero false) = x.
Proof.
  destruct x as [[|]| | |s m e]; try discriminate; intros _ H;
    try reflexivity.
  congruence.
Qed.

(** X28.  The local blend never changes the reference: the first sample of
    the latent that the step callback returns is the first sample it
    received, whatever the mask; exactly in the arithmetic of the
    rationals, and bit for bit in single precision for the numbers other
    than the negative zero. *)
Theorem local_blend_keeps_the_reference :
  (forall (normalized_maps : tensor Q -> store Q -> list nat
                             -> result (tensor Q))
          (x_t : tensor Q) (self : controller Q)
          (s : strategy Q) (lb : LocalBlend_t Q) (m : tensor Q)
          (c h w : nat),
      cls self = ClsAttentionControlEdit s ->
      local_blend self = Some lb ->
      shape x_t = [2; c; h; w]%nat ->
      normalized_maps (alpha_layers lb) (attention_store self) [h; w]
        = Ok m ->
      shape m = [2; 1; h; w]%nat ->
      exists x_t',
        step_callback exact normalized_maps x_t self = (Ok x_t', self)
        /\ forall ch y x,
             (ch < c)%nat -> (y < h)%nat -> (x < w)%nat ->
             data x_t' [0%nat; ch; y; x] == data x_t [0%nat; ch; y; x])
  /\ (forall (normalized_maps : tensor spec_float -> store spec_float
                                -> list nat -> result (tensor spec_float))
             (x_t : tensor spec_float) (self : controller spec_float)
             (s : strategy spec_float) (lb : LocalBlend_t spec_float)
             (m : tensor spec_float) (c h w : nat),
         cls self = ClsAttentionControlEdit s ->
         local_blend self = Some lb ->
         shape x_t = [2; c; h; w]%nat ->
         normalized_maps (alpha_layers lb) (attention_store self) [h; w]
           = Ok m ->
         shape m = [2; 1; h; w]%nat ->
         exists x_t',
           step_callback binary32 normalized_maps x_t self = (Ok x_t', self)
           /\ forall ch y x,
                (ch < c)%nat -> (y < h)%nat -> (x < w)%nat ->
                is_number (data x_t [0%nat; ch; y; x]) = true ->
                data x_t [0%nat; ch; y; x] <> S754_zero true ->
                data x_t' [0%nat; ch; y; x] = data x_t [0%nat; ch; y; x]).
Proof.
  split.
  - intros nm x_t self s lb m c h w Hcls Hlb Hx Hnm Hm.
    destruct (step_callback_with_blend exact nm x_t self s lb m c h w
                Hcls Hlb Hx Hnm Hm) as (x_t' & Hcall & _ & Hd).
    exists x_t'. split; [exact Hcall|].
    intros ch y x Hch Hy Hxw.
    rewrite (Hd 0%nat ch y x ltac:(lia) Hch Hy Hxw).
    cbn [Scalar.add Scalar.mul Scalar.sub Scalar.one Scalar.zero exact].
    ring.
  - intros nm x_t self s lb m c h w Hcls Hlb Hx Hnm Hm.
    destruct (step_callback_with_blend binary32 nm x_t self s lb m c h w
                Hcls Hlb Hx Hnm Hm) as (x_t' & Hcall & _ & Hd).
    exists x_t'. split; [exact Hcall|].
    intros ch y x Hch Hy Hxw Hnum Hneg.
    rewrite (Hd 0%nat ch y x ltac:(lia) Hch Hy Hxw).
    cbn [Scalar.add Scalar.mul Scalar.sub Scalar.one Scalar.zero binary32].
    rewrite (SFsub_same _ Hnum).
    replace (SFmul 24 128 _ (S754_zero false)) with (S754_zero false)
      by (destruct (_ || _); reflexivity).
    apply SFadd_plus_zero; assumption.
Qed.

(** ** The further properties on concrete inputs *)

Lemma low_resource_unconditional_pass_witness :
  call binary32 true (Examples.map64 (SFone 24 128)) true "down"
    (Examples.registered binary32 2)
  = (Ok (Examples.map64 (SFone 24 128)),
     set_cur_att_layer 1 (Examples.registered binary32 2)).
Proof.
  apply (low_resource_unconditional_pass binary32
           (Examples.map64 (SFone 24 128)) true "down"
           (Examples.registered binary32 2)).
  vm_compute. split; [discriminate | reflexivity].
Defined.

Lemma unregistered_never_completes_a_step_witness :
  cur_step (run binary32 false (Examples.full_mask binary32)
              (Examples.network (SFone 24 128))
              (Examples.unregistered binary32)) = 0%Z
  /\ attention_store
       (run binary32 false (Examples.full_mask binary32)
          (Examples.network (SFone 24 128))
          (Examples.unregistered binary32)) = [].
Proof.
  destruct (unregistered_never_completes_a_step binary32 false
              (Examples.full_mask binary32)
              (Examples.network (SFone 24 128))
              (Examples.unregistered binary32))
    as (Hstep & _ & Hstore & _).
  - vm_compute. discriminate.
  - vm_compute. discriminate.
  - reflexivity.
  - split; [exact Hstep | exact Hstore].
Defined.

Lemma layer_counter_stays_in_range_witness :
  (0 <= cur_att_layer
          (run binary32 false (Examples.full_mask binary32)
             (Examples.network (SFone 24 128))
             (Examples.registered binary32 2))
   < calls_per_step false
       (run binary32 false (Examples.full_mask binary32)
          (Examples.network (SFone 24 128))
          (Examples.registered binary32 2)))%Z.
Proof.
  apply (layer_counter_stays_in_range binary32 false
           (Examples.full_mask binary32) (Examples.network (SFone 24 128))
           (Examples.registered binary32 2)).
  - vm_compute. split; [discriminate | reflexivity].
  - reflexivity.
Defined.

Lemma empty_control_is_identity_witness :
  exists out,
    fst (call binary32 false
           (Examples.latents (Examples.f32 1 2) (Examples.f32 1 10))
           true "down" (Examples.object binary32 (new_EmptyControl binary32)))
    = Ok out
    /\ shape out = [2; 1; 1; 1]%nat.
Proof.
  destruct (empty_control_is_identity binary32 false
              (Examples.latents (Examples.f32 1 2) (Examples.f32 1 10))
              true "down"
              (Examples.object binary32 (new_EmptyControl binary32))
              2%nat [1; 1; 1]%nat)
    as (out & Hcall & Hshape & _).
  - reflexivity.
  - reflexivity.
  - exists out. split; [exact Hcall | exact Hshape].
Defined.


Lemma reset_restores_the_start_witness :
  set_between_steps_calls 0
    (snd (reset (run binary32 false (Examples.full_mask binary32)
                   (Examples.session (SFone 24 128))
                   (Examples.unregistered binary32))))
  = set_between_steps_calls 0 (Examples.registered binary32 2).
Proof.
  apply (reset_restores_the_start binary32 false
           (Examples.full_mask binary32) (Examples.session (SFone 24 128))
           (Examples.unregistered binary32)).
  - reflexivity.
  - repeat split.
  - reflexivity.
Defined.


Lemma between_steps_failure_keeps_the_step_witness :
  exists e self',
    AttentionStore.between_steps binary32
      (Examples.stored binary32 (Examples.f32 1 10) 1)
    = (Raise e, self')
    /\ step_store self'
       = step_store (Examples.stored binary32 (Examples.f32 1 10) 1).
Proof.
  apply (between_steps_failure_keeps_the_step binary32
           (Examples.stored binary32 (Examples.f32 1 10) 1)).
  - vm_compute. discriminate.
  - apply (empty_store_keys_nodup (num:=spec_float)).
  - vm_compute. reflexivity.
Defined.

Lemma cumulative_layout_is_fixed_witness :
  layout (attention_store
            (run binary32 false (Examples.full_mask binary32)
               (Examples.network (SFone 24 128))
               (Examples.stored binary32 (Examples.f32 1 10) 1)))
  = layout (attention_store (Examples.stored binary32 (Examples.f32 1 10) 1)).
Proof.
  apply (cumulative_layout_is_fixed binary32 false
           (Examples.full_mask binary32) (Examples.network (SFone 24 128))
           (Examples.stored binary32 (Examples.f32 1 10) 1)).
  - vm_compute. discriminate.
  - reflexivity.
Defined.

Lemma every_stage_has_its_list_witness :
  exists l,
    dict_get "up_cross"
      (step_store
         (run binary32 false (Examples.full_mask binary32)
            (Examples.session (SFone 24 128))
            (Examples.unregistered binary32)))
    = Ok l.
Proof.
  destruct (every_stage_has_its_list binary32 false
              (Examples.full_mask binary32) (Examples.session (SFone 24 128))
              (Examples.unregistered binary32)
              (Examples.map64 (SFone 24 128)) true "up"
              2%nat 64%nat [77]%nat)
    as (l & Hl & _).
  - reflexivity.
  - right. right. left. reflexivity.
  - reflexivity.
  - exists l. exact Hl.
Defined.

Lemma unknown_stage_raises_for_small_maps_witness :
  AttentionStore.forward (Examples.map64 (SFone 24 128)) true "middle"
    (Examples.unregistered binary32)
  = (Raise KeyError, Examples.unregistered binary32).
Proof.
  apply (unknown_stage_raises_for_small_maps
           (Examples.map64 (SFone 24 128)) true "middle"
           (Examples.unregistered binary32) 2%nat 64%nat [77]%nat).
  - reflexivity.
  - cbn. intuition discriminate.
  - reflexivity.
Defined.

Lemma editing_records_the_edited_map_witness :
  exists out,
    forward binary32 (Examples.constant [2; 4; 4]%nat (SFone 24 128))
      false "up" (Examples.replacing binary32 3 None)
    = (Ok out,
       set_step_store
         (dict_set "up_self" [mk [2; 4; 4]%nat (data out)]
            (step_store (Examples.replacing binary32 3 None)))
         (Examples.replacing binary32 3 None)).
Proof.
  destruct (edited_self_attention binary32
              (replace_cross_attention binary32
                 (Replace (Examples.identity_mapper binary32 3)))
              (Examples.replacing binary32 3 None)
              (Examples.constant [2; 4; 4]%nat (SFone 24 128))
              1%nat 4%nat [4]%nat)
    as (out & Hout & _).
  - discriminate.
  - reflexivity.
  - exists out.
    apply (editing_records_the_edited_map binary32
             (Replace (Examples.identity_mapper binary32 3))
             (Examples.constant [2; 4; 4]%nat (SFone 24 128))
             out false "up" (Examples.replacing binary32 3 None)
             2%nat 4%nat [4]%nat []).
    + reflexivity.
    + reflexivity.
    + vm_compute. lia.
    + reflexivity.
    + vm_compute. reflexivity.
    + exact Hout.
Defined.

Lemma failed_edit_leaves_the_input_recorded_witness :
  forward binary32 (Examples.constant [2; 1; 2]%nat (Examples.f32 1 10))
    true "down" (Examples.beyond_schedule binary32)
  = (Raise IndexError,
     set_step_store
       (dict_set "down_cross"
          [Examples.constant [2; 1; 2]%nat (Examples.f32 1 10)]
          (step_store (Examples.beyond_schedule binary32)))
       (Examples.beyond_schedule binary32)).
Proof.
  apply (failed_edit_leaves_the_input_recorded binary32
           (Replace (Examples.identity_mapper binary32 2))
           (Examples.constant [2; 1; 2]%nat (Examples.f32 1 10))
           true "down" (Examples.beyond_schedule binary32) IndexError
           2%nat 1%nat [2]%nat []).
  - reflexivity.
  - reflexivity.
  - vm_compute. lia.
  - reflexivity.
  - reflexivity.
  - vm_compute. reflexivity.
Defined.

Lemma cross_attention_beyond_the_schedule_raises_witness :
  fst (forward binary32
         (Examples.constant [2; 1; 2]%nat (Examples.f32 1 10))
         true "down" (Examples.beyond_schedule binary32))
  = Raise IndexError.
Proof.
  apply (cross_attention_beyond_the_schedule_raises binary32
           (Replace (Examples.identity_mapper binary32 2))
           (Examples.constant [2; 1; 2]%nat (Examples.f32 1 10))
           "down" (Examples.beyond_schedule binary32)
           1%nat 1%nat 11%nat [2]%nat [1; 1; 1; 2]%nat []).
  - reflexivity.
  - vm_compute. discriminate.
  - reflexivity.
  - reflexivity.
  - vm_compute. discriminate.
  - reflexivity.
Defined.

Lemma refine_blends_the_mapped_reference_witness :
  exists stored out,
    AttentionRefine.reshape_alphas (Examples.alphas_of (S754_zero false))
      = Ok stored
    /\ replace_cross_attention binary32
         (Refine (Examples.mapper_to (-1)) stored)
         (Examples.constant [1; 1; 2]%nat (Examples.f32 1 10))
         (Examples.constant [1; 1; 1; 2]%nat (Examples.f32 1 2))
       = Ok out
    /\ shape out = [1; 1; 1; 2]%nat.
Proof.
  destruct (refine_blends_the_mapped_reference binary32
              (Examples.mapper_to (-1)) (Examples.alphas_of (S754_zero false))
              (Examples.constant [1; 1; 2]%nat (Examples.f32 1 10))
              (Examples.constant [1; 1; 1; 2]%nat (Examples.f32 1 2))
              1%nat 1%nat 1%nat 2%nat 2%nat)
    as (stored & out & Hst & Hout & Hshape & _).
  - reflexivity.
  - reflexivity.
  - reflexivity.
  - reflexivity.
  - intros ib j _ _. reflexivity.
  - exists stored, out. repeat split; assumption.
Defined.

Lemma refine_selects_in_binary32_witness :
  exists stored out,
    AttentionRefine.reshape_alphas (Examples.alphas_of (S754_zero false))
      = Ok stored
    /\ replace_cross_attention binary32
         (Refine (Examples.mapper_to (-1)) stored)
         (Examples.constant [1; 1; 2]%nat (Examples.f32 1 10))
         (Examples.constant [1; 1; 1; 2]%nat (Examples.f32 1 2))
       = Ok out
    /\ data out [0; 0; 0; 1]%nat = Examples.f32 1 2.
Proof.
  destruct (refine_selects_in_binary32
              (Examples.mapper_to (-1)) (Examples.alphas_of (S754_zero false))
              (Examples.constant [1; 1; 2]%nat (Examples.f32 1 10))
              (Examples.constant [1; 1; 1; 2]%nat (Examples.f32 1 2))
              1%nat 1%nat 1%nat 2%nat 2%nat)
    as (stored & out & Hst & Hout & Hdata).
  - reflexivity.
  - reflexivity.
  - reflexivity.
  - reflexivity.
  - intros ib j _ _. reflexivity.
  - intros ib j _ _. right. reflexivity.
  - intros ih ip k _ _ _. reflexivity.
  - intros ib ih ip j _ _ _ _. reflexivity.
  - exists stored, out. split; [exact Hst|]. split; [exact Hout|].
    rewrite (Hdata 0%nat 0%nat 0%nat 1%nat) by lia. reflexivity.
Defined.

Lemma equalizer_of_several_words_witness :
  exists equalizer,
    get_equalizer binary32 Examples.word_at_2_3 "a castle on a hill"
      (Words [WordText "castle"; WordIndex 4]) [two]
    = Ok equalizer
    /\ shape equalizer = [1; 77]%nat
    /\ data equalizer [0; 3]%nat = two.
Proof.
  destruct (equalizer_of_several_words binary32 Examples.word_at_2_3
              "a castle on a hill" [WordText "castle"; WordIndex 4]
              [[2; 3]; [2; 3]]%nat two)
    as (equalizer & Heq & Hshape & Hdata).
  - repeat (constructor;
            [split; [reflexivity|];
             split; [discriminate | repeat constructor; lia]|]).
    constructor.
  - exists equalizer. split; [exact Heq|]. split; [exact Hshape|].
    rewrite (Hdata 3%nat) by lia. reflexivity.
Defined.

Lemma equalizer_values_follow_the_tokens_witness :
  exists equalizer,
    get_equalizer binary32 Examples.word_at_2_3 "a castle on a hill"
      (OneWord (WordText "castle")) [two; SFone 24 128]
    = Ok equalizer
    /\ data equalizer [0; 2]%nat = two
    /\ data equalizer [1; 2]%nat = two
    /\ data equalizer [1; 3]%nat = SFone 24 128.
Proof.
  destruct (equalizer_values_follow_the_tokens binary32 Examples.word_at_2_3
              "a castle on a hill" (WordText "castle") [2; 3]%nat
              [two; SFone 24 128])
    as (equalizer & Heq & _ & Hdata & _).
  - reflexivity.
  - cbn. lia.
  - reflexivity.
  - repeat constructor; cbn; intuition lia.
  - repeat constructor; lia.
  - exists equalizer. split; [exact Heq|]. split; [| split].
    + apply (Hdata 0%nat 0%nat). cbn. lia.
    + apply (Hdata 1%nat 0%nat). cbn. lia.
    + apply (Hdata 1%nat 1%nat). cbn. lia.
Defined.

Lemma equalizer_rejects_a_token_count_mismatch_witness :
  get_equalizer binary32 Examples.word_at_2_3 "a castle on a hill"
    (OneWord (WordText "castle")) [two; two; two]
  = Raise RuntimeError.
Proof.
  apply (equalizer_rejects_a_token_count_mismatch binary32
           Examples.word_at_2_3 "a castle on a hill" (WordText "castle")
           [2; 3]%nat [two; two; two]).
  - reflexivity.
  - cbn. lia.
  - discriminate.
  - cbn. lia.
  - repeat constructor; lia.
Defined.

Lemma local_blend_marks_the_words_witness :
  exists lb,
    LocalBlend.__init__ binary32 Examples.word_at_2_3 Examples.prompts
      Examples.blend_words_of_prompts (Examples.f32 3 10) = Ok lb
    /\ threshold lb = Examples.f32 3 10
    /\ data (alpha_layers lb) [1; 0; 0; 0; 0; 3]%nat = SFone 24 128
    /\ data (alpha_layers lb) [1; 0; 0; 0; 0; 4]%nat = S754_zero false.
Proof.
  destruct (local_blend_marks_the_words binary32 Examples.word_at_2_3
              Examples.prompts Examples.blend_words_of_prompts
              (Examples.f32 3 10))
    as (lb & Hlb & Hthr & _ & Hdata).
  - repeat (constructor;
            [repeat (constructor;
                     [exists [2; 3]%nat; split; [reflexivity|];
                      split; [discriminate
                             | repeat constructor; unfold MAX_NUM_WORDS; lia]
                     |]);
             constructor|]).
    constructor.
  - exists lb. split; [exact Hlb|]. split; [exact Hthr|]. split.
    + rewrite (Hdata 1%nat 3%nat) by (cbn; unfold MAX_NUM_WORDS; lia).
      reflexivity.
    + rewrite (Hdata 1%nat 4%nat) by (cbn; unfold MAX_NUM_WORDS; lia).
      reflexivity.
Defined.

Lemma local_blend_needs_a_completed_step_witness :
  step_callback binary32
    (LocalBlend.normalized_maps (Examples.weighted_fully binary32))
    (Examples.latents (Examples.f32 1 2) (Examples.f32 1 10))
    (Examples.replacing binary32 2 (Some Examples.blend32))
  = (Raise KeyError, Examples.replacing binary32 2 (Some Examples.blend32)).
Proof.
  destruct (local_blend_needs_a_completed_step binary32 false
              (Examples.full_mask binary32)
              (Examples.weighted_fully binary32) []
              (Examples.replacing binary32 2 (Some Examples.blend32))
              (Replace (Examples.identity_mapper binary32 2))
              Examples.blend32
              (Examples.latents (Examples.f32 1 2) (Examples.f32 1 10)))
    as [Hbefore _].
  - reflexivity.
  - reflexivity.
  - reflexivity.
  - reflexivity.
  - apply Hbefore. reflexivity.
Defined.

Lemma aggregate_returns_only_with_a_map_witness :
  exists location items item d,
    In location ["down"%string]
    /\ dict_get (AttentionStore.location_key true location)
         (attention_store (Examples.stored binary32 (Examples.f32 1 10) 3))
       = Ok items
    /\ In item items
    /\ shape_at item 1 = Ok d
    /\ Z.of_nat d = (1 ^ 2)%Z.
Proof.
  destruct (aggregate_returns_only_with_a_map binary32 Examples.one_prompt
              (Examples.stored binary32 (Examples.f32 1 10) 3) 1
              ["down"%string] true 0
              (Examples.returned (Examples.constant [] (S754_zero false))
                 (aggregate_attention binary32 Examples.one_prompt
                    (Examples.stored binary32 (Examples.f32 1 10) 3) 1
                    ["down"%string] true 0)))
    as (location & items & item & d & Hl & Hd & Hi & Hs & Hq & _).
  - vm_compute. reflexivity.
  - exists location, items, item, d. repeat split; assumption.
Defined.

Lemma aggregate_raises_above_the_stored_resolution_witness :
  exists e,
    aggregate_attention binary32 Examples.one_prompt
      (run binary32 false (Examples.full_mask binary32)
         (Examples.session (SFone 24 128)) (Examples.unregistered binary32))
      64 ["up"%string; "down"%string] true 0
    = Raise e.
Proof.
  apply (aggregate_raises_above_the_stored_resolution binary32 false
           (Examples.full_mask binary32) (Examples.session (SFone 24 128))
           (Examples.unregistered binary32) Examples.one_prompt 64
           ["up"%string; "down"%string] true 0).
  - repeat split.
  - lia.
Defined.

Lemma aggregate_is_the_mean_over_heads_witness :
  exists out,
    aggregate_attention binary32 Examples.one_prompt
      (Examples.stored binary32 (Examples.f32 1 10) 1) 1 ["down"%string]
      true 0
    = Ok out
    /\ shape out = [1; 1; 1]%nat.
Proof.
  destruct (aggregate_is_the_mean_over_heads binary32 Examples.one_prompt
              (Examples.stored binary32 (Examples.f32 1 10) 1)
              1%nat 1%nat 0%nat ["down"%string] true
              [[second_half
                  (Examples.constant [2; 1; 1]%nat (Examples.f32 1 10))]])
    as (out & Hout & Hshape & _).
  - discriminate.
  - discriminate.
  - discriminate.
  - cbn. lia.
  - constructor; [reflexivity | constructor].
  - constructor;
      [exists 1%nat, 1%nat, 1%nat; split; reflexivity | constructor].
  - discriminate.
  - exists out. split; [exact Hout | exact Hshape].
Defined.

Lemma low_resource_conditional_pass_witness :
  call binary32 true (Examples.map64 (SFone 24 128)) true "down"
    (set_cur_att_layer 2 (Examples.registered binary32 2))
  = (Ok (Examples.map64 (SFone 24 128)),
     set_cur_att_layer 3
       (set_step_store
          (dict_set "down_cross" [Examples.map64 (SFone 24 128)]
             (step_store (Examples.registered binary32 2)))
          (set_cur_att_layer 2 (Examples.registered binary32 2)))).
Proof.
  apply (low_resource_conditional_pass binary32
           (Examples.map64 (SFone 24 128)) true "down"
           (set_cur_att_layer 2 (Examples.registered binary32 2))
           2%nat 64%nat [77]%nat []).
  - reflexivity.
  - vm_compute. discriminate.
  - vm_compute. discriminate.
  - reflexivity.
  - reflexivity.
Defined.

Lemma local_blend_is_for_two_prompts_witness :
  LocalBlend.__call__ binary32 (Examples.mask_of_three binary32)
    Examples.blend32
    (Examples.constant [3; 1; 1; 1]%nat (Examples.f32 1 2)) []
  = Raise RuntimeError.
Proof.
  apply (local_blend_is_for_two_prompts binary32
           (Examples.mask_of_three binary32) Examples.blend32
           (Examples.constant [3; 1; 1; 1]%nat (Examples.f32 1 2))
           (Examples.constant [3; 1; 1; 1]%nat (SFone 24 128)) []
           3%nat 1%nat 1%nat 1%nat).
  - reflexivity.
  - reflexivity.
  - reflexivity.
  - lia.
Defined.

Lemma constructors_leave_the_stores_empty_witness :
  initialized (Examples.replacing binary32 2 None)
  /\ num_att_layers (Examples.replacing binary32 2 None) = (-1)%Z.
Proof.
  destruct (constructors_leave_the_stores_empty binary32
              Examples.prompts 10
              (Examples.constant [11; 1; 1; 1; 2]%nat (Scalar.one binary32))
              (SingleFloat (Examples.f64 4 10)) None
              (Examples.identity_mapper binary32 2)
              (Examples.mapper_to 0) (Examples.alphas_of (SFone 24 128))
              (Examples.alphas_of (SFone 24 128)) None
              (Examples.replacing binary32 2 None))
    as (Hinit & _ & _ & Hn & _).
  - right. left. vm_compute. reflexivity.
  - split; [exact Hinit | exact Hn].
Defined.

Lemma local_blend_keeps_the_reference_witness :
  exists x_t',
    step_callback exact (Examples.full_mask exact)
      (Examples.latents (1 # 2) (1 # 10))
      (Examples.replacing exact 3 (Some Examples.blendQ))
    = (Ok x_t', Examples.replacing exact 3 (Some Examples.blendQ))
    /\ data x_t' [0; 0; 0; 0]%nat == 1 # 2.
Proof.
  destruct (proj1 local_blend_keeps_the_reference
              (Examples.full_mask exact)
              (Examples.latents (1 # 2) (1 # 10))
              (Examples.replacing exact 3 (Some Examples.blendQ))
              (Replace (Examples.identity_mapper exact 3)) Examples.blendQ
              (Examples.constant [2; 1; 1; 1]%nat 1) 1%nat 1%nat 1%nat)
    as (x_t' & Hcall & Hdata).
  - reflexivity.
  - reflexivity.
  - reflexivity.
  - reflexivity.
  - reflexivity.
  - exists x_t'. split; [exact Hcall|].
    rewrite (Hdata 0%nat 0%nat 0%nat) by lia. reflexivity.
Defined.
